(** * Identifier validation pipeline of [paper_data/validate_results.py]

    A shallow embedding of the availability monitor, the identifier
    resolver and the batch driver, together with the properties the
    design document states about them.

    The Python code talks to the network, sleeps, logs, raises and
    catches exceptions, and writes three CSV streams.  All of that is
    threaded through an explicit [World]; a computation is a function
    from a world to an outcome and a new world.  The two [while True]
    loops of the source take a [fuel] argument: running out of fuel
    stands for "has not returned yet".

    What is taken for granted: the exceptions are those of class
    [Exception], which the [except] clauses of the source catch;
    [logging], [time.sleep] and the CSV writers do not raise; creating
    the output directory and opening the files is left out. *)

From Stdlib Require Import ZArith Ascii String Lia.
From stdpp Require Import base list.

Local Open Scope string_scope.
Local Open Scope list_scope.

(** ** Python strings *)

Module PyStr.

(** [s.startswith(p)] *)
Definition startswith (s p : string) : bool := String.prefix p s.

(** [needle in s] *)
Fixpoint contains (needle s : string) : bool :=
  String.prefix needle s ||
  match s with
  | EmptyString => false
  | String _ s' => contains needle s'
  end.

Definition lower_ascii (c : ascii) : ascii :=
  let n := nat_of_ascii c in
  if (65 <=? n)%nat && (n <=? 90)%nat then ascii_of_nat (n + 32) else c.

(** [s.lower()] on the ASCII range *)
Fixpoint lower (s : string) : string :=
  match s with
  | EmptyString => EmptyString
  | String c s' => String (lower_ascii c) (lower s')
  end.

(** truth value of a string: the empty string is falsy *)
Definition truthy (s : string) : bool :=
  match s with EmptyString => false | _ => true end.

End PyStr.

(** ** Exceptions, log records, JSON values *)

(** An exception of class [Exception]: its class name and [str(e)]. *)
Record Exn := mkExn { exn_class : string; exn_str : string }.

(** What a library call does: it returns a value or it raises. *)
Inductive Raises (A : Type) : Type :=
| Returns (a : A)
| Throws (e : Exn).
Arguments Returns {A} a.
Arguments Throws {A} e.

(** A decoded JSON document, as [response.json()] returns it.  Numbers
    are kept as integers; the pipeline only asks whether one is zero. *)
#[local] Unset Elimination Schemes.
Inductive json :=
| JNull
| JBool (b : bool)
| JNum (z : Z)
| JStr (s : string)
| JArr (l : list json)
| JObj (kv : list (string * json)).
#[local] Set Elimination Schemes.

Inductive Level := INFO | WARNING | ERROR.

(** The interpolated values of an f-string handed to [logging]. *)
Inductive LogArg :=
| AStr (s : string)
| ANum (z : Z)
| ARow (r : list string)
| AJson (v : json).

(** One log record: severity, the f-string as it stands in the source
    (without its line breaks), and the values of its placeholders in
    order. *)
Record LogEntry := mkLog { level : Level; template : string; args : list LogArg }.

(** The HTTP response object of [requests.get]. *)
Record Response := mkResponse {
  ok : bool;
  status_code : Z;
  json_body : Raises json
}.

Definition Row := list string.

(** ** The world *)

(** [calls] counts the network requests issued so far; the answer of a
    remote service may depend on it.  [slept] and [log] grow at the
    end.  [attempts] is a ghost history of the calls of
    [validate_identifier].  [row_var] is the loop variable [row] of
    [process_results], which the loop body updates in place and the
    row-level handler reads back. *)
Record World := mkWorld {
  calls : nat;
  slept : list Z;
  log : list LogEntry;
  attempts : list (string * string);
  valid_out : list Row;
  invalid_out : list Row;
  no_info_out : list Row;
  row_var : Row
}.

Definition world0 : World := mkWorld 0 [] [] [] [] [] [] [].

(** ** Outcomes and computations *)

Inductive Res (A : Type) : Type :=
| Ret (a : A)
| Raise (e : Exn)
| Diverge.
Arguments Ret {A} a.
Arguments Raise {A} e.
Arguments Diverge {A}.

Definition M (A : Type) : Type := World -> Res A * World.

Definition ret {A} (a : A) : M A := fun w => (Ret a, w).

Definition raise {A} (e : Exn) : M A := fun w => (Raise e, w).

Definition diverge {A} : M A := fun w => (Diverge, w).

Definition bind {A B} (m : M A) (k : A -> M B) : M B :=
  fun w =>
    match m w with
    | (Ret a, w') => k a w'
    | (Raise e, w') => (Raise e, w')
    | (Diverge, w') => (Diverge, w')
    end.

(** [try: m  except Exception as e: h e] *)
Definition try_except {A} (m : M A) (h : Exn -> M A) : M A :=
  fun w =>
    match m w with
    | (Raise e, w') => h e w'
    | r => r
    end.

Declare Scope py_scope.
Delimit Scope py_scope with py.
Notation "x <- m ;; k" := (bind m (fun x => k))
  (at level 100, m at next level, right associativity) : py_scope.
Notation "m ;;; k" := (bind m (fun _ => k))
  (at level 100, right associativity) : py_scope.
Local Open Scope py_scope.

Definition of_raises {A} (r : Raises A) : M A :=
  match r with
  | Returns a => ret a
  | Throws e => raise e
  end.

(** *** Primitive effects *)

Definition logging (lv : Level) (tpl : string) (a : list LogArg) : M unit :=
  fun w => (Ret tt,
            mkWorld (calls w) (slept w) (log w ++ [mkLog lv tpl a]) (attempts w)
                    (valid_out w) (invalid_out w) (no_info_out w) (row_var w)).

Definition logging_info := logging INFO.
Definition logging_warning := logging WARNING.
Definition logging_error := logging ERROR.

(** [time.sleep(seconds)] for a whole number of seconds.  CPython
    turns the length into nanoseconds in a signed 64-bit integer and
    raises [OverflowError] where that does not fit; a negative length
    is a [ValueError].  Close to the top of that range the system
    clock may refuse the length as well; this is left out, and the
    properties of sleeping are stated for lengths far below it. *)
Definition time_sleep (seconds : Z) : M unit :=
  fun w =>
    if (9223372036 <? Z.abs seconds)%Z then
      (Raise (mkExn "OverflowError" "timestamp too large to convert to C _PyTime_t"), w)
    else if (seconds <? 0)%Z then
      (Raise (mkExn "ValueError" "sleep length must be non-negative"), w)
    else
      (Ret tt,
       mkWorld (calls w) (slept w ++ [seconds]) (log w) (attempts w)
               (valid_out w) (invalid_out w) (no_info_out w) (row_var w)).

Definition note_attempt (identifier identifier_type : string) : M unit :=
  fun w => (Ret tt,
            mkWorld (calls w) (slept w) (log w)
                    (attempts w ++ [(identifier, identifier_type)])
                    (valid_out w) (invalid_out w) (no_info_out w) (row_var w)).

Definition tick (w : World) : World :=
  mkWorld (S (calls w)) (slept w) (log w) (attempts w)
          (valid_out w) (invalid_out w) (no_info_out w) (row_var w).

Definition valid_writerow (r : Row) : M unit :=
  fun w => (Ret tt,
            mkWorld (calls w) (slept w) (log w) (attempts w)
                    (valid_out w ++ [r]) (invalid_out w) (no_info_out w) (row_var w)).

Definition invalid_writerow (r : Row) : M unit :=
  fun w => (Ret tt,
            mkWorld (calls w) (slept w) (log w) (attempts w)
                    (valid_out w) (invalid_out w ++ [r]) (no_info_out w) (row_var w)).

Definition no_info_writerow (r : Row) : M unit :=
  fun w => (Ret tt,
            mkWorld (calls w) (slept w) (log w) (attempts w)
                    (valid_out w) (invalid_out w) (no_info_out w ++ [r]) (row_var w)).

Definition get_row : M Row := fun w => (Ret (row_var w), w).

Definition set_row (r : Row) : M unit :=
  fun w => (Ret tt,
            mkWorld (calls w) (slept w) (log w) (attempts w)
                    (valid_out w) (invalid_out w) (no_info_out w) r).

(** [row[i]]: an [IndexError] past the end *)
Definition getitem (r : Row) (i : nat) : M string :=
  match r !! i with
  | Some x => ret x
  | None => raise (mkExn "IndexError" "list index out of range")
  end.

(** ** Python values coming out of a JSON document *)

Module PyJson.

Definition TypeError (msg : string) : Exn := mkExn "TypeError" msg.

Fixpoint assoc (k : string) (kv : list (string * json)) : option json :=
  match kv with
  | [] => None
  | (k', v) :: kv' => if String.eqb k k' then Some v else assoc k kv'
  end.

Definition is_str (s : string) (v : json) : bool :=
  match v with JStr s' => String.eqb s s' | _ => false end.

(** [key in v] for a string [key] *)
Definition py_in (key : string) (v : json) : M bool :=
  match v with
  | JObj kv => ret (match assoc key kv with Some _ => true | None => false end)
  | JArr l => ret (existsb (is_str key) l)
  | JStr s => ret (PyStr.contains key s)
  | _ => raise (TypeError "argument is not iterable")
  end.

(** [v[key]] for a string [key] *)
Definition getitem_key (v : json) (key : string) : M json :=
  match v with
  | JObj kv =>
      match assoc key kv with
      | Some x => ret x
      | None => raise (mkExn "KeyError" key)
      end
  | JArr _ => raise (TypeError "list indices must be integers or slices, not str")
  | JStr _ => raise (TypeError "string indices must be integers, not 'str'")
  | _ => raise (TypeError "object is not subscriptable")
  end.

(** [len(v)] *)
Definition py_len (v : json) : M nat :=
  match v with
  | JObj kv => ret (length kv)
  | JArr l => ret (length l)
  | JStr s => ret (String.length s)
  | _ => raise (TypeError "object has no len()")
  end.

(** [v[0]] *)
Definition getitem_0 (v : json) : M json :=
  match v with
  | JArr (x :: _) => ret x
  | JArr [] => raise (mkExn "IndexError" "list index out of range")
  | JStr (String c _) => ret (JStr (String c EmptyString))
  | JStr EmptyString => raise (mkExn "IndexError" "string index out of range")
  | JObj _ => raise (mkExn "KeyError" "0")
  | _ => raise (TypeError "object is not subscriptable")
  end.

(** [v.get(key)]: only a dict has the method; a missing key gives [None] *)
Definition get (v : json) (key : string) : M json :=
  match v with
  | JObj kv => ret (match assoc key kv with Some x => x | None => JNull end)
  | _ => raise (mkExn "AttributeError" "object has no attribute 'get'")
  end.

(** truth value *)
Definition truthy (v : json) : bool :=
  match v with
  | JNull => false
  | JBool b => b
  | JNum z => negb (z =? 0)%Z
  | JStr s => PyStr.truthy s
  | JArr l => match l with [] => false | _ => true end
  | JObj kv => match kv with [] => false | _ => true end
  end.

End PyJson.

(** ** The environment: RDKit, CIRpy and the HTTP client

    [Mol] is the toolkit's molecule handle.  The parsers return
    [None] on a parse failure and may raise; rendering the canonical
    SMILES and listing the atoms are queries of a handle.  The two
    network clients are indexed by the number of requests issued
    before them, so a service may be down now and up later. *)
Record Env := mkEnv {
  Mol : Type;
  Chem_MolFromSmiles : string -> Raises (option Mol);
  Chem_MolFromInchi : string -> Raises (option Mol);
  Chem_MolToSmiles : Mol -> string;
  (** the atomic numbers of [mol.GetAtoms()], in order *)
  atomic_nums : Mol -> list Z;
  (** [requests.get(url, timeout=10)] as the [n]-th request *)
  requests_get : nat -> string -> Raises Response;
  (** [cirpy.resolve(identifier, 'smiles')] as the [n]-th request *)
  cirpy_resolve : nat -> string -> Raises (option string)
}.

Section Pipeline.

Context (E : Env).

Definition http_get (url : string) : M Response :=
  fun w =>
    match requests_get E (calls w) url with
    | Returns r => (Ret r, tick w)
    | Throws e => (Raise e, tick w)
    end.

Definition cirpy_call (identifier : string) : M (option string) :=
  fun w =>
    match cirpy_resolve E (calls w) identifier with
    | Returns r => (Ret r, tick w)
    | Throws e => (Raise e, tick w)
    end.

Definition cactus_url : string :=
  "https://cactus.nci.nih.gov/chemical/structure/Water/smiles".

(** One round of the [while True] of [wait_for_cactus_service]:
    [true] when the round executes [return]. *)
Definition cactus_probe (wait_seconds : Z) : M bool :=
  try_except
    (resp <- http_get cactus_url ;;
     if ok resp then
       (logging_info "CACTUS (Cirpy) is up." [] ;;;
        ret true)
     else
       (logging_warning
          "CACTUS ping returned non-OK status ({resp.status_code}). Waiting {wait_seconds} seconds..."
          [ANum (status_code resp); ANum wait_seconds] ;;;
        ret false))
    (fun e =>
       logging_warning
         "Error checking CACTUS availability: {e}. Will retry in {wait_seconds} seconds."
         [AStr (exn_str e); ANum wait_seconds] ;;;
       ret false).

Fixpoint wait_for_cactus_service (fuel : nat) (wait_seconds : Z) : M unit :=
  match fuel with
  | O => diverge
  | S fuel' =>
      returned <- cactus_probe wait_seconds ;;
      if returned : bool then ret tt
      else (time_sleep wait_seconds ;;;
            wait_for_cactus_service fuel' wait_seconds)
  end.

(** The test of the handler of [resolve_with_cirpy] on [str(e)]. *)
Definition cactus_down_signature (error_str : string) : bool :=
  PyStr.contains "504" error_str
  || PyStr.contains "timeout" (PyStr.lower error_str)
  || PyStr.contains "failed to establish a new connection" (PyStr.lower error_str).

(** One round of the [while True] of [resolve_with_cirpy]: [Some]
    when the round executes [return smiles], [None] when it goes
    round again after the wait. *)
Definition cirpy_round (fuel : nat) (identifier : string) : M (option (option string)) :=
  try_except
    (smiles <- cirpy_call identifier ;;
     ret (Some smiles))
    (fun e =>
       let error_str := exn_str e in
       if cactus_down_signature error_str then
         (logging_error "CIRpy error (possibly CACTUS down) for '{identifier}': {error_str}"
                        [AStr identifier; AStr error_str] ;;;
          logging_info "Waiting for CACTUS to come back up..." [] ;;;
          wait_for_cactus_service fuel 300 ;;;
          ret None)
       else raise e).

Fixpoint resolve_with_cirpy (fuel : nat) (identifier : string) : M (option string) :=
  match fuel with
  | O => diverge
  | S fuel' =>
      r <- cirpy_round fuel' identifier ;;
      match r with
      | Some smiles => ret smiles
      | None => resolve_with_cirpy fuel' identifier
      end
  end.

(** *** [fetch_smiles_from_pubchem] *)

Definition pubchem_url (name : string) : string :=
  String.append "https://pubchem.ncbi.nlm.nih.gov/rest/pug/compound/name/"
    (String.append name "/property/CanonicalSMILES/JSON").

(** The condition of the [if]: a short-circuit [and] of three tests. *)
Definition has_properties (data : json) : M bool :=
  a <- PyJson.py_in "PropertyTable" data ;;
  if a : bool then
    (table <- PyJson.getitem_key data "PropertyTable" ;;
     b <- PyJson.py_in "Properties" table ;;
     if b : bool then
       (table' <- PyJson.getitem_key data "PropertyTable" ;;
        props <- PyJson.getitem_key table' "Properties" ;;
        n <- PyJson.py_len props ;;
        ret (0 <? n)%nat)
     else ret false)
  else ret false.

(** The value returned is the SMILES found, or [JNull] for [None]. *)
Definition fetch_smiles_from_pubchem (name : string) : M json :=
  r <- try_except
         (response <- http_get (pubchem_url name) ;;
          data <- of_raises (json_body response) ;;
          c <- has_properties data ;;
          if c : bool then
            (table <- PyJson.getitem_key data "PropertyTable" ;;
             props <- PyJson.getitem_key table "Properties" ;;
             first <- PyJson.getitem_0 props ;;
             smiles <- PyJson.get first "CanonicalSMILES" ;;
             if PyJson.truthy smiles then
               (logging_info "Successfully fetched SMILES from PubChem for {name}: {smiles}"
                             [AStr name; AJson smiles] ;;;
                ret (Some smiles))
             else
               (logging_warning "No SMILES found for {name} from PubChem." [AStr name] ;;;
                ret None))
          else
            (logging_warning "PubChem returned no valid SMILES for {name}." [AStr name] ;;;
             ret None))
         (fun e =>
            logging_error "Error fetching SMILES from PubChem for {name}: {str(e)}"
                          [AStr name; AStr (exn_str e)] ;;;
            ret None) ;;
  match r with
  | Some smiles => ret smiles
  | None => ret JNull
  end.

(** *** [validate_identifier] *)

Definition MolFromSmiles (s : string) : M (option (Mol E)) :=
  of_raises (Chem_MolFromSmiles E s).

Definition MolFromInchi (s : string) : M (option (Mol E)) :=
  of_raises (Chem_MolFromInchi E s).

(** [Chem.MolFromSmiles] on a decoded JSON value: the binding accepts
    a string only. *)
Definition MolFromSmiles_json (v : json) : M (option (Mol E)) :=
  match v with
  | JStr s => MolFromSmiles s
  | _ => raise (mkExn "ArgumentError" "Python argument types did not match C++ signature")
  end.

Definition Outcome : Type := bool * option (Mol E).

Definition is_some {A} (o : option A) : bool :=
  match o with Some _ => true | None => false end.

(** The [smiles] branch; always executes a [return]. *)
Definition validate_smiles (identifier : string) : M Outcome :=
  if PyStr.startswith identifier "[" then
    (mol <- MolFromSmiles identifier ;;
     (if is_some mol then ret tt
      else logging_error "Invalid SMILES: {identifier}" [AStr identifier]) ;;;
     ret (is_some mol, mol))
  else
    (logging_warning "Skipping invalid SMILES input: {identifier}" [AStr identifier] ;;;
     ret (false, None)).

(** The [inchi] branch; always executes a [return]. *)
Definition validate_inchi (identifier : string) : M Outcome :=
  mol <- MolFromInchi identifier ;;
  (if is_some mol then ret tt
   else logging_error "Invalid InChI: {identifier}" [AStr identifier]) ;;;
  ret (is_some mol, mol).

(** First stage of the [iupac] branch: [Some] when it returns. *)
Definition iupac_cirpy (fuel : nat) (identifier : string) : M (option Outcome) :=
  try_except
    (smiles <- resolve_with_cirpy fuel identifier ;;
     match smiles with
     | Some s =>
         if PyStr.truthy s then
           (mol <- MolFromSmiles s ;;
            if is_some mol then ret (Some (true, mol)) else ret None)
         else ret None
     | None => ret None
     end)
    (fun e =>
       logging_error "Cirpy error for IUPAC: {identifier}. Error: {str(e)}"
                     [AStr identifier; AStr (exn_str e)] ;;;
       ret None).

(** Second stage of the [iupac] branch: [Some] when it returns. *)
Definition iupac_pubchem (identifier : string) : M (option Outcome) :=
  try_except
    (pubchem_smiles <- fetch_smiles_from_pubchem identifier ;;
     if PyJson.truthy pubchem_smiles then
       (mol <- MolFromSmiles_json pubchem_smiles ;;
        if is_some mol then ret (Some (true, mol)) else ret None)
     else ret None)
    (fun e =>
       logging_error "PubChem error for IUPAC: {identifier}. Error: {str(e)}"
                     [AStr identifier; AStr (exn_str e)] ;;;
       ret None).

(** The [iupac] branch; the third stage is commented out in the source. *)
Definition validate_iupac (fuel : nat) (identifier : string) : M (option Outcome) :=
  r1 <- iupac_cirpy fuel identifier ;;
  match r1 with
  | Some out => ret (Some out)
  | None => iupac_pubchem identifier
  end.

(** The body of the outer [try]: [Some] when a branch returns, [None]
    when control falls out of the [if]/[elif] chain. *)
Definition validate_dispatch (fuel : nat) (identifier identifier_type : string)
  : M (option Outcome) :=
  if String.eqb identifier_type "smiles" then
    (out <- validate_smiles identifier ;; ret (Some out))
  else if String.eqb identifier_type "inchi" then
    (out <- validate_inchi identifier ;; ret (Some out))
  else if String.eqb identifier_type "iupac" then
    validate_iupac fuel identifier
  else ret None.

(** The body of [validate_identifier] as it stands in the source. *)
Definition validate_identifier_body (fuel : nat) (identifier identifier_type : string)
  : M Outcome :=
  if String.eqb identifier "null" || negb (PyStr.truthy identifier) then
    ret (false, None)
  else
    (r <- try_except
            (validate_dispatch fuel identifier identifier_type)
            (fun e =>
               logging_error "Unexpected error for {identifier_type}: {identifier}. Error: {str(e)}"
                             [AStr identifier_type; AStr identifier; AStr (exn_str e)] ;;;
               ret None) ;;
     match r with
     | Some out => ret out
     | None => ret (false, None)
     end).

(** A call of [validate_identifier]: the call is entered in the
    history of attempts, then the body runs. *)
Definition validate_identifier (fuel : nat) (identifier identifier_type : string)
  : M Outcome :=
  note_attempt identifier identifier_type ;;;
  validate_identifier_body fuel identifier identifier_type.

(** *** [molecule_has_carbon] *)

Fixpoint any_carbon (nums : list Z) : bool :=
  match nums with
  | [] => false
  | z :: rest => if (z =? 6)%Z then true else any_carbon rest
  end.

Definition molecule_has_carbon (mol : option (Mol E)) : bool :=
  match mol with
  | None => false
  | Some m => any_carbon (atomic_nums E m)
  end.

(** *** [process_results] *)

Definition yes_no (b : bool) : string := if b then "Yes" else "No".

(** [a or b] on molecule handles: a handle is truthy, [None] is falsy. *)
Definition py_or {A} (a b : option A) : option A :=
  match a with
  | Some _ => a
  | None => b
  end.

(** [Chem.MolToSmiles(mol)]: the binding rejects [None]. *)
Definition MolToSmiles (mol : option (Mol E)) : M string :=
  match mol with
  | Some m => ret (Chem_MolToSmiles E m)
  | None => raise (mkExn "ArgumentError" "Python argument types did not match C++ signature")
  end.

(** The loop [while i < 7] over the auxiliary columns; it leaves with
    the value of [useful_info]. *)
Fixpoint useful_info_loop (fuel i : nat) (row : Row) : M bool :=
  match fuel with
  | O => diverge
  | S fuel' =>
      if (i <? 7)%nat then
        (x <- getitem row i ;;
         if negb (String.eqb x "null") then ret true
         else useful_info_loop fuel' (i + 1) row)
      else ret false
  end.

(** Lines 207-216: the three attempts, the later ones only after the
    earlier ones failed. *)
Definition resolve_formats (fuel : nat) (iupac : string)
  : M (Outcome * Outcome * Outcome) :=
  iu <- validate_identifier fuel iupac "iupac" ;;
  if negb (fst iu) then
    (sm <- validate_identifier fuel iupac "smiles" ;;
     if negb (fst sm) then
       (inch <- validate_identifier fuel iupac "inchi" ;;
        ret (iu, sm, inch))
     else ret (iu, sm, (false, None)))
  else ret (iu, (false, None), (false, None)).

Definition resolution_info_of (r : Outcome * Outcome * Outcome) : list string :=
  let '(iu, sm, inch) := r in
  [yes_no (fst iu); yes_no (fst sm); yes_no (fst inch)].

(** Lines 225-245: what is written once the attempts are over. *)
Definition write_resolved (r : Outcome * Outcome * Outcome) : M unit :=
  let '(iu, sm, inch) := r in
  let resolution_info := resolution_info_of r in
  if fst iu || fst sm || fst inch then
    (let mol := py_or (snd iu) (py_or (snd sm) (snd inch)) in
     canonical_smiles <- MolToSmiles mol ;;
     if molecule_has_carbon mol then
       (row <- get_row ;;
        set_row (canonical_smiles :: row) ;;;
        row <- get_row ;;
        valid_writerow (row ++ resolution_info) ;;;
        logging_info "Valid canonical SMILES found: {canonical_smiles}"
                     [AStr canonical_smiles])
     else
       (row <- get_row ;;
        set_row (canonical_smiles :: row) ;;;
        row <- get_row ;;
        invalid_writerow (row ++ resolution_info) ;;;
        logging_info "Invalid canonical SMILES found: {canonical_smiles}"
                     [AStr canonical_smiles]))
  else
    (row <- get_row ;;
     invalid_writerow (row ++ resolution_info)).

(** The body of the [try] of the row loop. *)
Definition classify_row (fuel : nat) : M unit :=
  row <- get_row ;;
  iupac <- getitem row 0 ;;
  if String.eqb iupac "null" || String.eqb iupac "failed" then
    no_info_writerow (take 10 row)
  else
    (useful_info <- useful_info_loop 6 2 row ;;
     if negb useful_info then
       (logging_info "Skipping row due to no useful information: {row}" [ARow row] ;;;
        no_info_writerow (take 10 row))
     else
       (logging_info "Working on row: {row}" [ARow row] ;;;
        r <- resolve_formats fuel iupac ;;
        write_resolved r)).

(** The [except Exception as e] of the row loop. *)
Definition row_handler (e : Exn) : M unit :=
  row <- get_row ;;
  logging_error "Error processing row: {row}. Error: {str(e)}"
                [ARow row; AStr (exn_str e)] ;;;
  invalid_writerow (row ++ ["No"; "No"; "No"]).

(** One iteration of [for row in reader]. *)
Definition process_row (fuel : nat) (row : Row) : M unit :=
  set_row row ;;;
  try_except (classify_row fuel) row_handler.

Fixpoint for_rows (fuel : nat) (rows : list Row) : M unit :=
  match rows with
  | [] => ret tt
  | row :: rest =>
      process_row fuel row ;;;
      for_rows fuel rest
  end.

(** The three files are opened with mode ['w']: they start empty. *)
Definition open_outputs : M unit :=
  fun w => (Ret tt, mkWorld (calls w) (slept w) (log w) (attempts w) [] [] [] (row_var w)).

Definition header_of (first : Row) : Row :=
  let headers := first ++ ["iupac_resolved"; "smiles_resolved"; "inchi_resolved"] in
  "canonical_smiles" :: headers.

(** [input] is the content of the input file as [csv.reader] yields
    it, the header row first; [next(reader)] on an empty file raises
    [StopIteration]. *)
Definition process_results (fuel : nat) (input : list Row) : M unit :=
  open_outputs ;;;
  match input with
  | [] => raise (mkExn "StopIteration" "")
  | first :: rest =>
      let headers := header_of first in
      valid_writerow headers ;;;
      invalid_writerow headers ;;;
      no_info_writerow (take 10 headers) ;;;
      for_rows fuel rest
  end.

End Pipeline.

(** * Vocabulary of the properties *)

(** ** What a computation leaves alone *)

(** [w'] has the same attempt history, output streams and loop
    variable as [w]. *)
Definition same_files (w w' : World) : Prop :=
  attempts w' = attempts w /\
  valid_out w' = valid_out w /\
  invalid_out w' = invalid_out w /\
  no_info_out w' = no_info_out w /\
  row_var w' = row_var w.

Definition Quiet {A} (m : M A) : Prop := forall w, same_files w (snd (m w)).

(** The computation never ends in an exception. *)
Definition NoRaise {A} (m : M A) : Prop := forall w e, fst (m w) <> Raise e.

(** The computation always ends. *)
Definition NoDiverge {A} (m : M A) : Prop := forall w, fst (m w) <> Diverge.

(** Every value the computation returns satisfies [P]. *)
Definition Post {A} (m : M A) (P : A -> Prop) : Prop :=
  forall w a w', m w = (Ret a, w') -> P a.

(** The answer of the liveness endpoint to the [n]-th request counts
    as a success: the request returned and [resp.ok] holds. *)
Definition probe_up (E : Env) (n : nat) : bool :=
  match requests_get E n cactus_url with
  | Returns resp => ok resp
  | Throws _ => false
  end.

(** A length of sleep that [time.sleep] takes wherever the program
    runs: not negative, and under [2 ^ 31] seconds, which is clear of
    the 64 bits of nanoseconds and of what the system clock can add
    to the time since it started. *)
Definition sleepable (seconds : Z) : Prop := (0 <= seconds < 2 ^ 31)%Z.

(** The name service never fails with the signature of a CACTUS
    outage (a 504, a timeout, a refused connection). *)
Definition never_down (E : Env) : Prop :=
  forall n s e,
    cirpy_resolve E n s = Throws e -> cactus_down_signature (exn_str e) = false.

(** A resolver outcome is coherent: the flag says whether there is a
    molecule. *)
Definition coherent {E : Env} (out : Outcome E) : Prop :=
  fst out = is_some (snd out).

(** ** A laboratory environment

    A small mocked toolkit and network on which the properties are
    exercised: a molecule is the list of its atomic numbers; the
    liveness endpoint fails with an exception, then answers 503, then
    is up; the name service knows methane and also accepts the SMILES
    [[CH4]]; PubChem knows nothing. *)
Module Lab.

Definition parse_smiles (s : string) : Raises (option (list Z)) :=
  if String.eqb s "C" then Returns (Some [6%Z])
  else if String.eqb s "[CH4]" then Returns (Some [6%Z])
  else if String.eqb s "[13CH4]" then Returns (Some [6%Z])
  else if String.eqb s "[K+]" then Returns (Some [19%Z])
  else if String.eqb s "[boom" then Throws (mkExn "RuntimeError" "parser crashed")
  else Returns None.

Definition parse_inchi (s : string) : Raises (option (list Z)) :=
  if String.eqb s "[CH4]" then Returns (Some [6%Z])
  else if String.eqb s "[13CH4]" then Returns (Some [6%Z])
  else if String.eqb s "[K+]" then Returns (Some [19%Z])
  else Returns None.

Definition render (m : list Z) : string :=
  match m with
  | [6%Z] => "C"
  | [19%Z] => "[K+]"
  | _ => ""
  end.

Definition http (n : nat) (url : string) : Raises Response :=
  match n with
  | 0 => Throws (mkExn "ConnectionError" "Failed to establish a new connection")
  | 1 => Returns (mkResponse false 503 (Returns JNull))
  | _ => Returns (mkResponse true 200 (Returns (JObj [])))
  end.

Definition cirpy (n : nat) (identifier : string) : Raises (option string) :=
  if String.eqb identifier "methane" then Returns (Some "C")
  else if String.eqb identifier "[CH4]" then Returns (Some "C")
  else Returns None.

Definition env : Env := mkEnv (list Z) parse_smiles parse_inchi render (fun m => m) http cirpy.

End Lab.

(** The result of a stage of the resolver that may fall through. *)
Definition opt_coherent {E : Env} (r : option (Outcome E)) : Prop :=
  forall out, r = Some out -> coherent out.

(** The three outcomes of [resolve_formats] are coherent and at most
    one of them is a success. *)
Definition first_match_only {E : Env} (r : Outcome E * Outcome E * Outcome E) : Prop :=
  let '(iu, sm, inch) := r in
  coherent iu /\ coherent sm /\ coherent inch /\
  (fst iu = true -> sm = (false, None) /\ inch = (false, None)) /\
  (fst sm = true -> inch = (false, None)).

(** ** Buckets and what a row leaves in the streams *)

Inductive Bucket := Valid | Invalid | NoInfo.

Definition bucket_eqb (a b : Bucket) : bool :=
  match a, b with
  | Valid, Valid | Invalid, Invalid | NoInfo, NoInfo => true
  | _, _ => false
  end.

(** The rows that a write of [out] to the stream of [b] adds to the
    stream of [b']. *)
Definition only_row (b b' : Bucket) (out : Row) : list Row :=
  if bucket_eqb b b' then [out] else [].

(** Between [w] and [w'] the row [out] was appended to the stream of
    [b], and nothing else was written to any stream. *)
Definition emitted (b : Bucket) (out : Row) (w w' : World) : Prop :=
  valid_out w' = valid_out w ++ only_row b Valid out /\
  invalid_out w' = invalid_out w ++ only_row b Invalid out /\
  no_info_out w' = no_info_out w ++ only_row b NoInfo out.

(** Between [w] and [w'] nothing was written to any stream. *)
Definition nothing_written (w w' : World) : Prop :=
  valid_out w' = valid_out w /\
  invalid_out w' = invalid_out w /\
  no_info_out w' = no_info_out w.

(** Exactly one of the three flags is ["Yes"], the others are ["No"]. *)
Definition one_hot (flags : list string) : Prop :=
  flags = ["Yes"; "No"; "No"] \/
  flags = ["No"; "Yes"; "No"] \/
  flags = ["No"; "No"; "Yes"].

(** The number of ["Yes"] among the flags. *)
Fixpoint count_yes (flags : list string) : nat :=
  match flags with
  | [] => 0
  | s :: rest => (if String.eqb s "Yes" then 1 else 0) + count_yes rest
  end.

(** The shapes an output row can take for the input row [row]. *)
Inductive row_outcome (row : Row) : Bucket -> Row -> Prop :=
| out_no_info :
    row_outcome row NoInfo (take 10 row)
| out_valid c flags :
    one_hot flags -> row_outcome row Valid (c :: row ++ flags)
| out_carbon_free c flags :
    one_hot flags -> row_outcome row Invalid (c :: row ++ flags)
| out_unresolved :
    row_outcome row Invalid (row ++ ["No"; "No"; "No"]).

(** The value of [useful_info] after the loop over columns 2..6, or
    the exception the loop raised; it does not depend on the world. *)
Definition useful_info (row : Row) : Res bool :=
  fst (useful_info_loop 6 2 row world0).

(** [mol = iupac_mol or smiles_mol or inchi_mol] *)
Definition first_mol {E : Env} (r : Outcome E * Outcome E * Outcome E) : option (Mol E) :=
  let '(iu, sm, inch) := r in
  py_or (snd iu) (py_or (snd sm) (snd inch)).

(** The calls of [validate_identifier] that lead to the outcomes [r]. *)
Definition attempted {E : Env} (identifier : string)
    (r : Outcome E * Outcome E * Outcome E) : list (string * string) :=
  let '(iu, sm, inch) := r in
  (identifier, "iupac") ::
  (if fst iu then []
   else (identifier, "smiles") ::
        (if fst sm then [] else [(identifier, "inchi")])).

(** The world in which the body of the row loop starts for [row]. *)
Definition at_row (row : Row) (w : World) : World := snd (set_row row w).

(** The world in which the attempts on [row] start: the row is bound
    and announced in the log. *)
Definition at_resolution (row : Row) (w : World) : World :=
  snd (logging_info "Working on row: {row}" [ARow row] (at_row row w)).

(** The row passes the two tests in front of the resolution step: its
    first field [identifier] is neither placeholder, and the loop over
    columns 2..6 leaves with [useful_info] set. *)
Definition reaches_resolution (row : Row) (identifier : string) : Prop :=
  row !! 0 = Some identifier /\
  identifier <> "null" /\ identifier <> "failed" /\
  useful_info row = Ret true.

(** The attempts and what is written after them, lines 207-245. *)
Definition resolve_and_write (E : Env) (fuel : nat) (identifier : string) : M unit :=
  bind (resolve_formats E fuel identifier) (write_resolved E).

(** The rows of a classification that went to the stream of [b], in
    order. *)
Definition outs (b : Bucket) (cls : list (Bucket * Row)) : list Row :=
  map snd (List.filter (fun c => bucket_eqb (fst c) b) cls).

(** A file for the exercises: a header of ten columns. *)
Definition lab_header : Row :=
  ["name"; "c1"; "c2"; "c3"; "c4"; "c5"; "c6"; "c7"; "c8"; "source"].

(** A row whose identifier the laboratory resolves as IUPAC name, as
    SMILES and as InChI. *)
Definition lab_row_all_formats : Row :=
  ["[CH4]"; ""; "x"; "null"; "null"; "null"; "null"; ""; ""; "ref1"].

(** A row whose identifier the laboratory resolves as SMILES and as
    InChI but not as IUPAC name, to a molecule with a carbon atom. *)
Definition lab_row_smiles_inchi : Row :=
  ["[13CH4]"; ""; ""; ""; ""; ""; ""; ""; ""; "ref2"].

(** The same with a molecule without carbon. *)
Definition lab_row_potassium : Row :=
  ["[K+]"; ""; "x"; "null"; "null"; "null"; "null"; ""; ""; "ref3"].

(** A row that nothing resolves. *)
Definition lab_row_unknown : Row :=
  ["unobtainium"; ""; "x"; "null"; "null"; "null"; "null"; ""; ""; "ref4"].

(** A row with a placeholder in front and data behind it. *)
Definition lab_row_null : Row :=
  ["null"; "null"; "x"; "y"; "null"; "null"; "null"; ""; ""; "ref5"; "extra"].

(** * More vocabulary: the resolver and the driver at large *)

(** The world after the handler of [resolve_with_cirpy] has reported
    an outage of CACTUS for [identifier]: the request is counted and the
    two records are in the log. *)
Definition outage_reported (identifier : string) (e : Exn) (w : World) : World :=
  snd (bind (logging_error "CIRpy error (possibly CACTUS down) for '{identifier}': {error_str}"
                           [AStr identifier; AStr (exn_str e)])
            (fun _ => logging_info "Waiting for CACTUS to come back up..." [])
            (tick w)).

(** The answers of the services do not depend on when they are asked. *)
Definition stationary (E : Env) : Prop :=
  (forall n m url, requests_get E n url = requests_get E m url) /\
  (forall n m s, cirpy_resolve E n s = cirpy_resolve E m s).

(** Two worlds hold the same three streams. *)
Definition same_streams (w1 w2 : World) : Prop :=
  valid_out w1 = valid_out w2 /\
  invalid_out w1 = invalid_out w2 /\
  no_info_out w1 = no_info_out w2.

(** Two worlds hold the same three streams and the same row. *)
Definition same_visible (w1 w2 : World) : Prop :=
  same_streams w1 w2 /\ row_var w1 = row_var w2.

(** The outcome of the computation and what it leaves in the streams
    and in the row do not depend on the log, the history of attempts,
    the sleeps and the number of requests so far. *)
Definition Blind {A} (m : M A) : Prop :=
  forall w1 w2,
    same_visible w1 w2 ->
    fst (m w1) = fst (m w2) /\ same_visible (snd (m w1)) (snd (m w2)).

(** The computation issues no request and does not sleep. *)
Definition Offline {A} (m : M A) : Prop :=
  forall w, calls (snd (m w)) = calls w /\ slept (snd (m w)) = slept w.

(** ** A test bench

    A second mocked environment, with services that answer the same
    way at any time.  The name service knows methane, fails on
    ["broken"] with an error of its own and on ["stuck"] with an error
    whose text holds the digits 504.  PubChem knows aspirin, and
    answers for ["oddity"] with a number where the SMILES should be. *)
Module Bench.

Definition aspirin : string := "CC(=O)OC1=CC=CC=C1C(=O)O".

Definition parse_smiles (s : string) : Raises (option (list Z)) :=
  if String.eqb s "C" then Returns (Some [6%Z])
  else if String.eqb s aspirin then Returns (Some [6%Z; 6%Z; 8%Z])
  else if String.eqb s "[C]" then Returns (Some [6%Z])
  else Returns None.

Definition parse_inchi (s : string) : Raises (option (list Z)) :=
  if String.eqb s "InChI=1S/CH4/h1H4" then Returns (Some [6%Z])
  else if String.eqb s "InChI=boom" then Throws (mkExn "RuntimeError" "parser crashed")
  else Returns None.

Definition render (m : list Z) : string :=
  match m with
  | [6%Z] => "C"
  | _ => aspirin
  end.

Definition document (url : string) : json :=
  if String.eqb url (pubchem_url "aspirin") then
    JObj [("PropertyTable",
           JObj [("Properties",
                  JArr [JObj [("CID", JNum 2244); ("CanonicalSMILES", JStr aspirin)]])])]
  else if String.eqb url (pubchem_url "broken") then
    JObj [("PropertyTable",
           JObj [("Properties",
                  JArr [JObj [("CID", JNum 297); ("CanonicalSMILES", JStr "C")]])])]
  else if String.eqb url (pubchem_url "oddity") then
    JObj [("PropertyTable",
           JObj [("Properties", JArr [JObj [("CanonicalSMILES", JNum 5)]])])]
  else JObj [("Fault", JObj [("Code", JStr "PUGREST.NotFound")])].

Definition http (n : nat) (url : string) : Raises Response :=
  Returns (mkResponse true 200 (Returns (document url))).

Definition cirpy (n : nat) (identifier : string) : Raises (option string) :=
  if String.eqb identifier "methane" then Returns (Some "C")
  else if String.eqb identifier "broken" then
    Throws (mkExn "ValueError" "cannot interpret the name")
  else if String.eqb identifier "stuck" then
    Throws (mkExn "HTTPError" "request 15042 was rejected")
  else Returns None.

Definition env : Env := mkEnv (list Z) parse_smiles parse_inchi render (fun m => m) http cirpy.

End Bench.

(** ** A storm

    A third mocked environment: the first request to the name service
    fails with a gateway timeout, the liveness endpoint is down for two
    probes, and from then on everything answers. *)
Module Storm.

Definition http (n : nat) (url : string) : Raises Response :=
  match n with
  | 1 => Throws (mkExn "ConnectionError" "Failed to establish a new connection")
  | 2 => Returns (mkResponse false 503 (Returns JNull))
  | _ => Returns (mkResponse true 200 (Returns (JObj [])))
  end.

Definition cirpy (n : nat) (identifier : string) : Raises (option string) :=
  match n with
  | 0 => Throws (mkExn "HTTPError" "HTTP Error 504: Gateway Timeout")
  | _ => Returns (Some "C")
  end.

Definition env : Env :=
  mkEnv (list Z) Bench.parse_smiles Bench.parse_inchi Bench.render (fun m => m) http cirpy.

End Storm.

(** The world after [fetch_smiles_from_pubchem] has logged one record:
    the request is counted and the record is in the log. *)
Definition pubchem_logged (lv : Level) (tpl : string) (a : list LogArg) (w : World) : World :=
  snd (logging lv tpl a (tick w)).

(** What [fetch_smiles_from_pubchem] hands back: [None] or a truthy
    value. *)
Definition none_or_truthy (v : json) : Prop :=
  v = JNull \/ PyJson.truthy v = true.

(** The document holds no usable list of property records: the key
    [PropertyTable] is missing, or its table has no [Properties], or
    the list is empty. *)
Definition no_property_list (doc : list (string * json)) : Prop :=
  PyJson.assoc "PropertyTable" doc = None \/
  exists table,
    PyJson.assoc "PropertyTable" doc = Some (JObj table) /\
    (PyJson.assoc "Properties" table = None \/
     PyJson.assoc "Properties" table = Some (JArr [])).

(** The first record of the document holds no SMILES: the key
    [CanonicalSMILES] is missing or its value is falsy. *)
Definition no_smiles_in_first_record (doc : list (string * json)) : Prop :=
  exists table rec more,
    PyJson.assoc "PropertyTable" doc = Some (JObj table) /\
    PyJson.assoc "Properties" table = Some (JArr (JObj rec :: more)) /\
    (PyJson.assoc "CanonicalSMILES" rec = None \/
     exists v, PyJson.assoc "CanonicalSMILES" rec = Some v /\ PyJson.truthy v = false).

(** The lookup for [name] at [w] fails with [e]: the request raises
    it, or decoding the body raises it, or the body is [null], a
    boolean or a number, on which the test [in] raises a [TypeError]. *)
Definition lookup_fault (E : Env) (name : string) (w : World) (e : Exn) : Prop :=
  requests_get E (calls w) (pubchem_url name) = Throws e \/
  exists resp,
    requests_get E (calls w) (pubchem_url name) = Returns resp /\
    (json_body resp = Throws e \/
     (e = PyJson.TypeError "argument is not iterable" /\
      (json_body resp = Returns JNull \/
       (exists b, json_body resp = Returns (JBool b)) \/
       (exists z, json_body resp = Returns (JNum z))))).

(** The world with one more record in the log. *)
Definition logged (lv : Level) (tpl : string) (a : list LogArg) (w : World) : World :=
  snd (logging lv tpl a w).

(** The world in which the body of [validate_identifier] starts. *)
Definition noted (identifier identifier_type : string) (w : World) : World :=
  snd (note_attempt identifier identifier_type w).

(** * The table animation, [validated_results_1/anigen.py] *)

(** ** Python slices of strings *)

Module PySlice.

(** The first [n] characters, or all of them when there are fewer. *)
Fixpoint take_chars (n : nat) (s : string) : string :=
  match n, s with
  | S n', String c s' => String c (take_chars n' s')
  | _, _ => EmptyString
  end.

(** [s[:k]] for an integer [k]: a negative [k] counts from the end of
    the string, and a stop before the start gives the empty string. *)
Definition slice_to (s : string) (k : Z) : string :=
  if (k <? 0)%Z then take_chars (Z.to_nat (Z.of_nat (String.length s) + k)) s
  else take_chars (Z.to_nat k) s.

End PySlice.

Module Anigen.

(** [truncate_text(text, max_chars)] *)
Definition truncate_text (text : string) (max_chars : Z) : string :=
  if (Z.of_nat (String.length text) <=? max_chars)%Z then text
  else String.append (PySlice.slice_to text (max_chars - 3)) "...".

End Anigen.

(** * The sampler, [sample_results.py] *)

Module Sampler.

(** ** [select_and_process_csv] *)

(** [s.endswith(suffix)] *)
Definition endswith (s suffix : string) : bool :=
  let n := String.length s in
  let m := String.length suffix in
  if (m <=? n)%nat then String.eqb (String.substring (n - m) m s) suffix else false.

(** The index of the last dot of a name, [p.rfind('.')]. *)
Fixpoint last_dot (p : string) : option nat :=
  match p with
  | EmptyString => None
  | String c p' =>
      match last_dot p' with
      | Some i => Some (S i)
      | None => if Ascii.eqb c "."%char then Some 0 else None
      end
  end.

Fixpoint only_dots (p : string) : bool :=
  match p with
  | EmptyString => true
  | String c p' => Ascii.eqb c "."%char && only_dots p'
  end.

(** [os.path.splitext(p)[0]] for a name without a directory separator:
    the name up to its last dot, unless only dots stand before it. *)
Definition splitext_root (p : string) : string :=
  match last_dot p with
  | Some d => if only_dots (PySlice.take_chars d p) then p else PySlice.take_chars d p
  | None => p
  end.

(** What the function does to the outside: it prints, it asks, and it
    hands a file to [process_csv]. *)
Inductive Event :=
| Print (template : string) (args : list LogArg)
| Prompt (text : string)
| ProcessCsv (file : string).

(** [csv_files = [f for f in os.listdir() if f.endswith('.csv')]] *)
Definition csv_files_of (listing : list string) : list string :=
  List.filter (fun f => endswith f ".csv") listing.

(** The loop over [enumerate(csv_files)], from index [i] on. *)
Fixpoint print_numbered (i : nat) (files : list string) : list Event :=
  match files with
  | [] => []
  | csv_file :: rest =>
      Print "{i + 1}. {csv_file}" [ANum (Z.of_nat i + 1); AStr csv_file]
      :: print_numbered (S i) rest
  end.

(** [listing] is what [os.listdir()] returns, [typed] is the outcome
    of [int(input(...))], and [process_csv] says whether processing a
    file returns or raises.  The result is what happened on the way
    and how the call ended. *)
Definition select_and_process_csv
    (listing : list string) (typed : Raises Z) (process_csv : string -> Raises unit)
  : list Event * Raises unit :=
  let csv_files := csv_files_of listing in
  match csv_files with
  | [] => ([Print "No CSV files found in the current directory." []], Returns tt)
  | _ :: _ =>
      let shown :=
        Print "Available CSV files:" [] :: print_numbered 0 csv_files
        ++ [Prompt "Select the CSV file number to process: "] in
      match typed with
      | Throws e => (shown, Throws e)
      | Returns number =>
          let choice := (number - 1)%Z in
          if (0 <=? choice)%Z && (choice <? Z.of_nat (length csv_files))%Z then
            match csv_files !! Z.to_nat choice with
            | None => (shown, Throws (mkExn "IndexError" "list index out of range"))
            | Some selected_csv =>
                let started :=
                  shown ++ [Print "Processing {selected_csv}..." [AStr selected_csv];
                            ProcessCsv selected_csv] in
                match process_csv selected_csv with
                | Throws e => (started, Throws e)
                | Returns _ =>
                    (started ++
                     [Print "Processing complete. Output stored in folder: {os.path.splitext(selected_csv)[0]}"
                            [AStr (splitext_root selected_csv)]],
                     Returns tt)
                end
            end
          else (shown ++ [Print "Invalid selection." []], Returns tt)
      end
  end.

(** The files handed to [process_csv], in order. *)
Fixpoint processed (events : list Event) : list string :=
  match events with
  | [] => []
  | ProcessCsv f :: rest => f :: processed rest
  | _ :: rest => processed rest
  end.

(** The number of times the user was asked. *)
Fixpoint prompts (events : list Event) : nat :=
  match events with
  | [] => 0
  | Prompt _ :: rest => S (prompts rest)
  | _ :: rest => prompts rest
  end.

(** ** [process_csv] *)

(** A cell of a data frame read with [dtype=str]: a string, or [NaN]
    where the line was too short. *)
Definition cell : Type := option string.

(** A data frame as the list of its rows. *)
Definition Frame : Type := list (list cell).

Definition notnull (c : cell) : bool :=
  match c with Some _ => true | None => false end.

(** [fillna('')] on one cell *)
Definition fillna (c : cell) : string :=
  match c with Some s => s | None => "" end.

(** What the loop does with a row. *)
Inductive Kind :=
| Skipped
| NullRow (paper_reference : string)
| FailedRow (paper_reference : string)
| ValidRow (valid_row : list cell).

(** The body of [for index, row in df.iterrows()]. *)
Definition classify (paper_col_index : nat) (row : list cell) : Raises Kind :=
  let actual_columns := length (List.filter notnull row) in
  if (paper_col_index + 1 <? actual_columns)%nat then Returns Skipped
  else
    let data_columns := map fillna (take paper_col_index row) in
    match row !! paper_col_index with
    | None => Throws (mkExn "IndexError" "single positional indexer is out-of-bounds")
    | Some None => Returns Skipped
    | Some (Some paper_reference) =>
        if String.eqb paper_reference "" then Returns Skipped
        else if forallb (fun s => String.eqb s "null") data_columns then
          Returns (NullRow paper_reference)
        else if existsb (fun s => String.eqb s "failed") data_columns then
          Returns (FailedRow paper_reference)
        else Returns (ValidRow (take (paper_col_index + 1) row))
    end.

(** The three lists the loop fills. *)
Record Buckets := mkBuckets {
  valid_rows : Frame;
  null_rows : Frame;
  failed_rows : Frame
}.

Definition file_row (k : Kind) (b : Buckets) : Buckets :=
  match k with
  | Skipped => b
  | NullRow paper_reference =>
      mkBuckets (valid_rows b) (null_rows b ++ [[Some paper_reference]]) (failed_rows b)
  | FailedRow paper_reference =>
      mkBuckets (valid_rows b) (null_rows b) (failed_rows b ++ [[Some paper_reference]])
  | ValidRow valid_row =>
      mkBuckets (valid_rows b ++ [valid_row]) (null_rows b) (failed_rows b)
  end.

Fixpoint iterrows (paper_col_index : nat) (rows : Frame) (b : Buckets) : Raises Buckets :=
  match rows with
  | [] => Returns b
  | row :: rest =>
      match classify paper_col_index row with
      | Throws e => Throws e
      | Returns k => iterrows paper_col_index rest (file_row k b)
      end
  end.

(** A row of [valid_df] whose data columns are all empty strings. *)
Definition all_data_empty (paper_col_index : nat) (row : list cell) : bool :=
  forallb (fun c => String.eqb (fillna c) "") (take paper_col_index row).

(** [','.join(cells)]: a [NaN] among the cells is a [TypeError]. *)
Fixpoint strings_of (cells : list cell) : Raises (list string) :=
  match cells with
  | [] => Returns []
  | None :: _ =>
      Throws (mkExn "TypeError" "sequence item: expected str instance, float found")
  | Some s :: rest =>
      match strings_of rest with
      | Returns l => Returns (s :: l)
      | Throws e => Throws e
      end
  end.

(** What ends up in the output folder: the header line and the rows of
    [valid.csv], and the rows of [null.csv] and [failed.csv] when these
    files are written at all. *)
Record Output := mkOutput {
  valid_csv_header : string;
  valid_csv_rows : Frame;
  null_csv : option Frame;
  failed_csv : option Frame
}.

Section Pandas.

(** [df.sample(frac=1, random_state=42).reset_index(drop=True)] *)
Variable shuffle : Frame -> Frame.

(** [df.sample(n=n, random_state=42)] *)
Variable sample : nat -> Frame -> Frame.

(** [df.sample(n=min(100, len(df)), random_state=42)], skipped for an
    empty frame. *)
Definition at_most_100 (df : Frame) : Frame :=
  match df with
  | [] => []
  | _ :: _ => sample (Nat.min 100 (length df)) df
  end.

Definition written_if_any (df : Frame) : option Frame :=
  match df with
  | [] => None
  | _ :: _ => Some df
  end.

(** [df] is the frame that [pd.read_csv] built from the file, its
    first line included as row 0. *)
Definition process_csv (df : Frame) : Raises Output :=
  match df with
  | [] => Throws (mkExn "IndexError" "single positional indexer is out-of-bounds")
  | original_headers :: _ =>
      match length original_headers with
      | O => Throws (mkExn "IndexError" "index -1 is out of bounds for axis 0 with size 0")
      | S paper_col_index =>
          match iterrows paper_col_index (shuffle df) (mkBuckets [] [] []) with
          | Throws e => Throws e
          | Returns b =>
              let valid_df :=
                List.filter (fun row => negb (all_data_empty paper_col_index row))
                            (valid_rows b) in
              let valid_df := at_most_100 valid_df in
              let null_df := at_most_100 (null_rows b) in
              let failed_df := at_most_100 (failed_rows b) in
              match strings_of original_headers with
              | Throws e => Throws e
              | Returns names =>
                  Returns (mkOutput (String.concat "," names) valid_df
                                    (written_if_any null_df) (written_if_any failed_df))
              end
          end
      end
  end.

End Pandas.

End Sampler.

(** ** Vocabulary for the sampler *)

(** The rows of [rows] that the loop files as valid, as null and as
    failed, in order. *)
Definition valid_of (p : nat) (rows : Sampler.Frame) : Sampler.Frame :=
  flat_map (fun row => match Sampler.classify p row with
                       | Returns (Sampler.ValidRow r) => [r]
                       | _ => []
                       end) rows.

Definition null_of (p : nat) (rows : Sampler.Frame) : Sampler.Frame :=
  flat_map (fun row => match Sampler.classify p row with
                       | Returns (Sampler.NullRow ref) => [[Some ref]]
                       | _ => []
                       end) rows.

Definition failed_of (p : nat) (rows : Sampler.Frame) : Sampler.Frame :=
  flat_map (fun row => match Sampler.classify p row with
                       | Returns (Sampler.FailedRow ref) => [[Some ref]]
                       | _ => []
                       end) rows.

(** The row is kept for [valid.csv]: the loop files it as valid and
    its data columns are not all empty. *)
Definition kept_as_valid (p : nat) (row : list Sampler.cell) : Prop :=
  Sampler.classify p row = Returns (Sampler.ValidRow row) /\
  Sampler.all_data_empty p row = false.

(** The candidates for [valid.csv] among the rows of a frame. *)
Definition candidates (p : nat) (rows : Sampler.Frame) : Sampler.Frame :=
  List.filter (fun row => negb (Sampler.all_data_empty p row)) (valid_of p rows).

(** Every row of the frame has as many cells as the first one. *)
Definition rectangular (df : Sampler.Frame) : Prop :=
  match df with
  | [] => True
  | first :: _ => Forall (fun row => length row = length first) df
  end.

(** The files that [select_and_process_csv] offers, as a count. *)
Definition offered (listing : list string) : Z :=
  Z.of_nat (length (Sampler.csv_files_of listing)).

(** ** Fixtures *)

(** A row of the bench whose name the name service resolves. *)
Definition bench_row_methane : Row :=
  ["methane"; ""; "x"; "null"; "null"; "null"; "null"; ""; ""; "ref1"].

(** A small input file for the bench. *)
Definition bench_file : list Row :=
  [lab_header; bench_row_methane;
   ["aspirin"; ""; "null"; "y"; "null"; "null"; "null"; ""; ""; "ref2"];
   ["null"; ""; "x"; "null"; "null"; "null"; "null"; ""; ""; "ref3"];
   ["oddity"; ""; "x"]].

(** A frame of three columns: the header line, a valid row, a null
    row, a failed row, and a line that was too short. *)
Definition shelf_header : list Sampler.cell :=
  [Some "name"; Some "smiles"; Some "paper"].

Definition shelf_rows : Sampler.Frame :=
  [[Some "water"; Some "O"; Some "ref1"];
   [Some "null"; Some "null"; Some "ref2"];
   [Some "benzene"; Some "failed"; Some "ref3"];
   [Some "short"; None; None]].
(** * Reasoning about computations *)

Lemma same_files_refl w : same_files w w.
Proof. repeat split. Qed.

Lemma same_files_trans w1 w2 w3 :
  same_files w1 w2 -> same_files w2 w3 -> same_files w1 w3.
Proof.
  unfold same_files. intros (a1 & a2 & a3 & a4 & a5) (b1 & b2 & b3 & b4 & b5).
  repeat split; congruence.
Qed.

Section Combinators.

Context {A B : Type}.

Lemma quiet_ret (a : A) : Quiet (ret a).
Proof. intros w. apply same_files_refl. Qed.

Lemma quiet_raise (e : Exn) : Quiet (@raise A e).
Proof. intros w. apply same_files_refl. Qed.

Lemma quiet_diverge : Quiet (@diverge A).
Proof. intros w. apply same_files_refl. Qed.

Lemma quiet_bind (m : M A) (k : A -> M B) :
  Quiet m -> (forall a, Quiet (k a)) -> Quiet (bind m k).
Proof.
  intros Hm Hk w. unfold bind. specialize (Hm w).
  destruct (m w) as [[a | e |] w1]; simpl in *; trivial.
  eapply same_files_trans; [exact Hm | apply Hk].
Qed.

Lemma quiet_try (m : M A) (h : Exn -> M A) :
  Quiet m -> (forall e, Quiet (h e)) -> Quiet (try_except m h).
Proof.
  intros Hm Hh w. unfold try_except. specialize (Hm w).
  destruct (m w) as [[a | e |] w1]; simpl in *; trivial.
  eapply same_files_trans; [exact Hm | apply Hh].
Qed.

Lemma quiet_of_raises (r : Raises A) : Quiet (of_raises r).
Proof. destruct r; intros w; apply same_files_refl. Qed.

Lemma noraise_ret (a : A) : NoRaise (ret a).
Proof. intros w e. discriminate. Qed.

Lemma noraise_diverge : NoRaise (@diverge A).
Proof. intros w e. discriminate. Qed.

Lemma noraise_bind (m : M A) (k : A -> M B) :
  NoRaise m -> (forall a, NoRaise (k a)) -> NoRaise (bind m k).
Proof.
  intros Hm Hk w e. unfold bind. specialize (Hm w).
  destruct (m w) as [[a | e' |] w1]; simpl in *.
  - apply Hk.
  - destruct (Hm e' eq_refl).
  - discriminate.
Qed.

(** A handler that cannot raise makes the whole [try] unable to raise. *)
Lemma noraise_try (m : M A) (h : Exn -> M A) :
  (forall e, NoRaise (h e)) -> NoRaise (try_except m h).
Proof.
  intros Hh w e. unfold try_except.
  destruct (m w) as [[a | e' |] w1]; simpl; try discriminate.
  apply Hh.
Qed.

Lemma nodiverge_ret (a : A) : NoDiverge (ret a).
Proof. intros w. discriminate. Qed.

Lemma nodiverge_raise (e : Exn) : NoDiverge (@raise A e).
Proof. intros w. discriminate. Qed.

Lemma nodiverge_of_raises (r : Raises A) : NoDiverge (of_raises r).
Proof. destruct r; intros w; discriminate. Qed.

Lemma nodiverge_bind (m : M A) (k : A -> M B) :
  NoDiverge m -> (forall a, NoDiverge (k a)) -> NoDiverge (bind m k).
Proof.
  intros Hm Hk w. unfold bind. specialize (Hm w).
  destruct (m w) as [[a | e' |] w1]; simpl in *.
  - apply Hk.
  - discriminate.
  - destruct (Hm eq_refl).
Qed.

Lemma nodiverge_try (m : M A) (h : Exn -> M A) :
  NoDiverge m -> (forall e, NoDiverge (h e)) -> NoDiverge (try_except m h).
Proof.
  intros Hm Hh w. unfold try_except. specialize (Hm w).
  destruct (m w) as [[a | e' |] w1]; simpl in *; trivial.
  apply Hh.
Qed.

Lemma post_ret (a : A) (P : A -> Prop) : P a -> Post (ret a) P.
Proof. intros H w a' w' Heq. inversion Heq. subst. exact H. Qed.

Lemma post_raise (e : Exn) (P : A -> Prop) : Post (raise e) P.
Proof. intros w a' w' Heq. discriminate. Qed.

Lemma post_diverge (P : A -> Prop) : Post diverge P.
Proof. intros w a' w' Heq. discriminate. Qed.

Lemma post_bind (m : M A) (k : A -> M B) (P : B -> Prop) :
  (forall a, Post (k a) P) -> Post (bind m k) P.
Proof.
  intros Hk w b w'. unfold bind.
  destruct (m w) as [[a | e' |] w1]; try discriminate.
  apply Hk.
Qed.

Lemma post_bind_strong (m : M A) (k : A -> M B) (Q : A -> Prop) (P : B -> Prop) :
  Post m Q -> (forall a, Q a -> Post (k a) P) -> Post (bind m k) P.
Proof.
  intros Hm Hk w b w'. unfold bind.
  destruct (m w) as [[a | e' |] w1] eqn:Heq; try discriminate.
  apply Hk. eapply Hm. exact Heq.
Qed.

Lemma post_try (m : M A) (h : Exn -> M A) (P : A -> Prop) :
  Post m P -> (forall e, Post (h e) P) -> Post (try_except m h) P.
Proof.
  intros Hm Hh w a w'. unfold try_except.
  destruct (m w) as [[a' | e' |] w1] eqn:Heq; try discriminate.
  - intros H. inversion H. subst. eapply Hm. exact Heq.
  - apply Hh.
Qed.

End Combinators.

Lemma quiet_logging lv tpl a : Quiet (logging lv tpl a).
Proof. intros w. repeat split. Qed.

Lemma quiet_time_sleep s : Quiet (time_sleep s).
Proof.
  intros w. unfold time_sleep.
  destruct (9223372036 <? Z.abs s)%Z; [repeat split |].
  destruct (s <? 0)%Z; repeat split.
Qed.

(** A sleep of a length that [time.sleep] takes. *)
Lemma time_sleep_sleepable s w :
  sleepable s ->
  time_sleep s w =
  (Ret tt,
   mkWorld (calls w) (slept w ++ [s]) (log w) (attempts w)
           (valid_out w) (invalid_out w) (no_info_out w) (row_var w)).
Proof.
  unfold sleepable, time_sleep. intros Hs.
  replace (9223372036 <? Z.abs s)%Z with false by (symmetry; apply Z.ltb_ge; lia).
  replace (s <? 0)%Z with false by (symmetry; apply Z.ltb_ge; lia).
  reflexivity.
Qed.


Lemma noraise_logging lv tpl a : NoRaise (logging lv tpl a).
Proof. intros w e. discriminate. Qed.

Lemma noraise_time_sleep s : sleepable s -> NoRaise (time_sleep s).
Proof. intros Hs w e. rewrite (time_sleep_sleepable s w Hs). discriminate. Qed.

Lemma nodiverge_logging lv tpl a : NoDiverge (logging lv tpl a).
Proof. intros w. discriminate. Qed.

Lemma nodiverge_time_sleep s : NoDiverge (time_sleep s).
Proof.
  intros w. unfold time_sleep.
  destruct (9223372036 <? Z.abs s)%Z; [discriminate |].
  destruct (s <? 0)%Z; discriminate.
Qed.

Create HintDb quiet.
Create HintDb noraise.
Create HintDb nodiverge.

#[export] Hint Resolve quiet_ret quiet_raise quiet_diverge quiet_of_raises
  quiet_logging quiet_time_sleep : quiet.
#[export] Hint Resolve noraise_ret noraise_diverge noraise_logging : noraise.
#[export] Hint Resolve nodiverge_ret nodiverge_raise nodiverge_of_raises
  nodiverge_logging nodiverge_time_sleep : nodiverge.

(** Walk down a computation built from [bind], [try_except], [if] and
    [match], leaving the calls to named functions to [solver]. *)
Ltac walk solver bind_lemma try_lemma :=
  repeat first
    [ solve [ solver ]
    | progress (unfold logging_info, logging_warning, logging_error)
    | apply bind_lemma; [| intros ?]
    | apply try_lemma; [| intros ?]
    | match goal with
      | |- _ (if ?b then _ else _) => destruct b
      | |- _ (match ?x with _ => _ end) => destruct x
      end ].

Ltac quiet := walk ltac:(eauto with quiet) @quiet_bind @quiet_try.
Ltac nodiverge := walk ltac:(eauto with nodiverge) @nodiverge_bind @nodiverge_try.

(** * The availability monitor *)

Section Monitor.

Context (E : Env).

Lemma quiet_http_get url : Quiet (http_get E url).
Proof.
  intros w. unfold http_get.
  destruct (requests_get E (calls w) url); repeat split.
Qed.

Lemma quiet_cirpy_call s : Quiet (cirpy_call E s).
Proof.
  intros w. unfold cirpy_call.
  destruct (cirpy_resolve E (calls w) s); repeat split.
Qed.

Lemma nodiverge_http_get url : NoDiverge (http_get E url).
Proof.
  intros w. unfold http_get.
  destruct (requests_get E (calls w) url); discriminate.
Qed.

Lemma nodiverge_cirpy_call s : NoDiverge (cirpy_call E s).
Proof.
  intros w. unfold cirpy_call.
  destruct (cirpy_resolve E (calls w) s); discriminate.
Qed.

Hint Resolve quiet_http_get quiet_cirpy_call : quiet.
Hint Resolve nodiverge_http_get nodiverge_cirpy_call : nodiverge.

Lemma quiet_cactus_probe ws : Quiet (cactus_probe E ws).
Proof. unfold cactus_probe. quiet. Qed.

Lemma noraise_cactus_probe ws : NoRaise (cactus_probe E ws).
Proof.
  unfold cactus_probe. apply noraise_try. intros e.
  apply noraise_bind; [apply noraise_logging | intros; apply noraise_ret].
Qed.

Lemma nodiverge_cactus_probe ws : NoDiverge (cactus_probe E ws).
Proof. unfold cactus_probe. nodiverge. Qed.

Lemma quiet_wait_for_cactus_service fuel ws :
  Quiet (wait_for_cactus_service E fuel ws).
Proof.
  induction fuel as [| fuel IH]; simpl; [apply quiet_diverge |].
  apply quiet_bind; [apply quiet_cactus_probe |].
  intros [|]; [apply quiet_ret |].
  apply quiet_bind; [apply quiet_time_sleep | intros; exact IH].
Qed.

Lemma noraise_wait_for_cactus_service fuel ws :
  sleepable ws -> NoRaise (wait_for_cactus_service E fuel ws).
Proof.
  intros Hws.
  induction fuel as [| fuel IH]; simpl; [apply noraise_diverge |].
  apply noraise_bind; [apply noraise_cactus_probe |].
  intros [|]; [apply noraise_ret |].
  apply noraise_bind; [apply noraise_time_sleep; exact Hws | intros; exact IH].
Qed.

(** The length of the sleep of the resolver. *)
Lemma sleepable_300 : sleepable 300.
Proof. unfold sleepable. lia. Qed.

(** A round on a responsive service: one request, no sleep, [return]. *)
Lemma cactus_probe_up ws w :
  probe_up E (calls w) = true ->
  exists w', cactus_probe E ws w = (Ret true, w') /\
             calls w' = S (calls w) /\ slept w' = slept w.
Proof.
  unfold probe_up, cactus_probe, try_except, bind, http_get. intros H.
  destruct (requests_get E (calls w) cactus_url) as [resp | e]; [| discriminate].
  rewrite H. simpl. eexists; repeat split.
Qed.

(** A round on a failing service: one request, a warning, no [return]. *)
Lemma cactus_probe_down ws w :
  probe_up E (calls w) = false ->
  exists w', cactus_probe E ws w = (Ret false, w') /\
             calls w' = S (calls w) /\ slept w' = slept w.
Proof.
  unfold probe_up, cactus_probe, try_except, bind, http_get. intros H.
  destruct (requests_get E (calls w) cactus_url) as [resp | e].
  - rewrite H. simpl. eexists; repeat split.
  - simpl. eexists; repeat split.
Qed.

(** A sleep of a length that [time.sleep] takes returns, and is on
    the record. *)
Lemma time_sleep_spec s w :
  sleepable s ->
  exists w', time_sleep s w = (Ret tt, w') /\
             calls w' = calls w /\ slept w' = slept w ++ [s].
Proof.
  intros Hs. rewrite (time_sleep_sleepable s w Hs).
  eexists. repeat split.
Qed.

(** [k] failing probes followed by a success: the call returns after
    [k + 1] requests and exactly [k] sleeps of [ws] seconds. *)
Lemma wait_returns_after k : forall fuel ws w,
  sleepable ws ->
  (forall i, i < k -> probe_up E (calls w + i) = false) ->
  probe_up E (calls w + k) = true ->
  k < fuel ->
  exists w', wait_for_cactus_service E fuel ws w = (Ret tt, w') /\
             calls w' = calls w + S k /\
             slept w' = slept w ++ replicate k ws.
Proof.
  induction k as [| k IH]; intros fuel ws w Hws Hdown Hup Hfuel;
    (destruct fuel as [| fuel]; [lia |]);
    cbn [wait_for_cactus_service]; unfold bind at 1.
  - rewrite Nat.add_0_r in Hup.
    destruct (cactus_probe_up ws w Hup) as (w1 & -> & Hc & Hs).
    exists w1. simpl. rewrite app_nil_r. repeat split; [lia | exact Hs].
  - assert (H0 : probe_up E (calls w) = false).
    { rewrite <- (Nat.add_0_r (calls w)). apply Hdown. lia. }
    destruct (cactus_probe_down ws w H0) as (w1 & -> & Hc & Hs).
    cbv beta iota. unfold bind at 1.
    destruct (time_sleep_spec ws w1 Hws) as (w2 & -> & Hc2 & Hs2).
    cbv beta iota.
    destruct (IH fuel ws w2 Hws) as (w' & Hrun & Hc' & Hs').
    + intros i Hi. rewrite Hc2, Hc.
      replace (S (calls w) + i) with (calls w + S i) by lia.
      apply Hdown. lia.
    + rewrite Hc2, Hc.
      replace (S (calls w) + k) with (calls w + S k) by lia. exact Hup.
    + lia.
    + exists w'. split; [exact Hrun |]. split.
      * rewrite Hc', Hc2, Hc. lia.
      * rewrite Hs', Hs2, Hs, <- app_assoc. reflexivity.
Qed.


End Monitor.

Section MonitorClaim.

Context (E : Env).



End MonitorClaim.

(** * The identifier resolver *)

Section Resolver.

Context (E : Env).

Hint Resolve quiet_http_get quiet_cirpy_call quiet_wait_for_cactus_service : quiet.
Hint Resolve nodiverge_http_get nodiverge_cirpy_call : nodiverge.

Lemma quiet_cirpy_round fuel s : Quiet (cirpy_round E fuel s).
Proof. unfold cirpy_round. quiet. Qed.

Lemma quiet_resolve_with_cirpy fuel s : Quiet (resolve_with_cirpy E fuel s).
Proof.
  induction fuel as [| fuel IH]; simpl; [apply quiet_diverge |].
  apply quiet_bind; [apply quiet_cirpy_round |].
  intros [smiles |]; [apply quiet_ret | exact IH].
Qed.

Lemma quiet_py_in k v : Quiet (PyJson.py_in k v).
Proof. destruct v; simpl; quiet. Qed.

Lemma quiet_getitem_key v k : Quiet (PyJson.getitem_key v k).
Proof. destruct v; simpl; quiet. Qed.

Lemma quiet_py_len v : Quiet (PyJson.py_len v).
Proof. destruct v; simpl; quiet. Qed.

Lemma quiet_getitem_0 v : Quiet (PyJson.getitem_0 v).
Proof. destruct v; simpl; quiet. Qed.

Lemma quiet_get v k : Quiet (PyJson.get v k).
Proof. destruct v; simpl; quiet. Qed.

Lemma nodiverge_py_in k v : NoDiverge (PyJson.py_in k v).
Proof. destruct v; simpl; nodiverge. Qed.

Lemma nodiverge_getitem_key v k : NoDiverge (PyJson.getitem_key v k).
Proof. destruct v; simpl; nodiverge. Qed.

Lemma nodiverge_py_len v : NoDiverge (PyJson.py_len v).
Proof. destruct v; simpl; nodiverge. Qed.

Lemma nodiverge_getitem_0 v : NoDiverge (PyJson.getitem_0 v).
Proof. destruct v; simpl; nodiverge. Qed.

Lemma nodiverge_get v k : NoDiverge (PyJson.get v k).
Proof. destruct v; simpl; nodiverge. Qed.

Hint Resolve quiet_py_in quiet_getitem_key quiet_py_len quiet_getitem_0
  quiet_get quiet_resolve_with_cirpy : quiet.
Hint Resolve nodiverge_py_in nodiverge_getitem_key nodiverge_py_len
  nodiverge_getitem_0 nodiverge_get : nodiverge.

Lemma quiet_fetch_smiles_from_pubchem name :
  Quiet (fetch_smiles_from_pubchem E name).
Proof. unfold fetch_smiles_from_pubchem, has_properties. quiet. Qed.

Lemma nodiverge_fetch_smiles_from_pubchem name :
  NoDiverge (fetch_smiles_from_pubchem E name).
Proof. unfold fetch_smiles_from_pubchem, has_properties. nodiverge. Qed.

Hint Resolve quiet_fetch_smiles_from_pubchem : quiet.
Hint Resolve nodiverge_fetch_smiles_from_pubchem : nodiverge.

Lemma quiet_validate_dispatch fuel s ty : Quiet (validate_dispatch E fuel s ty).
Proof.
  unfold validate_dispatch, validate_smiles, validate_inchi, validate_iupac,
    iupac_cirpy, iupac_pubchem, MolFromSmiles_json, MolFromSmiles, MolFromInchi.
  quiet.
Qed.

(** Without outages of the name service one round of
    [resolve_with_cirpy] is enough. *)
Lemma nodiverge_resolve_with_cirpy fuel s :
  never_down E -> NoDiverge (resolve_with_cirpy E (S fuel) s).
Proof.
  intros Hup w. simpl. unfold cirpy_round, try_except, bind, cirpy_call.
  destruct (cirpy_resolve E (calls w) s) as [r | e] eqn:Hr; simpl.
  - discriminate.
  - rewrite (Hup _ _ _ Hr). simpl. discriminate.
Qed.

Lemma nodiverge_validate_dispatch fuel s ty :
  never_down E -> NoDiverge (validate_dispatch E (S fuel) s ty).
Proof.
  intros Hup. pose proof (nodiverge_resolve_with_cirpy fuel s Hup).
  unfold validate_dispatch, validate_smiles, validate_inchi, validate_iupac,
    iupac_cirpy, iupac_pubchem, MolFromSmiles_json, MolFromSmiles, MolFromInchi.
  nodiverge.
Qed.

(** The two local formats never block, whatever the fuel. *)
Lemma nodiverge_validate_local fuel s ty :
  ty = "smiles" \/ ty = "inchi" -> NoDiverge (validate_dispatch E fuel s ty).
Proof.
  intros [-> | ->];
    unfold validate_dispatch, validate_smiles, validate_inchi,
      MolFromSmiles, MolFromInchi; simpl; nodiverge.
Qed.

(** The handler of the outer [try] of [validate_identifier]. *)
Lemma noraise_validate_identifier fuel s ty :
  NoRaise (validate_identifier E fuel s ty).
Proof.
  unfold validate_identifier, validate_identifier_body.
  apply noraise_bind; [intros w e; discriminate | intros _].
  destruct (_ || _); [apply noraise_ret |].
  apply noraise_bind.
  - apply noraise_try. intros e.
    apply noraise_bind; [apply noraise_logging | intros; apply noraise_ret].
  - intros [out |]; apply noraise_ret.
Qed.

Lemma quiet_validate_identifier_body fuel s ty :
  Quiet (validate_identifier_body E fuel s ty).
Proof.
  pose proof (quiet_validate_dispatch fuel s ty).
  unfold validate_identifier_body. quiet.
Qed.

(** The world after a call: one more entry in the history of
    attempts, and the files and the loop variable as they were. *)
Lemma validate_identifier_frame fuel s ty w :
  let w' := snd (validate_identifier E fuel s ty w) in
  attempts w' = attempts w ++ [(s, ty)] /\
  valid_out w' = valid_out w /\
  invalid_out w' = invalid_out w /\
  no_info_out w' = no_info_out w /\
  row_var w' = row_var w.
Proof.
  unfold validate_identifier, bind at 1. simpl.
  match goal with
  | |- context [snd (validate_identifier_body E fuel s ty ?w0)] =>
      destruct (quiet_validate_identifier_body fuel s ty w0)
        as (h1 & h2 & h3 & h4 & h5)
  end.
  simpl in *. repeat split; assumption.
Qed.

Lemma nodiverge_validate_identifier fuel s ty :
  never_down E -> NoDiverge (validate_identifier E (S fuel) s ty).
Proof.
  intros Hup. pose proof (nodiverge_validate_dispatch fuel s ty Hup).
  unfold validate_identifier, validate_identifier_body.
  apply nodiverge_bind; [intros w; discriminate | intros _].
  nodiverge.
Qed.

Lemma nodiverge_validate_identifier_local fuel s ty :
  ty = "smiles" \/ ty = "inchi" -> NoDiverge (validate_identifier E fuel s ty).
Proof.
  intros Hty. pose proof (nodiverge_validate_local fuel s ty Hty).
  unfold validate_identifier, validate_identifier_body.
  apply nodiverge_bind; [intros w; discriminate | intros _].
  nodiverge.
Qed.

(** A computation that neither raises nor blocks returns. *)
Lemma returns_of {A} (m : M A) w :
  (forall e, fst (m w) <> Raise e) -> fst (m w) <> Diverge ->
  exists a w', m w = (Ret a, w').
Proof.
  destruct (m w) as [[a | e |] w']; simpl; intros Hr Hd.
  - eauto.
  - destruct (Hr e eq_refl).
  - destruct (Hd eq_refl).
Qed.

(** C6.  [validate_identifier] never hands an exception to its
    caller, whatever the identifier, the format, the state of the
    services and the number of rounds granted; an exception that
    escapes the branches is caught by the outer handler, logged as
    an error, and turned into [(False, None)]; for the SMILES and
    InChI formats the call always returns, and for every format it
    returns when the name service shows no outage. *)
Theorem validate_identifier_never_raises fuel (identifier identifier_type : string) w :
  (forall e, fst (validate_identifier E fuel identifier identifier_type w) <> Raise e) /\
  (forall e w1,
      identifier <> "null" -> identifier <> "" ->
      validate_dispatch E fuel identifier identifier_type
        (snd (note_attempt identifier identifier_type w)) = (Raise e, w1) ->
      validate_identifier E fuel identifier identifier_type w =
        (Ret (false, None),
         snd (logging_error
                "Unexpected error for {identifier_type}: {identifier}. Error: {str(e)}"
                [AStr identifier_type; AStr identifier; AStr (exn_str e)] w1))) /\
  (identifier_type = "smiles" \/ identifier_type = "inchi" ->
   exists out w', validate_identifier E fuel identifier identifier_type w = (Ret out, w')) /\
  (never_down E ->
   exists out w',
     validate_identifier E (S fuel) identifier identifier_type w = (Ret out, w')).
Proof.
  split; [| split; [| split]].
  - intros e. apply noraise_validate_identifier.
  - intros e w1 Hnull Hempty Hraise.
    unfold validate_identifier, bind at 1. simpl in *.
    unfold validate_identifier_body.
    assert (Hguard : String.eqb identifier "null" || negb (PyStr.truthy identifier) = false).
    { apply orb_false_intro.
      - apply String.eqb_neq. exact Hnull.
      - destruct identifier; [congruence | reflexivity]. }
    rewrite Hguard. unfold bind, try_except. rewrite Hraise. reflexivity.
  - intros Hty. apply returns_of.
    + intros e. apply noraise_validate_identifier.
    + apply nodiverge_validate_identifier_local. exact Hty.
  - intros Hup. apply returns_of.
    + intros e. apply noraise_validate_identifier.
    + apply nodiverge_validate_identifier. exact Hup.
Qed.

End Resolver.

(** * Coherence of the resolver's outcomes *)

Ltac post_leaf :=
  apply post_ret; unfold opt_coherent, coherent; simpl;
  first [ reflexivity | congruence | discriminate
        | intros ? [= <-]; simpl; congruence ].

Ltac post :=
  repeat first
    [ post_leaf
    | apply post_raise
    | progress (unfold logging_info, logging_warning, logging_error)
    | apply post_bind; intros ?
    | apply post_try; [| intros ?]
    | match goal with
      | |- Post (if ?b then _ else _) _ => destruct b eqn:?
      | |- Post (match ?x with _ => _ end) _ => destruct x eqn:?
      end ].

Section Coherence.

Context (E : Env).

Lemma post_validate_smiles s : Post (validate_smiles E s) coherent.
Proof. unfold validate_smiles. post. Qed.

Lemma post_validate_inchi s : Post (validate_inchi E s) coherent.
Proof. unfold validate_inchi. post. Qed.

Lemma post_iupac_cirpy fuel s : Post (iupac_cirpy E fuel s) opt_coherent.
Proof. unfold iupac_cirpy. post. Qed.

Lemma post_iupac_pubchem s : Post (iupac_pubchem E s) opt_coherent.
Proof. unfold iupac_pubchem. post. Qed.

Lemma post_validate_dispatch fuel s ty :
  Post (validate_dispatch E fuel s ty) opt_coherent.
Proof.
  unfold validate_dispatch.
  destruct (String.eqb ty "smiles");
    [| destruct (String.eqb ty "inchi"); [| destruct (String.eqb ty "iupac")]].
  - eapply post_bind_strong; [apply post_validate_smiles |].
    intros out Hout. apply post_ret. intros ? [= <-]. exact Hout.
  - eapply post_bind_strong; [apply post_validate_inchi |].
    intros out Hout. apply post_ret. intros ? [= <-]. exact Hout.
  - unfold validate_iupac.
    eapply post_bind_strong; [apply post_iupac_cirpy |].
    intros [out |] Hout.
    + apply post_ret. exact Hout.
    + apply post_iupac_pubchem.
  - apply post_ret. intros ? [=].
Qed.

Lemma post_validate_identifier fuel s ty :
  Post (validate_identifier E fuel s ty) coherent.
Proof.
  unfold validate_identifier, validate_identifier_body.
  apply post_bind. intros _.
  destruct (_ || _); [apply post_ret; reflexivity |].
  eapply post_bind_strong with (Q := opt_coherent).
  - apply post_try; [apply post_validate_dispatch |].
    intros e. apply post_bind. intros _. apply post_ret. intros ? [=].
  - intros [out |] Hout; apply post_ret; [apply Hout |]; reflexivity.
Qed.

Lemma post_resolve_formats fuel s :
  Post (resolve_formats E fuel s) first_match_only.
Proof.
  unfold resolve_formats.
  eapply post_bind_strong; [apply post_validate_identifier |].
  intros [b1 m1] H1. simpl. destruct b1; simpl.
  - apply post_ret. unfold first_match_only, coherent in *. simpl in *.
    intuition congruence.
  - eapply post_bind_strong; [apply post_validate_identifier |].
    intros [b2 m2] H2. simpl. destruct b2; simpl.
    + apply post_ret. unfold first_match_only, coherent in *. simpl in *.
      intuition congruence.
    + eapply post_bind_strong; [apply post_validate_identifier |].
      intros [b3 m3] H3. apply post_ret.
      unfold first_match_only, coherent in *. simpl in *.
      intuition congruence.
Qed.

Lemma noraise_resolve_formats fuel s : NoRaise (resolve_formats E fuel s).
Proof.
  unfold resolve_formats.
  apply noraise_bind; [apply noraise_validate_identifier |].
  intros iu. destruct (negb (fst iu)); [| apply noraise_ret].
  apply noraise_bind; [apply noraise_validate_identifier |].
  intros sm. destruct (negb (fst sm)); [| apply noraise_ret].
  apply noraise_bind; [apply noraise_validate_identifier |].
  intros inch. apply noraise_ret.
Qed.

Lemma nodiverge_resolve_formats fuel s :
  never_down E -> NoDiverge (resolve_formats E (S fuel) s).
Proof.
  intros Hup.
  pose proof (fun ty => nodiverge_validate_identifier E fuel s ty Hup).
  unfold resolve_formats. nodiverge.
Qed.

End Coherence.

(** * The batch driver *)

Section Driver.

Context (E : Env).

(** ** The gate in front of the resolution step *)

Lemma useful_info_loop_pure : forall fuel i row w,
  useful_info_loop fuel i row w = (fst (useful_info_loop fuel i row world0), w).
Proof.
  induction fuel as [| fuel IH]; intros i row w; simpl; [reflexivity |].
  destruct (i <? 7)%nat; [| reflexivity].
  unfold bind, getitem. destruct (row !! i) as [x |]; simpl; [| reflexivity].
  destruct (negb (String.eqb x "null")); [reflexivity |].
  rewrite (IH (i + 1) row w), (IH (i + 1) row world0). reflexivity.
Qed.

Lemma useful_info_loop_eq row w :
  useful_info_loop 6 2 row w = (useful_info row, w).
Proof. apply useful_info_loop_pure. Qed.

(** The loop stops at the first column that holds something else
    than ["null"]. *)
Lemma useful_info_loop_first row i x : forall fuel k,
  k <= i -> i < 7 -> i - k < fuel ->
  row !! i = Some x -> x <> "null" ->
  (forall j, k <= j -> j < i -> row !! j = Some "null") ->
  fst (useful_info_loop fuel k row world0) = Ret true.
Proof.
  induction fuel as [| fuel IH]; intros k Hki Hi Hfuel Hx Hne Hnull; [lia |].
  simpl. assert (Hk7 : (k <? 7)%nat = true) by (apply Nat.ltb_lt; lia).
  rewrite Hk7. unfold bind, getitem.
  destruct (Nat.eq_dec k i) as [-> | Hneq].
  - rewrite Hx. simpl.
    apply String.eqb_neq in Hne. rewrite Hne. reflexivity.
  - rewrite (Hnull k) by lia. simpl.
    rewrite useful_info_loop_pure. simpl.
    apply IH; try lia; try assumption.
    intros j Hj1 Hj2. apply Hnull; lia.
Qed.

(** When columns 2..6 all hold ["null"] the loop leaves with [False]. *)
Lemma useful_info_loop_none row : forall fuel k,
  7 - k < fuel ->
  (forall j, k <= j -> j < 7 -> row !! j = Some "null") ->
  fst (useful_info_loop fuel k row world0) = Ret false.
Proof.
  induction fuel as [| fuel IH]; intros k Hfuel Hnull; [lia |].
  simpl. destruct (k <? 7)%nat eqn:Hk7; [| reflexivity].
  apply Nat.ltb_lt in Hk7.
  unfold bind, getitem. rewrite (Hnull k) by lia. simpl.
  rewrite useful_info_loop_pure. simpl.
  apply IH; [lia |]. intros j Hj1 Hj2. apply Hnull; lia.
Qed.

(** Six rounds are enough for the loop: it ends. *)
Lemma useful_info_loop_ends row : forall fuel k,
  7 - k < fuel ->
  fst (useful_info_loop fuel k row world0) <> Diverge.
Proof.
  induction fuel as [| fuel IH]; intros k Hfuel; [lia |].
  simpl. destruct (k <? 7)%nat eqn:Hk7; [| discriminate].
  apply Nat.ltb_lt in Hk7.
  unfold bind, getitem. destruct (row !! k) as [x |]; simpl; [| discriminate].
  destruct (negb (String.eqb x "null")); [discriminate |].
  rewrite useful_info_loop_pure. simpl. apply IH. lia.
Qed.

Lemma useful_info_ends row : useful_info row <> Diverge.
Proof. apply useful_info_loop_ends. lia. Qed.

(** What [classify_row] does up to the resolution step. *)
Lemma classify_row_eq fuel w0 :
  classify_row E fuel w0 =
  match row_var w0 !! 0 with
  | None => (Raise (mkExn "IndexError" "list index out of range"), w0)
  | Some iupac =>
      if String.eqb iupac "null" || String.eqb iupac "failed" then
        no_info_writerow (take 10 (row_var w0)) w0
      else
        match useful_info (row_var w0) with
        | Ret true =>
            (logging_info "Working on row: {row}" [ARow (row_var w0)] ;;;
             r <- resolve_formats E fuel iupac ;;
             write_resolved E r) w0
        | Ret false =>
            (logging_info "Skipping row due to no useful information: {row}"
                          [ARow (row_var w0)] ;;;
             no_info_writerow (take 10 (row_var w0))) w0
        | Raise e => (Raise e, w0)
        | Diverge => (Diverge, w0)
        end
  end.
Proof.
  unfold classify_row, get_row. unfold bind at 1. cbv beta iota.
  unfold bind at 1, getitem.
  destruct (row_var w0 !! 0) as [iupac |]; [| reflexivity].
  unfold ret at 1. cbv beta iota.
  destruct (_ || _); [reflexivity |].
  unfold bind at 1. rewrite useful_info_loop_eq.
  destruct (useful_info (row_var w0)) as [[|] | e |]; reflexivity.
Qed.

(** ** The resolution step *)

Lemma resolve_formats_frame fuel s w :
  let w' := snd (resolve_formats E fuel s w) in
  nothing_written w w' /\ row_var w' = row_var w /\
  exists rest, attempts w' = attempts w ++ (s, "iupac") :: rest.
Proof.
  unfold resolve_formats, bind, nothing_written.
  pose proof (validate_identifier_frame E fuel s "iupac" w) as F1.
  destruct (validate_identifier E fuel s "iupac" w) as [[[b1 m1] | e |] w1];
    simpl in F1 |- *; destruct F1 as (a1 & v1 & i1 & n1 & r1);
    try (repeat split; try assumption; exists []; assumption).
  destruct b1; simpl;
    try (repeat split; try assumption; exists []; assumption).
  pose proof (validate_identifier_frame E fuel s "smiles" w1) as F2.
  destruct (validate_identifier E fuel s "smiles" w1) as [[[b2 m2] | e |] w2];
    simpl in F2 |- *; destruct F2 as (a2 & v2 & i2 & n2 & r2);
    try (repeat split; try congruence;
         exists [(s, "smiles")]; rewrite a2, a1, <- app_assoc; reflexivity).
  destruct b2; simpl;
    try (repeat split; try congruence;
         exists [(s, "smiles")]; rewrite a2, a1, <- app_assoc; reflexivity).
  pose proof (validate_identifier_frame E fuel s "inchi" w2) as F3.
  destruct (validate_identifier E fuel s "inchi" w2) as [[[b3 m3] | e |] w3];
    simpl in F3 |- *; destruct F3 as (a3 & v3 & i3 & n3 & r3);
    repeat split; try congruence;
    exists [(s, "smiles"); (s, "inchi")];
    rewrite a3, a2, a1, <- !app_assoc; reflexivity.
Qed.

(** The history of attempts after the step: IUPAC, then SMILES only
    if IUPAC failed, then InChI only if SMILES failed too. *)
Lemma resolve_formats_attempts fuel s w r w' :
  resolve_formats E fuel s w = (Ret r, w') ->
  attempts w' = attempts w ++ attempted s r.
Proof.
  unfold resolve_formats, bind.
  pose proof (validate_identifier_frame E fuel s "iupac" w) as F1.
  destruct (validate_identifier E fuel s "iupac" w) as [[[b1 m1] | e |] w1];
    simpl in F1 |- *; destruct F1 as (a1 & _); try discriminate.
  destruct b1; simpl.
  { intros [= <- <-]. exact a1. }
  pose proof (validate_identifier_frame E fuel s "smiles" w1) as F2.
  destruct (validate_identifier E fuel s "smiles" w1) as [[[b2 m2] | e |] w2];
    simpl in F2 |- *; destruct F2 as (a2 & _); try discriminate.
  destruct b2; simpl.
  { intros [= <- <-]. simpl. rewrite a2, a1, <- app_assoc. reflexivity. }
  pose proof (validate_identifier_frame E fuel s "inchi" w2) as F3.
  destruct (validate_identifier E fuel s "inchi" w2) as [[[b3 m3] | e |] w3];
    simpl in F3 |- *; destruct F3 as (a3 & _); try discriminate.
  intros [= <- <-]. simpl. rewrite a3, a2, a1, <- !app_assoc. reflexivity.
Qed.

Lemma emitted_valid out w w' :
  valid_out w' = valid_out w ++ [out] ->
  invalid_out w' = invalid_out w -> no_info_out w' = no_info_out w ->
  emitted Valid out w w'.
Proof.
  intros Hv Hi Hn. unfold emitted, only_row. simpl.
  rewrite !app_nil_r. auto.
Qed.

Lemma emitted_invalid out w w' :
  valid_out w' = valid_out w ->
  invalid_out w' = invalid_out w ++ [out] -> no_info_out w' = no_info_out w ->
  emitted Invalid out w w'.
Proof.
  intros Hv Hi Hn. unfold emitted, only_row. simpl.
  rewrite !app_nil_r. auto.
Qed.

Lemma emitted_no_info out w w' :
  valid_out w' = valid_out w ->
  invalid_out w' = invalid_out w -> no_info_out w' = no_info_out w ++ [out] ->
  emitted NoInfo out w w'.
Proof.
  intros Hv Hi Hn. unfold emitted, only_row. simpl.
  rewrite !app_nil_r. auto.
Qed.

(** A write that follows a stretch without writes. *)
Lemma emitted_after b out w w1 w' :
  nothing_written w w1 -> emitted b out w1 w' -> emitted b out w w'.
Proof.
  unfold nothing_written, emitted. intros (v & i & n) (v' & i' & n').
  rewrite v', i', n', v, i, n. auto.
Qed.

(** What is written after the attempts.  With a molecule at hand
    the canonical SMILES goes in front of the row and the carbon test
    picks the stream; without one the row goes to the invalid stream
    as it was read, with three ["No"]. *)
Lemma write_resolved_spec r w2 :
  first_match_only r ->
  exists w3,
    write_resolved E r w2 = (Ret tt, w3) /\
    attempts w3 = attempts w2 /\ calls w3 = calls w2 /\
    match first_mol r with
    | Some m =>
        emitted (if any_carbon (atomic_nums E m) then Valid else Invalid)
                (Chem_MolToSmiles E m :: row_var w2 ++ resolution_info_of E r) w2 w3 /\
        one_hot (resolution_info_of E r)
    | None =>
        emitted Invalid (row_var w2 ++ ["No"; "No"; "No"]) w2 w3 /\
        resolution_info_of E r = ["No"; "No"; "No"]
    end.
Proof.
  destruct r as [[[b1 m1] [b2 m2]] [b3 m3]].
  unfold first_match_only, coherent. simpl.
  intros (H1 & H2 & H3 & H4 & H5). subst b1 b2 b3.
  destruct m1 as [x1 |]; simpl in *.
  - destruct (H4 eq_refl) as [Ea Eb].
    injection Ea as _ ->. injection Eb as _ ->.
    unfold write_resolved, bind. simpl.
    destruct (any_carbon (atomic_nums E x1)); simpl;
      eexists; (split; [reflexivity |]);
      (split; [reflexivity |]); (split; [reflexivity |]);
      (split; [| left; reflexivity]);
      first [ apply emitted_valid | apply emitted_invalid ]; reflexivity.
  - destruct m2 as [x2 |]; simpl in *.
    + pose proof (H5 eq_refl) as Eb. injection Eb as _ ->.
      unfold write_resolved, bind. simpl.
      destruct (any_carbon (atomic_nums E x2)); simpl;
        eexists; (split; [reflexivity |]);
        (split; [reflexivity |]); (split; [reflexivity |]);
        (split; [| right; left; reflexivity]);
        first [ apply emitted_valid | apply emitted_invalid ]; reflexivity.
    + destruct m3 as [x3 |]; simpl in *.
      * unfold write_resolved, bind. simpl.
        destruct (any_carbon (atomic_nums E x3)); simpl;
          eexists; (split; [reflexivity |]);
          (split; [reflexivity |]); (split; [reflexivity |]);
          (split; [| right; right; reflexivity]);
          first [ apply emitted_valid | apply emitted_invalid ]; reflexivity.
      * unfold write_resolved, bind. simpl.
        eexists; (split; [reflexivity |]);
          (split; [reflexivity |]); (split; [reflexivity |]);
          (split; [| reflexivity]).
        apply emitted_invalid; reflexivity.
Qed.

(** ** One row *)

Lemma nothing_written_refl w : nothing_written w w.
Proof. repeat split. Qed.

Lemma nothing_written_trans w1 w2 w3 :
  nothing_written w1 w2 -> nothing_written w2 w3 -> nothing_written w1 w3.
Proof.
  unfold nothing_written. intros (a & b & c) (a' & b' & c').
  repeat split; congruence.
Qed.

Lemma guard_false s :
  s <> "null" -> s <> "failed" ->
  String.eqb s "null" || String.eqb s "failed" = false.
Proof.
  intros H1 H2. apply orb_false_intro; apply String.eqb_neq; assumption.
Qed.

Lemma guard_true s :
  s = "null" \/ s = "failed" ->
  String.eqb s "null" || String.eqb s "failed" = true.
Proof. intros [-> | ->]; reflexivity. Qed.

(** The attempts and the write after them never raise. *)
Lemma resolve_and_write_spec fuel s w1 :
  match resolve_and_write E fuel s w1 with
  | (Ret _, w3) =>
      exists r w2,
        resolve_formats E fuel s w1 = (Ret r, w2) /\
        first_match_only r /\
        write_resolved E r w2 = (Ret tt, w3)
  | (Raise _, _) => False
  | (Diverge, w2) => resolve_formats E fuel s w1 = (Diverge, w2)
  end.
Proof.
  unfold resolve_and_write, bind.
  pose proof (noraise_resolve_formats E fuel s w1) as Hnr.
  destruct (resolve_formats E fuel s w1) as [[r | e |] w2] eqn:Hr; simpl in Hnr.
  - pose proof (post_resolve_formats E fuel s _ _ _ Hr) as Hfm.
    destruct (write_resolved_spec r w2 Hfm) as (w3 & Hw & _).
    rewrite Hw. exists r, w2. auto.
  - destruct (Hnr e eq_refl).
  - reflexivity.
Qed.

Lemma process_row_eq fuel row w :
  process_row E fuel row w =
  try_except (classify_row E fuel) row_handler (at_row row w).
Proof. reflexivity. Qed.

(** A row whose first field is a placeholder. *)
Lemma process_row_placeholder fuel row s w :
  row !! 0 = Some s -> s = "null" \/ s = "failed" ->
  process_row E fuel row w = no_info_writerow (take 10 row) (at_row row w).
Proof.
  intros H0 Hs. rewrite process_row_eq. unfold try_except.
  rewrite classify_row_eq. simpl. rewrite H0, (guard_true s Hs). reflexivity.
Qed.

(** A row with nothing but ["null"] in the columns the loop reads. *)
Lemma process_row_useless fuel row s w :
  row !! 0 = Some s -> s <> "null" -> s <> "failed" ->
  useful_info row = Ret false ->
  process_row E fuel row w =
  (logging_info "Skipping row due to no useful information: {row}" [ARow row] ;;;
   no_info_writerow (take 10 row)) (at_row row w).
Proof.
  intros H0 H1 H2 Hu. rewrite process_row_eq. unfold try_except.
  rewrite classify_row_eq. simpl. rewrite H0, (guard_false s H1 H2), Hu.
  reflexivity.
Qed.

(** A row that reaches the resolution step. *)
Lemma process_row_resolution fuel row s w :
  reaches_resolution row s ->
  process_row E fuel row w = resolve_and_write E fuel s (at_resolution row w).
Proof.
  intros (H0 & H1 & H2 & Hu). rewrite process_row_eq. unfold try_except.
  rewrite classify_row_eq. simpl. rewrite H0, (guard_false s H1 H2), Hu.
  unfold bind at 1. simpl.
  change (bind (resolve_formats E fuel s) (fun r => write_resolved E r))
    with (resolve_and_write E fuel s).
  pose proof (resolve_and_write_spec fuel s (at_resolution row w)) as Hs.
  unfold at_resolution, at_row in Hs |- *. simpl in Hs |- *.
  destruct (resolve_and_write E fuel s _) as [[[] | e |] w3]; [reflexivity | destruct Hs | reflexivity].
Qed.

(** The body of the [try] raises only on a row that is too short,
    before anything was written or attempted. *)
Lemma classify_row_raises fuel w0 e w1 :
  classify_row E fuel w0 = (Raise e, w1) ->
  w1 = w0 /\
  (row_var w0 !! 0 = None \/
   exists s, row_var w0 !! 0 = Some s /\ s <> "null" /\ s <> "failed" /\
             useful_info (row_var w0) = Raise e).
Proof.
  rewrite classify_row_eq.
  destruct (row_var w0 !! 0) as [s |] eqn:H0.
  - destruct (String.eqb s "null" || String.eqb s "failed") eqn:Hg;
      [discriminate |].
    apply orb_false_elim in Hg. destruct Hg as [Hg1 Hg2].
    apply String.eqb_neq in Hg1, Hg2.
    destruct (useful_info (row_var w0)) as [[|] | e' |] eqn:Hu; try discriminate.
    + unfold bind at 1. simpl.
      change (bind (resolve_formats E fuel s) (fun r => write_resolved E r))
        with (resolve_and_write E fuel s).
      match goal with
      | |- resolve_and_write E fuel s ?w = _ -> _ =>
          pose proof (resolve_and_write_spec fuel s w) as Hs;
          destruct (resolve_and_write E fuel s w) as [[[] | e' |] w3]
      end; try discriminate. destruct Hs.
    + intros [= <- <-]. split; [reflexivity |]. right. exists s. auto.
  - intros [= <- <-]. split; [reflexivity |]. left. reflexivity.
Qed.

(** What the handler leaves behind. *)
Lemma row_handler_spec e w1 :
  exists w',
    row_handler e w1 = (Ret tt, w') /\
    emitted Invalid (row_var w1 ++ ["No"; "No"; "No"]) w1 w' /\
    attempts w' = attempts w1 /\ calls w' = calls w1 /\
    log w' = log w1 ++
             [mkLog ERROR "Error processing row: {row}. Error: {str(e)}"
                    [ARow (row_var w1); AStr (exn_str e)]].
Proof.
  eexists. split; [reflexivity |].
  split; [apply emitted_invalid; reflexivity |].
  repeat split.
Qed.

Lemma nothing_written_at_resolution row w :
  nothing_written w (at_resolution row w).
Proof. repeat split. Qed.

(** What the row loop does with a row that reaches the resolution
    step: it never raises; when it returns, the attempts were made in
    priority order up to the first success, and the row went to the
    valid or the invalid stream; when it blocks, nothing was written. *)
Lemma process_row_resolution_spec fuel row s w :
  reaches_resolution row s ->
  match process_row E fuel row w with
  | (Ret _, w3) =>
      exists r w2,
        resolve_formats E fuel s (at_resolution row w) = (Ret r, w2) /\
        first_match_only r /\
        attempts w3 = attempts w ++ attempted s r /\
        match first_mol r with
        | Some m =>
            emitted (if any_carbon (atomic_nums E m) then Valid else Invalid)
                    (Chem_MolToSmiles E m :: row ++ resolution_info_of E r) w w3 /\
            one_hot (resolution_info_of E r)
        | None =>
            emitted Invalid (row ++ ["No"; "No"; "No"]) w w3 /\
            resolution_info_of E r = ["No"; "No"; "No"]
        end
  | (Raise _, _) => False
  | (Diverge, w2) =>
      nothing_written w w2 /\
      exists rest, attempts w2 = attempts w ++ (s, "iupac") :: rest
  end.
Proof.
  intros Hreach. rewrite (process_row_resolution fuel row s w Hreach).
  pose proof (resolve_and_write_spec fuel s (at_resolution row w)) as Hs.
  pose proof (resolve_formats_frame fuel s (at_resolution row w)) as Hf.
  destruct (resolve_and_write E fuel s (at_resolution row w))
    as [[[] | e |] w3]; [| exact Hs |].
  - destruct Hs as (r & w2 & Hr & Hfm & Hw).
    rewrite Hr in Hf. simpl in Hf. destruct Hf as (Hnw & Hrow & _).
    pose proof (resolve_formats_attempts _ _ _ _ _ Hr) as Hatt.
    destruct (write_resolved_spec r w2 Hfm) as (w3' & Hw' & Ha & _ & Hout).
    rewrite Hw in Hw'. injection Hw' as <-.
    exists r, w2. split; [exact Hr |]. split; [exact Hfm |].
    split; [rewrite Ha; exact Hatt |].
    assert (Hnw' : nothing_written w w2).
    { eapply nothing_written_trans; [apply nothing_written_at_resolution | exact Hnw]. }
    change (row_var (at_resolution row w)) with row in Hrow.
    rewrite Hrow in Hout.
    destruct (first_mol r) as [m |]; destruct Hout as [Hem Hfl];
      (split; [eapply emitted_after; eassumption | exact Hfl]).
  - rewrite Hs in Hf. simpl in Hf. destruct Hf as (Hnw & _ & Hatt).
    split; [| exact Hatt].
    eapply nothing_written_trans; [apply nothing_written_at_resolution | exact Hnw].
Qed.

(** The loop over columns 2..6 either leaves with a flag or raises. *)
Lemma row_gate_cases row :
  row !! 0 = None \/
  (exists s, row !! 0 = Some s /\ (s = "null" \/ s = "failed")) \/
  (exists s, row !! 0 = Some s /\ s <> "null" /\ s <> "failed" /\
             useful_info row = Ret false) \/
  (exists s e, row !! 0 = Some s /\ s <> "null" /\ s <> "failed" /\
               useful_info row = Raise e) \/
  (exists s, reaches_resolution row s).
Proof.
  destruct (row !! 0) as [s |] eqn:H0; [| left; reflexivity].
  right.
  destruct (String.eqb s "null") eqn:H1;
    [apply String.eqb_eq in H1; left; exists s; auto |].
  destruct (String.eqb s "failed") eqn:H2;
    [apply String.eqb_eq in H2; left; exists s; auto |].
  apply String.eqb_neq in H1, H2. right.
  pose proof (useful_info_ends row) as Hend.
  destruct (useful_info row) as [[|] | e |] eqn:Hu.
  - right. right. exists s. repeat split; assumption.
  - left. exists s. auto.
  - right. left. exists s, e. auto.
  - destruct (Hend eq_refl).
Qed.

(** A row that is too short for the tests goes through the handler. *)
Lemma process_row_fault fuel row w e :
  classify_row E fuel (at_row row w) = (Raise e, at_row row w) ->
  exists w',
    process_row E fuel row w = (Ret tt, w') /\
    emitted Invalid (row ++ ["No"; "No"; "No"]) w w' /\
    attempts w' = attempts w /\ calls w' = calls w /\
    log w' = log w ++
             [mkLog ERROR "Error processing row: {row}. Error: {str(e)}"
                    [ARow row; AStr (exn_str e)]].
Proof.
  intros Hraise. rewrite process_row_eq. unfold try_except. rewrite Hraise.
  destruct (row_handler_spec e (at_row row w)) as (w' & Hh & Hem & Ha & Hc & Hl).
  exists w'. split; [exact Hh |].
  split; [| auto].
  eapply emitted_after; [| exact Hem]. repeat split.
Qed.

Lemma classify_row_short fuel row w :
  row !! 0 = None ->
  classify_row E fuel (at_row row w) =
  (Raise (mkExn "IndexError" "list index out of range"), at_row row w).
Proof.
  intros H0. rewrite classify_row_eq. simpl. rewrite H0. reflexivity.
Qed.

Lemma classify_row_short_aux fuel row s e w :
  row !! 0 = Some s -> s <> "null" -> s <> "failed" ->
  useful_info row = Raise e ->
  classify_row E fuel (at_row row w) = (Raise e, at_row row w).
Proof.
  intros H0 H1 H2 Hu. rewrite classify_row_eq. simpl.
  rewrite H0, (guard_false s H1 H2), Hu. reflexivity.
Qed.

(** Every row, whatever it holds: the loop body never raises; when it
    returns, exactly one row was written to exactly one stream, in
    one of the four shapes of [row_outcome]; when it blocks, nothing
    was written. *)
Lemma process_row_cases fuel row w :
  match process_row E fuel row w with
  | (Ret _, w') => exists b out, emitted b out w w' /\ row_outcome row b out
  | (Raise _, _) => False
  | (Diverge, w') => nothing_written w w'
  end.
Proof.
  destruct (row_gate_cases row)
    as [H0 | [(s & H0 & Hs) | [(s & H0 & H1 & H2 & Hu)
       | [(s & e & H0 & H1 & H2 & Hu) | (s & Hreach)]]]].
  - destruct (process_row_fault fuel row w _ (classify_row_short fuel row w H0))
      as (w' & -> & Hem & _).
    exists Invalid, (row ++ ["No"; "No"; "No"]). split; [exact Hem | constructor].
  - rewrite (process_row_placeholder fuel row s w H0 Hs). simpl.
    exists NoInfo, (take 10 row).
    split; [apply emitted_no_info; reflexivity | constructor].
  - rewrite (process_row_useless fuel row s w H0 H1 H2 Hu). simpl.
    exists NoInfo, (take 10 row).
    split; [apply emitted_no_info; reflexivity | constructor].
  - destruct (process_row_fault fuel row w _
                (classify_row_short_aux fuel row s e w H0 H1 H2 Hu))
      as (w' & -> & Hem & _).
    exists Invalid, (row ++ ["No"; "No"; "No"]). split; [exact Hem | constructor].
  - pose proof (process_row_resolution_spec fuel row s w Hreach) as Hspec.
    destruct (process_row E fuel row w) as [[[] | e |] w']; [| exact Hspec | apply Hspec].
    destruct Hspec as (r & w2 & _ & _ & _ & Hout).
    destruct (first_mol r) as [m |]; destruct Hout as [Hem Hfl].
    + destruct (any_carbon (atomic_nums E m));
        eexists _, _; (split; [exact Hem |]); constructor; exact Hfl.
    + exists Invalid, (row ++ ["No"; "No"; "No"]). split; [exact Hem | constructor].
Qed.

End Driver.

(** * Properties of the row classifier *)

Section RowClaims.

Context (E : Env).

(** C2.  A row whose first field is ["null"] or ["failed"] is written
    to the no-info stream, whatever its other fields hold; what is
    written is the first ten fields of the row as read (the whole row
    when it is shorter); nothing goes to the other streams, and no
    call of [validate_identifier], no network request, no sleep and
    no log record is made. *)
Theorem placeholder_row_is_no_info fuel (row : Row) s w :
  row !! 0 = Some s ->
  s = "null" \/ s = "failed" ->
  exists w',
    process_row E fuel row w = (Ret tt, w') /\
    emitted NoInfo (take 10 row) w w' /\
    attempts w' = attempts w /\
    calls w' = calls w /\
    slept w' = slept w /\
    log w' = log w.
Proof.
  intros H0 Hs. rewrite (process_row_placeholder E fuel row s w H0 Hs).
  eexists. split; [reflexivity |].
  split; [apply emitted_no_info; reflexivity |].
  repeat split.
Qed.

Lemma useful_info_all_non_null (row : Row) :
  (forall i, 2 <= i < 7 -> exists x, row !! i = Some x /\ x <> "null") ->
  useful_info row = Ret true.
Proof.
  intros Hall. destruct (Hall 2 ltac:(lia)) as (x & Hx & Hne).
  apply (useful_info_loop_first row 2 x); try lia; assumption.
Qed.

Lemma useful_info_all_null (row : Row) :
  (forall i, 2 <= i < 7 -> row !! i = Some "null") ->
  useful_info row = Ret false.
Proof.
  intros Hall. apply useful_info_loop_none; [lia |].
  intros j Hj1 Hj2. apply Hall. lia.
Qed.

(** The streams and the attempts after a row that reaches the
    resolution step, whether the row loop returned or is blocked. *)
Lemma resolution_row_leaves_no_info_alone fuel (row : Row) s w :
  reaches_resolution row s ->
  let w' := snd (process_row E fuel row w) in
  no_info_out w' = no_info_out w /\
  exists rest, attempts w' = attempts w ++ (s, "iupac") :: rest.
Proof.
  intros Hreach. pose proof (process_row_resolution_spec E fuel row s w Hreach) as Hspec.
  destruct (process_row E fuel row w) as [[[] | e |] w']; simpl; [| destruct Hspec |].
  - destruct Hspec as (r & w2 & _ & _ & Hatt & Hout). split.
    + destruct (first_mol r) as [m |]; destruct Hout as [(_ & _ & Hn) _];
        [destruct (any_carbon (atomic_nums E m)) |];
        rewrite Hn; unfold only_row; simpl; apply app_nil_r.
    + rewrite Hatt. destruct r as [[iu sm] inch]. simpl. eauto.
  - destruct Hspec as ((_ & _ & Hn) & Hatt). auto.
Qed.

(** C9.  In the test over columns 2..6 only the string ["null"]
    counts as a placeholder.  A row whose first field is neither
    ["null"] nor ["failed"] and whose columns 2..6 all hold something
    else than ["null"] (empty strings, for one) reaches the
    resolution step: the IUPAC attempt is made and nothing is written
    to the no-info stream.  With ["null"] in all of columns 2..6 the
    row goes to the no-info stream without an attempt. *)
Theorem only_null_is_a_placeholder fuel (row : Row) s w :
  row !! 0 = Some s -> s <> "null" -> s <> "failed" ->
  ((forall i, 2 <= i < 7 -> exists x, row !! i = Some x /\ x <> "null") ->
   reaches_resolution row s /\
   no_info_out (snd (process_row E fuel row w)) = no_info_out w /\
   exists rest,
     attempts (snd (process_row E fuel row w)) = attempts w ++ (s, "iupac") :: rest) /\
  ((forall i, 2 <= i < 7 -> row !! i = Some "") ->
   reaches_resolution row s /\
   no_info_out (snd (process_row E fuel row w)) = no_info_out w /\
   exists rest,
     attempts (snd (process_row E fuel row w)) = attempts w ++ (s, "iupac") :: rest) /\
  ((forall i, 2 <= i < 7 -> row !! i = Some "null") ->
   exists w',
     process_row E fuel row w = (Ret tt, w') /\
     emitted NoInfo (take 10 row) w w' /\
     attempts w' = attempts w).
Proof.
  intros H0 H1 H2.
  assert (Hgo : (forall i, 2 <= i < 7 -> exists x, row !! i = Some x /\ x <> "null") ->
                reaches_resolution row s /\
                no_info_out (snd (process_row E fuel row w)) = no_info_out w /\
                exists rest,
                  attempts (snd (process_row E fuel row w))
                  = attempts w ++ (s, "iupac") :: rest).
  { intros Hall.
    assert (Hreach : reaches_resolution row s).
    { repeat split; try assumption. apply useful_info_all_non_null. exact Hall. }
    split; [exact Hreach |].
    apply (resolution_row_leaves_no_info_alone fuel row s w Hreach). }
  split; [exact Hgo |]. split.
  - intros Hempty. apply Hgo. intros i Hi. exists "".
    split; [apply Hempty; exact Hi | discriminate].
  - intros Hnull.
    rewrite (process_row_useless E fuel row s w H0 H1 H2 (useful_info_all_null row Hnull)).
    eexists. split; [reflexivity |].
    split; [apply emitted_no_info; reflexivity | reflexivity].
Qed.

Lemma noraise_process_row fuel row : NoRaise (process_row E fuel row).
Proof.
  intros w e Hraise. pose proof (process_row_cases E fuel row w) as Hc.
  destruct (process_row E fuel row w) as [[[] | e' |] w']; try discriminate.
  exact Hc.
Qed.

Lemma noraise_for_rows fuel rows : NoRaise (for_rows E fuel rows).
Proof.
  induction rows as [| row rest IH]; simpl; [apply noraise_ret |].
  apply noraise_bind; [apply noraise_process_row | intros _; exact IH].
Qed.

(** C8.  When the body of the row loop raises, the exception is
    caught by the handler of that row: an error record with the row
    is logged, the row as read is written to the invalid stream with
    three ["No"], nothing goes to the other streams, and the loop
    goes on with the next row.  No exception leaves the loop over the
    rows. *)
Theorem row_fault_is_caught fuel (row : Row) w e w1 :
  classify_row E fuel (at_row row w) = (Raise e, w1) ->
  (exists w',
     process_row E fuel row w = (Ret tt, w') /\
     emitted Invalid (row ++ ["No"; "No"; "No"]) w w' /\
     log w' = log w ++
              [mkLog ERROR "Error processing row: {row}. Error: {str(e)}"
                     [ARow row; AStr (exn_str e)]] /\
     forall rest, for_rows E fuel (row :: rest) w = for_rows E fuel rest w') /\
  (forall rows w0 e', fst (for_rows E fuel rows w0) <> Raise e').
Proof.
  intros Hraise. split; [| intros rows w0 e'; apply noraise_for_rows].
  destruct (classify_row_raises E fuel _ _ _ Hraise) as [-> _].
  destruct (process_row_fault E fuel row w e Hraise)
    as (w' & Hrun & Hem & _ & _ & Hlog).
  exists w'. split; [exact Hrun |]. split; [exact Hem |]. split; [exact Hlog |].
  intros rest. simpl. unfold bind. rewrite Hrun. reflexivity.
Qed.

Lemma any_carbon_iff nums : any_carbon nums = true <-> In 6%Z nums.
Proof.
  induction nums as [| z rest IH]; simpl.
  - split; [discriminate | intros []].
  - destruct (z =? 6)%Z eqn:Hz.
    + apply Z.eqb_eq in Hz. split; auto.
    + apply Z.eqb_neq in Hz. rewrite IH. split; [auto |].
      intros [Heq | Hin]; [congruence | exact Hin].
Qed.

(** With coherent outcomes, a format resolved exactly when there is a
    molecule to use, and that molecule is the one of the format that
    resolved. *)
Lemma first_mol_of_flags (iu sm inch : Outcome E) :
  first_match_only (iu, sm, inch) ->
  fst iu || fst sm || fst inch = is_some (first_mol (iu, sm, inch)) /\
  forall m, first_mol (iu, sm, inch) = Some m ->
            (fst iu = true -> snd iu = Some m) /\
            (fst sm = true -> snd sm = Some m) /\
            (fst inch = true -> snd inch = Some m).
Proof.
  destruct iu as [b1 [x1 |]], sm as [b2 [x2 |]], inch as [b3 [x3 |]];
    unfold first_match_only, coherent; simpl;
    intros (-> & -> & -> & H4 & H5); simpl;
    (split; [reflexivity |]); intros m [= <-];
    repeat split; intros Ht; try reflexivity; try discriminate;
    try (destruct (H4 eq_refl) as [? ?]; discriminate);
    try (pose proof (H5 eq_refl); discriminate).
Qed.

(** A row that reaches the resolution step and whose attempts
    returned is written out. *)
Lemma process_row_returned fuel (row : Row) s w r w2 :
  reaches_resolution row s ->
  resolve_formats E fuel s (at_resolution row w) = (Ret r, w2) ->
  exists w3,
    process_row E fuel row w = (Ret tt, w3) /\
    first_match_only r /\
    attempts w3 = attempts w ++ attempted s r /\
    match first_mol r with
    | Some m =>
        emitted (if any_carbon (atomic_nums E m) then Valid else Invalid)
                (Chem_MolToSmiles E m :: row ++ resolution_info_of E r) w w3 /\
        one_hot (resolution_info_of E r)
    | None =>
        emitted Invalid (row ++ ["No"; "No"; "No"]) w w3 /\
        resolution_info_of E r = ["No"; "No"; "No"]
    end.
Proof.
  intros Hreach Hres.
  pose proof (post_resolve_formats E fuel s _ _ _ Hres) as Hfm.
  destruct (write_resolved_spec E r w2 Hfm) as (w3 & Hw & _).
  assert (Hrun : process_row E fuel row w = (Ret tt, w3)).
  { rewrite (process_row_resolution E fuel row s w Hreach).
    unfold resolve_and_write, bind. rewrite Hres. exact Hw. }
  pose proof (process_row_resolution_spec E fuel row s w Hreach) as Hspec.
  rewrite Hrun in Hspec.
  destruct Hspec as (r' & w2' & Hr' & _ & Hatt & Hout).
  rewrite Hres in Hr'. injection Hr' as <- <-.
  exists w3. auto.
Qed.

(** C5.  When some format resolved, the molecule of that format is
    rendered as canonical SMILES and tested for carbon.  With a
    carbon atom the row goes to the valid stream, without one to the
    invalid stream; in both cases the canonical SMILES is the first
    field, the fields of the row follow, and the flag of the format
    that resolved is ["Yes"] and the two others are ["No"]. *)
Theorem resolved_row_is_classified_by_carbon fuel (row : Row) s w iu sm inch w2 :
  reaches_resolution row s ->
  resolve_formats E fuel s (at_resolution row w) = (Ret (iu, sm, inch), w2) ->
  fst iu || fst sm || fst inch = true ->
  exists m w3,
    first_mol (iu, sm, inch) = Some m /\
    (fst iu = true -> snd iu = Some m) /\
    (fst sm = true -> snd sm = Some m) /\
    (fst inch = true -> snd inch = Some m) /\
    process_row E fuel row w = (Ret tt, w3) /\
    one_hot [yes_no (fst iu); yes_no (fst sm); yes_no (fst inch)] /\
    (molecule_has_carbon E (Some m) = true <-> In 6%Z (atomic_nums E m)) /\
    (molecule_has_carbon E (Some m) = true ->
     emitted Valid
       (Chem_MolToSmiles E m :: row ++ [yes_no (fst iu); yes_no (fst sm); yes_no (fst inch)])
       w w3) /\
    (molecule_has_carbon E (Some m) = false ->
     emitted Invalid
       (Chem_MolToSmiles E m :: row ++ [yes_no (fst iu); yes_no (fst sm); yes_no (fst inch)])
       w w3).
Proof.
  intros Hreach Hres Hany.
  destruct (process_row_returned fuel row s w _ _ Hreach Hres)
    as (w3 & Hrun & Hfm & _ & Hout).
  destruct (first_mol_of_flags iu sm inch Hfm) as [Hflags Hmol].
  rewrite Hany in Hflags.
  destruct (first_mol (iu, sm, inch)) as [m |] eqn:Hm; [| discriminate].
  destruct (Hmol m eq_refl) as (M1 & M2 & M3).
  destruct Hout as [Hem Hone].
  exists m, w3. repeat (split; [solve [auto] |]).
  split; [apply any_carbon_iff |].
  simpl. split; intros Hc; rewrite Hc in Hem; exact Hem.
Qed.

(** Two descriptions of the same step name the same stream and the
    same row. *)
Lemma emitted_inj b out b' out' w w' :
  emitted b out w w' -> emitted b' out' w w' -> b = b' /\ out = out'.
Proof.
  unfold emitted, only_row. intros (v & i & n) (v' & i' & n').
  rewrite v in v'. rewrite i in i'. rewrite n in n'.
  apply app_inv_head in v', i', n'.
  destruct b, b'; simpl in *; try discriminate;
    (split; [reflexivity | congruence]).
Qed.

Lemma one_hot_length flags : one_hot flags -> length flags = 3.
Proof. intros [-> | [-> | ->]]; reflexivity. Qed.

Lemma header_of_length (hdr : Row) : length (header_of hdr) = length hdr + 4.
Proof. unfold header_of. simpl. rewrite length_app. simpl. lia. Qed.

(** C10.  A row that no format resolved and a row that went through
    the handler are written to the invalid stream as read, followed
    by three ["No"], without a canonical SMILES in front.  Every row
    of the invalid stream is either of that shape or comes from a
    molecule without carbon, and only then does it start with the
    canonical SMILES.  For a row as wide as the header line of the
    input, the first shape is one field narrower than the header of
    the invalid stream and the second is as wide as it. *)
Theorem invalid_rows_differ_in_width fuel (row : Row) w :
  (forall s iu sm inch w2,
      reaches_resolution row s ->
      resolve_formats E fuel s (at_resolution row w) = (Ret (iu, sm, inch), w2) ->
      fst iu || fst sm || fst inch = false ->
      exists w3,
        process_row E fuel row w = (Ret tt, w3) /\
        emitted Invalid (row ++ ["No"; "No"; "No"]) w w3) /\
  (forall e w1,
      classify_row E fuel (at_row row w) = (Raise e, w1) ->
      exists w3,
        process_row E fuel row w = (Ret tt, w3) /\
        emitted Invalid (row ++ ["No"; "No"; "No"]) w w3) /\
  (forall w3 out,
      process_row E fuel row w = (Ret tt, w3) ->
      emitted Invalid out w w3 ->
      out = row ++ ["No"; "No"; "No"] \/
      exists s r w2 m,
        reaches_resolution row s /\
        resolve_formats E fuel s (at_resolution row w) = (Ret r, w2) /\
        first_mol r = Some m /\
        molecule_has_carbon E (Some m) = false /\
        one_hot (resolution_info_of E r) /\
        out = Chem_MolToSmiles E m :: row ++ resolution_info_of E r) /\
  (forall hdr : Row,
      length row = length hdr ->
      length (row ++ ["No"; "No"; "No"]) + 1 = length (header_of hdr) /\
      forall c flags,
        one_hot flags -> length (c :: row ++ flags) = length (header_of hdr)).
Proof.
  split; [| split; [| split]].
  - intros s iu sm inch w2 Hreach Hres Hnone.
    destruct (process_row_returned fuel row s w _ _ Hreach Hres)
      as (w3 & Hrun & Hfm & _ & Hout).
    destruct (first_mol_of_flags iu sm inch Hfm) as [Hflags _].
    rewrite Hnone in Hflags.
    destruct (first_mol (iu, sm, inch)) as [m |]; [discriminate |].
    exists w3. split; [exact Hrun | apply Hout].
  - intros e w1 Hraise.
    destruct (classify_row_raises E fuel _ _ _ Hraise) as [-> _].
    destruct (process_row_fault E fuel row w e Hraise) as (w3 & Hrun & Hem & _).
    exists w3. auto.
  - intros w3 out Hrun Hem.
    destruct (row_gate_cases row)
      as [H0 | [(s & H0 & Hs) | [(s & H0 & H1 & H2 & Hu)
         | [(s & e & H0 & H1 & H2 & Hu) | (s & Hreach)]]]].
    + destruct (process_row_fault E fuel row w _ (classify_row_short E fuel row w H0))
        as (w' & Hrun' & Hem' & _).
      rewrite Hrun in Hrun'. injection Hrun' as <-.
      left. apply (emitted_inj _ _ _ _ _ _ Hem Hem').
    + exfalso.
      rewrite (process_row_placeholder E fuel row s w H0 Hs) in Hrun.
      injection Hrun as <-.
      assert (Hem' : emitted NoInfo (take 10 row) w
                 (snd (no_info_writerow (take 10 row) (at_row row w))))
        by (apply emitted_no_info; reflexivity).
      destruct (emitted_inj _ _ _ _ _ _ Hem Hem') as [Hb _]. discriminate.
    + exfalso.
      rewrite (process_row_useless E fuel row s w H0 H1 H2 Hu) in Hrun.
      injection Hrun as <-.
      assert (Hem' : emitted NoInfo (take 10 row) w
                 (snd ((logging_info "Skipping row due to no useful information: {row}"
                                     [ARow row] ;;;
                        no_info_writerow (take 10 row)) (at_row row w))))
        by (apply emitted_no_info; reflexivity).
      destruct (emitted_inj _ _ _ _ _ _ Hem Hem') as [Hb _]. discriminate.
    + destruct (process_row_fault E fuel row w _
                  (classify_row_short_aux E fuel row s e w H0 H1 H2 Hu))
        as (w' & Hrun' & Hem' & _).
      rewrite Hrun in Hrun'. injection Hrun' as <-.
      left. apply (emitted_inj _ _ _ _ _ _ Hem Hem').
    + pose proof (process_row_resolution_spec E fuel row s w Hreach) as Hspec.
      rewrite Hrun in Hspec.
      destruct Hspec as (r & w2 & Hr & _ & _ & Hout).
      destruct (first_mol r) as [m |] eqn:Hm; destruct Hout as [Hem' Hfl].
      * destruct (emitted_inj _ _ _ _ _ _ Hem Hem') as [Hb ->].
        right. exists s, r, w2, m.
        split; [exact Hreach |]. split; [exact Hr |]. split; [exact Hm |].
        split; [| split; [exact Hfl | reflexivity]].
        simpl. destruct (any_carbon (atomic_nums E m)); [discriminate | reflexivity].
      * left. apply (emitted_inj _ _ _ _ _ _ Hem Hem').
  - intros hdr Hlen. rewrite header_of_length. split.
    + rewrite length_app. simpl. lia.
    + intros c flags Hone. simpl. rewrite length_app, (one_hot_length flags Hone). lia.
Qed.

Lemma count_yes_first_match (r : Outcome E * Outcome E * Outcome E) :
  first_match_only r -> count_yes (resolution_info_of E r) <= 1.
Proof.
  destruct r as [[[b1 m1] [b2 m2]] [b3 m3]].
  unfold first_match_only. simpl. intros (_ & _ & _ & H4 & H5).
  destruct b1, b2, b3; simpl; try lia;
    try (destruct (H4 eq_refl) as [? ?]; discriminate);
    try (pose proof (H5 eq_refl); discriminate).
Qed.

(** The attempts when IUPAC fails and SMILES succeeds. *)
Lemma resolve_formats_smiles fuel s w1 mi w2 m w3 :
  validate_identifier E fuel s "iupac" w1 = (Ret (false, mi), w2) ->
  validate_identifier E fuel s "smiles" w2 = (Ret (true, Some m), w3) ->
  resolve_formats E fuel s w1
  = (Ret ((false, mi), (true, Some m), (false, None)), w3).
Proof.
  intros H1 H2. unfold resolve_formats, bind. rewrite H1. simpl.
  rewrite H2. reflexivity.
Qed.

(** The attempts when IUPAC succeeds. *)
Lemma resolve_formats_iupac fuel s w1 m w2 :
  validate_identifier E fuel s "iupac" w1 = (Ret (true, m), w2) ->
  resolve_formats E fuel s w1
  = (Ret ((true, m), (false, None), (false, None)), w2).
Proof.
  intros H1. unfold resolve_formats, bind. rewrite H1. reflexivity.
Qed.

(** C4.  As amended: for a row that reaches the resolution step the
    formats are tried in the order IUPAC, SMILES, InChI and the
    attempts stop at the first success, so at most one of the three
    flags of the output row is ["Yes"].  An identifier that resolves
    as SMILES and as InChI gets the flags No/Yes/No, without an InChI
    attempt, when the IUPAC attempt fails; when the IUPAC attempt
    succeeds the flags are Yes/No/No and neither SMILES nor InChI is
    tried. *)
Theorem formats_are_tried_in_priority_order fuel (row : Row) s w :
  reaches_resolution row s ->
  (forall w3,
      process_row E fuel row w = (Ret tt, w3) ->
      exists iu sm inch w2 b out,
        resolve_formats E fuel s (at_resolution row w) = (Ret (iu, sm, inch), w2) /\
        attempts w3 = attempts w ++ attempted s (iu, sm, inch) /\
        emitted b out w w3 /\
        (out = row ++ resolution_info_of E (iu, sm, inch) \/
         exists c, out = c :: row ++ resolution_info_of E (iu, sm, inch)) /\
        count_yes (resolution_info_of E (iu, sm, inch)) <= 1) /\
  (forall mi w1,
      validate_identifier E fuel s "iupac" (at_resolution row w) = (Ret (false, mi), w1) ->
      (forall w0, exists m w0',
          validate_identifier E fuel s "smiles" w0 = (Ret (true, Some m), w0')) ->
      (forall w0, exists m w0',
          validate_identifier E fuel s "inchi" w0 = (Ret (true, Some m), w0')) ->
      exists c b w3,
        process_row E fuel row w = (Ret tt, w3) /\
        emitted b (c :: row ++ ["No"; "Yes"; "No"]) w w3 /\
        attempts w3 = attempts w ++ [(s, "iupac"); (s, "smiles")]) /\
  (forall m w1,
      validate_identifier E fuel s "iupac" (at_resolution row w) = (Ret (true, m), w1) ->
      exists c b w3,
        process_row E fuel row w = (Ret tt, w3) /\
        emitted b (c :: row ++ ["Yes"; "No"; "No"]) w w3 /\
        attempts w3 = attempts w ++ [(s, "iupac")]).
Proof.
  intros Hreach. split; [| split].
  - intros w3 Hrun.
    pose proof (process_row_resolution_spec E fuel row s w Hreach) as Hspec.
    rewrite Hrun in Hspec.
    destruct Hspec as ([[iu sm] inch] & w2 & Hr & Hfm & Hatt & Hout).
    pose proof (count_yes_first_match _ Hfm) as Hcount.
    destruct (first_mol (iu, sm, inch)) as [m |]; destruct Hout as [Hem Hfl].
    + exists iu, sm, inch, w2. eexists _, _.
      split; [exact Hr |]. split; [exact Hatt |]. split; [exact Hem |].
      split; [right; eexists; reflexivity | exact Hcount].
    + exists iu, sm, inch, w2. eexists _, _.
      split; [exact Hr |]. split; [exact Hatt |]. split; [exact Hem |].
      split; [left; rewrite Hfl; reflexivity | exact Hcount].
  - intros mi w1 Hiupac Hsmiles _.
    destruct (Hsmiles w1) as (m & w2 & Hsm).
    pose proof (resolve_formats_smiles _ _ _ _ _ _ _ Hiupac Hsm) as Hres.
    destruct (process_row_returned fuel row s w _ _ Hreach Hres)
      as (w3 & Hrun & Hfm & Hatt & Hout).
    destruct Hfm as (Hco & _). unfold coherent in Hco. simpl in Hco.
    destruct mi as [x |]; [discriminate |]. simpl in Hout, Hatt.
    destruct Hout as [Hem _].
    eexists _, _, w3. split; [exact Hrun |]. split; [exact Hem | exact Hatt].
  - intros m w1 Hiupac.
    pose proof (resolve_formats_iupac _ _ _ _ _ Hiupac) as Hres.
    destruct (process_row_returned fuel row s w _ _ Hreach Hres)
      as (w3 & Hrun & Hfm & Hatt & Hout).
    destruct Hfm as (Hco & _). unfold coherent in Hco. simpl in Hco.
    destruct m as [x |]; [| discriminate]. simpl in Hout, Hatt.
    destruct Hout as [Hem _].
    eexists _, _, w3. split; [exact Hrun |]. split; [exact Hem | exact Hatt].
Qed.

End RowClaims.

(** * Properties of the batch driver *)

Section Batch.

Context (E : Env).

Lemma outs_cons b b' out cls :
  outs b' ((b, out) :: cls) = only_row b b' out ++ outs b' cls.
Proof.
  unfold outs, only_row. simpl. destruct (bucket_eqb b b'); reflexivity.
Qed.

(** Every classified row is in the list of exactly one stream. *)
Lemma outs_total cls :
  length (outs Valid cls) + length (outs Invalid cls) + length (outs NoInfo cls)
  = length cls.
Proof.
  induction cls as [| [b out] cls IH]; [reflexivity |].
  rewrite !outs_cons, !length_app. unfold only_row.
  destruct b; simpl; lia.
Qed.

(** The loop over the rows.  Whatever the rows and the services, the
    rows handled so far have each been written once, to one stream,
    in the order of the input; when the loop returns, all rows have
    been handled. *)
Lemma for_rows_partition fuel : forall rows w,
  exists cls,
    valid_out (snd (for_rows E fuel rows w)) = valid_out w ++ outs Valid cls /\
    invalid_out (snd (for_rows E fuel rows w)) = invalid_out w ++ outs Invalid cls /\
    no_info_out (snd (for_rows E fuel rows w)) = no_info_out w ++ outs NoInfo cls /\
    Forall2 (fun row c => row_outcome row (fst c) (snd c))
            (take (length cls) rows) cls /\
    (fst (for_rows E fuel rows w) = Ret tt -> length cls = length rows).
Proof.
  induction rows as [| row rest IH]; intros w.
  - exists []. simpl. rewrite !app_nil_r. repeat split. constructor.
  - simpl. unfold bind.
    pose proof (process_row_cases E fuel row w) as Hc.
    destruct (process_row E fuel row w) as [[[] | e |] w1]; [| destruct Hc |].
    + destruct Hc as (b & out & (Hv & Hi & Hn) & Hshape).
      destruct (IH w1) as (cls & Hv' & Hi' & Hn' & Hall & Hlen).
      exists ((b, out) :: cls). rewrite !outs_cons.
      rewrite Hv', Hi', Hn', Hv, Hi, Hn, <- !app_assoc.
      repeat split.
      * simpl. constructor; [exact Hshape | exact Hall].
      * intros Hret. simpl. f_equal. apply Hlen. exact Hret.
    + exists []. simpl. rewrite !app_nil_r.
      destruct Hc as (Hv & Hi & Hn). repeat split; try assumption.
      * constructor.
      * discriminate.
Qed.

Lemma nodiverge_process_row fuel row :
  never_down E -> NoDiverge (process_row E (S fuel) row).
Proof.
  intros Hup w Hd.
  destruct (row_gate_cases row)
    as [H0 | [(s & H0 & Hs) | [(s & H0 & H1 & H2 & Hu)
       | [(s & e & H0 & H1 & H2 & Hu) | (s & Hreach)]]]].
  - destruct (process_row_fault E (S fuel) row w _
                (classify_row_short E (S fuel) row w H0)) as (w' & Hrun & _).
    rewrite Hrun in Hd. discriminate.
  - rewrite (process_row_placeholder E (S fuel) row s w H0 Hs) in Hd. discriminate.
  - rewrite (process_row_useless E (S fuel) row s w H0 H1 H2 Hu) in Hd. discriminate.
  - destruct (process_row_fault E (S fuel) row w _
                (classify_row_short_aux E (S fuel) row s e w H0 H1 H2 Hu))
      as (w' & Hrun & _).
    rewrite Hrun in Hd. discriminate.
  - rewrite (process_row_resolution E (S fuel) row s w Hreach) in Hd.
    pose proof (resolve_and_write_spec E (S fuel) s (at_resolution row w)) as Hs.
    destruct (resolve_and_write E (S fuel) s (at_resolution row w))
      as [[[] | e |] w3]; try discriminate.
    apply (nodiverge_resolve_formats E fuel s Hup (at_resolution row w)).
    rewrite Hs. reflexivity.
Qed.

Lemma nodiverge_for_rows fuel rows :
  never_down E -> NoDiverge (for_rows E (S fuel) rows).
Proof.
  intros Hup. induction rows as [| row rest IH]; simpl; [apply nodiverge_ret |].
  apply nodiverge_bind; [apply nodiverge_process_row; exact Hup | intros _; exact IH].
Qed.

(** The three files after a run on a file with a header line. *)
Lemma process_results_eq fuel hdr rows w :
  process_results E fuel (hdr :: rows) w =
  for_rows E fuel rows
    (mkWorld (calls w) (slept w) (log w) (attempts w)
             [header_of hdr] [header_of hdr] [take 10 (header_of hdr)] (row_var w)).
Proof. reflexivity. Qed.

(** C1.  A run of [process_results] on a file with a header line and
    the data rows [rows] never ends in an exception.  Each stream
    holds its header line followed by the rows classified into it;
    the classification has one entry, with one bucket and one output
    row derived from the input row, for each data row handled, in the
    order of the input.  When the run returns every data row has been
    handled, so the three counts of data rows add up to the number of
    input data rows; the run returns whenever the name service shows
    no outage. *)
Theorem every_row_lands_in_exactly_one_stream fuel (hdr : Row) (rows : list Row) w :
  exists cls : list (Bucket * Row),
    (forall e, fst (process_results E fuel (hdr :: rows) w) <> Raise e) /\
    valid_out (snd (process_results E fuel (hdr :: rows) w))
      = header_of hdr :: outs Valid cls /\
    invalid_out (snd (process_results E fuel (hdr :: rows) w))
      = header_of hdr :: outs Invalid cls /\
    no_info_out (snd (process_results E fuel (hdr :: rows) w))
      = take 10 (header_of hdr) :: outs NoInfo cls /\
    Forall2 (fun row c => row_outcome row (fst c) (snd c))
            (take (length cls) rows) cls /\
    length (outs Valid cls) + length (outs Invalid cls) + length (outs NoInfo cls)
      = length cls /\
    (fst (process_results E fuel (hdr :: rows) w) = Ret tt ->
     length cls = length rows /\
     length (outs Valid cls) + length (outs Invalid cls) + length (outs NoInfo cls)
       = length rows) /\
    (never_down E -> 1 <= fuel ->
     fst (process_results E fuel (hdr :: rows) w) = Ret tt).
Proof.
  rewrite process_results_eq.
  match goal with
  | |- context [for_rows E fuel rows ?w0] =>
      destruct (for_rows_partition fuel rows w0) as (cls & Hv & Hi & Hn & Hall & Hlen);
      pose proof (noraise_for_rows E fuel rows w0) as Hnr;
      pose proof (fun f Hup => nodiverge_for_rows f rows Hup w0) as Hnd
  end.
  exists cls. simpl in Hv, Hi, Hn.
  split; [exact Hnr |].
  split; [exact Hv |]. split; [exact Hi |]. split; [exact Hn |].
  split; [exact Hall |]. split; [apply outs_total |]. split.
  - intros Hret. split; [apply Hlen; exact Hret |].
    rewrite outs_total. apply Hlen. exact Hret.
  - intros Hup Hfuel. destruct fuel as [| fuel]; [lia |].
    specialize (Hnd fuel Hup).
    destruct (for_rows E (S fuel) rows _) as [[[] | e |] w']; simpl in *.
    + reflexivity.
    + destruct (Hnr e eq_refl).
    + destruct (Hnd eq_refl).
Qed.

(** The first line of each stream after a run. *)
Lemma stream_headers fuel (hdr : Row) (rows : list Row) w :
  head (valid_out (snd (process_results E fuel (hdr :: rows) w)))
    = Some (header_of hdr) /\
  head (invalid_out (snd (process_results E fuel (hdr :: rows) w)))
    = Some (header_of hdr) /\
  head (no_info_out (snd (process_results E fuel (hdr :: rows) w)))
    = Some (take 10 (header_of hdr)).
Proof.
  rewrite process_results_eq.
  match goal with
  | |- context [for_rows E fuel rows ?w0] =>
      destruct (for_rows_partition fuel rows w0) as (cls & Hv & Hi & Hn & _)
  end.
  rewrite Hv, Hi, Hn. repeat split.
Qed.

(** C3.  The header lines of the three streams.  The valid and the
    invalid stream start with the header of the input with
    [canonical_smiles] in front and the three flag columns behind.
    The no-info stream starts with the first ten columns of that
    same enriched header: [canonical_smiles] and the first nine
    columns of the input header. *)
Theorem no_info_header_is_cut_from_the_enriched_header fuel (hdr : Row) (rows : list Row) w :
  head (valid_out (snd (process_results E fuel (hdr :: rows) w)))
    = Some ("canonical_smiles" :: hdr ++
            ["iupac_resolved"; "smiles_resolved"; "inchi_resolved"]) /\
  head (invalid_out (snd (process_results E fuel (hdr :: rows) w)))
    = Some ("canonical_smiles" :: hdr ++
            ["iupac_resolved"; "smiles_resolved"; "inchi_resolved"]) /\
  head (no_info_out (snd (process_results E fuel (hdr :: rows) w)))
    = Some ("canonical_smiles" ::
            take 9 (hdr ++ ["iupac_resolved"; "smiles_resolved"; "inchi_resolved"])) /\
  head (no_info_out (snd (process_results E fuel (lab_header :: rows) w)))
    = Some ["canonical_smiles"; "name"; "c1"; "c2"; "c3"; "c4"; "c5"; "c6"; "c7"; "c8"] /\
  head (no_info_out (snd (process_results E fuel (lab_header :: rows) w)))
    <> Some (take 10 lab_header).
Proof.
  destruct (stream_headers fuel hdr rows w)
    as (Hv & Hi & Hn).
  destruct (stream_headers fuel lab_header rows w)
    as (_ & _ & Hn').
  rewrite Hv, Hi, Hn, Hn'. repeat split. discriminate.
Qed.

End Batch.

(** * The properties at work in the laboratory *)

Lemma lab_never_down : never_down Lab.env.
Proof.
  intros n s e. simpl. unfold Lab.cirpy.
  destruct (String.eqb s "methane"); [discriminate |].
  destruct (String.eqb s "[CH4]"); discriminate.
Qed.


(** The SMILES parser of the laboratory crashes on ["[boom"]: the
    call logs the error and returns [(False, None)]. *)
Lemma validate_identifier_in_the_lab :
  fst (validate_identifier Lab.env 1 "[boom" "smiles" world0) = Ret (false, None) /\
  (exists out w', validate_identifier Lab.env 1 "[boom" "inchi" world0 = (Ret out, w')) /\
  (exists out w', validate_identifier Lab.env 1 "methane" "iupac" world0 = (Ret out, w')).
Proof.
  split; [| split].
  - destruct (validate_identifier_never_raises Lab.env 1 "[boom" "smiles" world0)
      as (_ & Hcaught & _).
    rewrite (Hcaught (mkExn "RuntimeError" "parser crashed")
               (snd (note_attempt "[boom" "smiles" world0))
               ltac:(discriminate) ltac:(discriminate) eq_refl).
    reflexivity.
  - destruct (validate_identifier_never_raises Lab.env 1 "[boom" "inchi" world0)
      as (_ & _ & Hlocal & _).
    apply Hlocal. right. reflexivity.
  - destruct (validate_identifier_never_raises Lab.env 0 "methane" "iupac" world0)
      as (_ & _ & _ & Hup).
    apply Hup. exact lab_never_down.
Defined.

Lemma placeholder_row_in_the_lab :
  exists w',
    process_row Lab.env 1 lab_row_null world0 = (Ret tt, w') /\
    emitted NoInfo (take 10 lab_row_null) world0 w' /\
    attempts w' = attempts world0 /\
    calls w' = calls world0 /\
    slept w' = slept world0 /\
    log w' = log world0.
Proof.
  apply (placeholder_row_is_no_info Lab.env 1 lab_row_null "null" world0);
    [reflexivity | left; reflexivity].
Defined.

Lemma lookup_in_columns (P : nat -> Prop) :
  P 2 -> P 3 -> P 4 -> P 5 -> P 6 -> forall i, 2 <= i < 7 -> P i.
Proof.
  intros H2 H3 H4 H5 H6 i Hi.
  destruct i as [| [| [| [| [| [| [| i]]]]]]]; try lia; assumption.
Qed.

(** A row with empty strings in columns 2..6 reaches the resolution
    step; a row with ["null"] in all of them does not. *)
Lemma only_null_is_a_placeholder_in_the_lab :
  (reaches_resolution lab_row_smiles_inchi "[13CH4]" /\
   no_info_out (snd (process_row Lab.env 1 lab_row_smiles_inchi world0)) = [] /\
   exists rest,
     attempts (snd (process_row Lab.env 1 lab_row_smiles_inchi world0))
     = [] ++ ("[13CH4]", "iupac") :: rest) /\
  (exists w',
     process_row Lab.env 1
       ["methane"; ""; "null"; "null"; "null"; "null"; "null"; ""; ""; "ref6"] world0
     = (Ret tt, w') /\
     emitted NoInfo
       (take 10 ["methane"; ""; "null"; "null"; "null"; "null"; "null"; ""; ""; "ref6"])
       world0 w' /\
     attempts w' = []).
Proof.
  split.
  - destruct (only_null_is_a_placeholder Lab.env 1 lab_row_smiles_inchi "[13CH4]" world0
                eq_refl ltac:(discriminate) ltac:(discriminate))
      as (_ & Hempty & _).
    apply Hempty. apply lookup_in_columns; reflexivity.
  - destruct (only_null_is_a_placeholder Lab.env 1
                ["methane"; ""; "null"; "null"; "null"; "null"; "null"; ""; ""; "ref6"]
                "methane" world0
                eq_refl ltac:(discriminate) ltac:(discriminate))
      as (_ & _ & Hnull).
    apply Hnull. apply lookup_in_columns; reflexivity.
Defined.

(** An empty line of the input raises [IndexError] at [row[0]]. *)
Lemma row_fault_in_the_lab :
  (exists w',
     process_row Lab.env 1 [] world0 = (Ret tt, w') /\
     emitted Invalid ([] ++ ["No"; "No"; "No"]) world0 w' /\
     log w' = log world0 ++
              [mkLog ERROR "Error processing row: {row}. Error: {str(e)}"
                     [ARow []; AStr "list index out of range"]] /\
     forall rest, for_rows Lab.env 1 ([] :: rest) world0 = for_rows Lab.env 1 rest w') /\
  (forall rows w0 e', fst (for_rows Lab.env 1 rows w0) <> Raise e').
Proof.
  apply (row_fault_is_caught Lab.env 1 [] world0
           (mkExn "IndexError" "list index out of range") (at_row [] world0)).
  reflexivity.
Defined.

Lemma lab_reaches_smiles_inchi : reaches_resolution lab_row_smiles_inchi "[13CH4]".
Proof. repeat split; discriminate. Qed.

Lemma lab_reaches_potassium : reaches_resolution lab_row_potassium "[K+]".
Proof. repeat split; discriminate. Qed.

Lemma lab_reaches_all_formats : reaches_resolution lab_row_all_formats "[CH4]".
Proof. repeat split; discriminate. Qed.

Lemma lab_reaches_unknown : reaches_resolution lab_row_unknown "unobtainium".
Proof. repeat split; discriminate. Qed.

(** The attempts of the laboratory on the rows of the exercises. *)
Lemma lab_attempts_smiles_inchi :
  resolve_formats Lab.env 1 "[13CH4]" (at_resolution lab_row_smiles_inchi world0)
  = (Ret ((false, None), (true, Some [6%Z]), (false, None)),
     snd (resolve_formats Lab.env 1 "[13CH4]" (at_resolution lab_row_smiles_inchi world0))).
Proof. vm_compute. reflexivity. Qed.

Lemma lab_attempts_potassium :
  resolve_formats Lab.env 1 "[K+]" (at_resolution lab_row_potassium world0)
  = (Ret ((false, None), (true, Some [19%Z]), (false, None)),
     snd (resolve_formats Lab.env 1 "[K+]" (at_resolution lab_row_potassium world0))).
Proof. vm_compute. reflexivity. Qed.

Lemma lab_attempts_unknown :
  resolve_formats Lab.env 1 "unobtainium" (at_resolution lab_row_unknown world0)
  = (Ret ((false, None), (false, None), (false, None)),
     snd (resolve_formats Lab.env 1 "unobtainium" (at_resolution lab_row_unknown world0))).
Proof. vm_compute. reflexivity. Qed.

Lemma lab_name_unresolved :
  validate_identifier Lab.env 1 "[13CH4]" "iupac" (at_resolution lab_row_smiles_inchi world0)
  = (Ret (false, None),
     snd (validate_identifier Lab.env 1 "[13CH4]" "iupac"
            (at_resolution lab_row_smiles_inchi world0))).
Proof. vm_compute. reflexivity. Qed.

Lemma lab_name_resolved :
  validate_identifier Lab.env 1 "[CH4]" "iupac" (at_resolution lab_row_all_formats world0)
  = (Ret (true, Some [6%Z]),
     snd (validate_identifier Lab.env 1 "[CH4]" "iupac"
            (at_resolution lab_row_all_formats world0))).
Proof. vm_compute. reflexivity. Qed.

(** The local formats do not look at the world. *)
Lemma lab_smiles_anywhere s m :
  s <> "null" -> PyStr.truthy s = true -> PyStr.startswith s "[" = true ->
  Lab.parse_smiles s = Returns (Some m) ->
  forall w0, exists m' w0',
    validate_identifier Lab.env 1 s "smiles" w0 = (Ret (true, Some m'), w0').
Proof.
  intros Hnull Htruthy Hbracket Hparse w0. exists m.
  unfold validate_identifier, validate_identifier_body, bind at 1. simpl.
  apply String.eqb_neq in Hnull. rewrite Hnull, Htruthy. simpl.
  unfold bind, try_except, validate_dispatch, validate_smiles, MolFromSmiles. simpl.
  rewrite Hbracket. unfold bind. simpl. rewrite Hparse. simpl.
  eexists. reflexivity.
Qed.

Lemma lab_inchi_anywhere s m :
  s <> "null" -> PyStr.truthy s = true ->
  Lab.parse_inchi s = Returns (Some m) ->
  forall w0, exists m' w0',
    validate_identifier Lab.env 1 s "inchi" w0 = (Ret (true, Some m'), w0').
Proof.
  intros Hnull Htruthy Hparse w0. exists m.
  unfold validate_identifier, validate_identifier_body, bind at 1. simpl.
  apply String.eqb_neq in Hnull. rewrite Hnull, Htruthy. simpl.
  unfold bind, try_except, validate_dispatch, validate_inchi, MolFromInchi. simpl.
  unfold bind. simpl. rewrite Hparse. simpl.
  eexists. reflexivity.
Qed.

(** A carbon row resolved as SMILES goes to the valid stream with the
    flags No/Yes/No behind it and ["C"] in front. *)
Lemma resolved_row_in_the_lab :
  exists w3,
    process_row Lab.env 1 lab_row_smiles_inchi world0 = (Ret tt, w3) /\
    emitted Valid ("C" :: lab_row_smiles_inchi ++ ["No"; "Yes"; "No"]) world0 w3.
Proof.
  destruct (resolved_row_is_classified_by_carbon Lab.env 1 lab_row_smiles_inchi
              "[13CH4]" world0 (false, None) (true, Some [6%Z]) (false, None) _
              lab_reaches_smiles_inchi lab_attempts_smiles_inchi eq_refl)
    as (m & w3 & Hm & _ & _ & _ & Hrun & _ & _ & Hvalid & _).
  injection Hm as <-.
  exists w3. split; [exact Hrun | apply Hvalid; reflexivity].
Defined.

(** In the laboratory the three shapes of invalid rows occur: the
    unknown identifier and the empty line without canonical SMILES,
    the potassium ion with it. *)
Lemma invalid_rows_in_the_lab :
  (exists w3,
     process_row Lab.env 1 lab_row_unknown world0 = (Ret tt, w3) /\
     emitted Invalid (lab_row_unknown ++ ["No"; "No"; "No"]) world0 w3) /\
  (exists w3,
     process_row Lab.env 1 [] world0 = (Ret tt, w3) /\
     emitted Invalid ([] ++ ["No"; "No"; "No"]) world0 w3) /\
  (forall w3 out,
     process_row Lab.env 1 lab_row_potassium world0 = (Ret tt, w3) ->
     emitted Invalid out world0 w3 ->
     out = "[K+]" :: lab_row_potassium ++ ["No"; "Yes"; "No"]) /\
  length (lab_row_unknown ++ ["No"; "No"; "No"]) + 1 = length (header_of lab_header).
Proof.
  split; [| split; [| split]].
  - destruct (invalid_rows_differ_in_width Lab.env 1 lab_row_unknown world0)
      as (Hnone & _).
    apply (Hnone "unobtainium" _ _ _ _ lab_reaches_unknown lab_attempts_unknown).
    reflexivity.
  - destruct (invalid_rows_differ_in_width Lab.env 1 [] world0)
      as (_ & Hfault & _).
    apply (Hfault (mkExn "IndexError" "list index out of range") (at_row [] world0)).
    reflexivity.
  - destruct (invalid_rows_differ_in_width Lab.env 1 lab_row_potassium world0)
      as (_ & _ & Hall & _).
    intros w3 out Hrun Hem.
    destruct (Hall w3 out Hrun Hem)
      as [-> | (s & r & w2 & m & (H0 & _) & Hres & Hm & _ & _ & ->)].
    + exfalso. destruct Hem as (_ & Hi & _).
      destruct (process_row_returned Lab.env 1 lab_row_potassium "[K+]" world0 _ _
                  lab_reaches_potassium lab_attempts_potassium)
        as (w3' & Hrun' & _ & _ & Hout).
      rewrite Hrun in Hrun'. injection Hrun' as <-.
      destruct Hout as [(_ & Hi' & _) _]. simpl in Hi'.
      rewrite Hi in Hi'. cbv in Hi'. discriminate Hi'.
    + injection H0 as <-. rewrite lab_attempts_potassium in Hres.
      injection Hres as <- _. injection Hm as <-. reflexivity.
  - destruct (invalid_rows_differ_in_width Lab.env 1 lab_row_unknown world0)
      as (_ & _ & _ & Hwidth).
    apply (Hwidth lab_header eq_refl).
Defined.

(** In the laboratory ["[13CH4]"] resolves as SMILES and as InChI but
    not as a name: flags No/Yes/No.  ["[CH4]"] resolves as a name too:
    flags Yes/No/No. *)
Lemma priority_order_in_the_lab :
  (exists c b w3,
     process_row Lab.env 1 lab_row_smiles_inchi world0 = (Ret tt, w3) /\
     emitted b (c :: lab_row_smiles_inchi ++ ["No"; "Yes"; "No"]) world0 w3 /\
     attempts w3 = attempts world0 ++ [("[13CH4]", "iupac"); ("[13CH4]", "smiles")]) /\
  (exists c b w3,
     process_row Lab.env 1 lab_row_all_formats world0 = (Ret tt, w3) /\
     emitted b (c :: lab_row_all_formats ++ ["Yes"; "No"; "No"]) world0 w3 /\
     attempts w3 = attempts world0 ++ [("[CH4]", "iupac")]).
Proof.
  split.
  - destruct (formats_are_tried_in_priority_order Lab.env 1 lab_row_smiles_inchi
                "[13CH4]" world0 lab_reaches_smiles_inchi) as (_ & Hsmiles & _).
    apply (Hsmiles None _ lab_name_unresolved).
    + apply (lab_smiles_anywhere "[13CH4]" [6%Z]); [discriminate | reflexivity ..].
    + apply (lab_inchi_anywhere "[13CH4]" [6%Z]); [discriminate | reflexivity ..].
  - destruct (formats_are_tried_in_priority_order Lab.env 1 lab_row_all_formats
                "[CH4]" world0 lab_reaches_all_formats) as (_ & _ & Hiupac).
    apply (Hiupac (Some [6%Z]) _ lab_name_resolved).
Defined.

Lemma lab_run_all_formats :
  process_row Lab.env 1 lab_row_all_formats world0
  = (Ret tt, snd (process_row Lab.env 1 lab_row_all_formats world0)) /\
  valid_out (snd (process_row Lab.env 1 lab_row_all_formats world0))
  = ["C" :: lab_row_all_formats ++ ["Yes"; "No"; "No"]] /\
  invalid_out (snd (process_row Lab.env 1 lab_row_all_formats world0)) = [] /\
  no_info_out (snd (process_row Lab.env 1 lab_row_all_formats world0)) = [].
Proof. vm_compute. repeat split. Qed.

(** The identifier ["[CH4]"] reaches the resolution step and resolves
    as SMILES and as InChI on its own, in every world; yet the row is
    written with the flags Yes/No/No, because it resolves as a name
    first: the SMILES flag is ["No"]. *)
Lemma smiles_flag_is_no_when_the_name_resolves :
  reaches_resolution lab_row_all_formats "[CH4]" /\
  (forall w0, exists m w0',
      validate_identifier Lab.env 1 "[CH4]" "smiles" w0 = (Ret (true, Some m), w0')) /\
  (forall w0, exists m w0',
      validate_identifier Lab.env 1 "[CH4]" "inchi" w0 = (Ret (true, Some m), w0')) /\
  process_row Lab.env 1 lab_row_all_formats world0
  = (Ret tt, snd (process_row Lab.env 1 lab_row_all_formats world0)) /\
  valid_out (snd (process_row Lab.env 1 lab_row_all_formats world0))
  = ["C" :: lab_row_all_formats ++ ["Yes"; "No"; "No"]] /\
  invalid_out (snd (process_row Lab.env 1 lab_row_all_formats world0)) = [] /\
  ~ (exists c b w3,
        process_row Lab.env 1 lab_row_all_formats world0 = (Ret tt, w3) /\
        emitted b (c :: lab_row_all_formats ++ ["No"; "Yes"; "No"]) world0 w3).
Proof.
  destruct lab_run_all_formats as (Hrun & Hv & Hi & Hn).
  split; [exact lab_reaches_all_formats |].
  split; [apply (lab_smiles_anywhere "[CH4]" [6%Z]); [discriminate | reflexivity ..] |].
  split; [apply (lab_inchi_anywhere "[CH4]" [6%Z]); [discriminate | reflexivity ..] |].
  split; [exact Hrun |]. split; [exact Hv |]. split; [exact Hi |].
  intros (c & b & w3 & Hrun' & Hem).
  rewrite Hrun in Hrun'. injection Hrun' as Hw3.
  destruct Hem as (Hv' & Hi' & Hn'). subst w3.
  destruct b; cbv in Hv', Hi'; discriminate.
Qed.

(** A run over a small file in the laboratory: six data rows, two in
    each stream. *)
Lemma every_row_lands_in_exactly_one_stream_in_the_lab :
  fst (process_results Lab.env 1
         [lab_header; lab_row_all_formats; lab_row_null; []; lab_row_potassium;
          lab_row_smiles_inchi;
          ["methane"; ""; "null"; "null"; "null"; "null"; "null"; ""; ""; "ref6"]]
         world0) = Ret tt /\
  exists cls : list (Bucket * Row),
    length cls = 6 /\
    length (outs Valid cls) + length (outs Invalid cls) + length (outs NoInfo cls) = 6.
Proof.
  destruct (every_row_lands_in_exactly_one_stream Lab.env 1 lab_header
              [lab_row_all_formats; lab_row_null; []; lab_row_potassium;
               lab_row_smiles_inchi;
               ["methane"; ""; "null"; "null"; "null"; "null"; "null"; ""; ""; "ref6"]]
              world0)
    as (cls & _ & _ & _ & _ & _ & _ & Hret & Hdone).
  assert (Hrun := Hdone lab_never_down (le_n 1)).
  split; [exact Hrun |].
  exists cls. apply Hret. exact Hrun.
Defined.

(** * Further properties of the resolver *)

Section CirpyLoop.

Context (E : Env).

Lemma time_sleep_calls s w : calls (snd (time_sleep s w)) = calls w.
Proof.
  unfold time_sleep.
  destruct (9223372036 <? Z.abs s)%Z; [reflexivity |].
  destruct (s <? 0)%Z; reflexivity.
Qed.

Lemma wait_calls_mono : forall fuel ws w,
  calls w <= calls (snd (wait_for_cactus_service E fuel ws w)).
Proof.
  induction fuel as [| fuel IH]; intros ws w;
    cbn [wait_for_cactus_service]; [simpl; lia |].
  unfold bind at 1. destruct (probe_up E (calls w)) eqn:Hp.
  - destruct (cactus_probe_up E ws w Hp) as (w1 & -> & Hc & _). simpl. lia.
  - destruct (cactus_probe_down E ws w Hp) as (w1 & -> & Hc & _).
    cbv beta iota. unfold bind at 1.
    pose proof (time_sleep_calls ws w1) as Hsl.
    destruct (time_sleep ws w1) as [[[] | e |] w2]; simpl in Hsl |- *.
    + specialize (IH ws w2). lia.
    + lia.
    + lia.
Qed.

Lemma cirpy_round_returns fuel s w r :
  cirpy_resolve E (calls w) s = Returns r ->
  cirpy_round E fuel s w = (Ret (Some r), tick w).
Proof.
  intros H. unfold cirpy_round, try_except, bind, cirpy_call. rewrite H. reflexivity.
Qed.

Lemma cirpy_round_foreign fuel s w e :
  cirpy_resolve E (calls w) s = Throws e ->
  cactus_down_signature (exn_str e) = false ->
  cirpy_round E fuel s w = (Raise e, tick w).
Proof.
  intros H Hsig. unfold cirpy_round, try_except, bind, cirpy_call.
  rewrite H, Hsig. reflexivity.
Qed.

Lemma cirpy_round_outage fuel s w e :
  cirpy_resolve E (calls w) s = Throws e ->
  cactus_down_signature (exn_str e) = true ->
  cirpy_round E fuel s w =
  match wait_for_cactus_service E fuel 300 (outage_reported s e w) with
  | (Ret _, w3) => (Ret None, w3)
  | (Raise e', w3) => (Raise e', w3)
  | (Diverge, w3) => (Diverge, w3)
  end.
Proof.
  intros H Hsig. unfold cirpy_round, try_except, bind at 1, cirpy_call.
  rewrite H, Hsig. reflexivity.
Qed.

(** X1.  [resolve_with_cirpy] lets through only what the name service
    raised itself, and never an error with the signature of an outage:
    an exception that leaves the loop was raised by one of the requests
    of this call, and its text holds neither 504, nor timeout, nor
    the refused connection. *)
Theorem resolve_with_cirpy_raises_only_foreign_errors :
  forall fuel s w e w',
    resolve_with_cirpy E fuel s w = (Raise e, w') ->
    cactus_down_signature (exn_str e) = false /\
    exists n, calls w <= n /\ cirpy_resolve E n s = Throws e.
Proof.
  induction fuel as [| fuel IH]; intros s w e w' Hrun; simpl in Hrun;
    [discriminate |].
  unfold bind in Hrun.
  destruct (cirpy_resolve E (calls w) s) as [r | e0] eqn:Hr.
  - rewrite (cirpy_round_returns fuel s w r Hr) in Hrun. discriminate.
  - destruct (cactus_down_signature (exn_str e0)) eqn:Hsig.
    + rewrite (cirpy_round_outage fuel s w e0 Hr Hsig) in Hrun.
      pose proof (wait_calls_mono fuel 300 (outage_reported s e0 w)) as Hmono.
      pose proof (noraise_wait_for_cactus_service E fuel 300 sleepable_300
                    (outage_reported s e0 w)) as Hnr.
      destruct (wait_for_cactus_service E fuel 300 (outage_reported s e0 w))
        as [[[] | e1 |] w3]; simpl in *.
      * destruct (IH _ _ _ _ Hrun) as (Hs & n & Hn & Hthrow).
        split; [exact Hs |]. exists n. split; [lia | exact Hthrow].
      * destruct (Hnr e1 eq_refl).
      * discriminate.
    + rewrite (cirpy_round_foreign fuel s w e0 Hr Hsig) in Hrun.
      injection Hrun as <- <-. split; [exact Hsig |].
      exists (calls w). split; [lia | exact Hr].
Qed.

(** X2.  An outage that ends.  The name service fails with the
    signature of an outage, the liveness endpoint then fails [k] times
    and answers, and the name service answers [r] to the next request:
    the call returns [r] after [k + 3] requests and [k] sleeps of 300
    seconds. *)
Theorem resolve_with_cirpy_rides_out_an_outage :
  forall k fuel s w e r,
    cirpy_resolve E (calls w) s = Throws e ->
    cactus_down_signature (exn_str e) = true ->
    (forall i, i < k -> probe_up E (S (calls w) + i) = false) ->
    probe_up E (S (calls w) + k) = true ->
    cirpy_resolve E (calls w + k + 2) s = Returns r ->
    k + 2 <= fuel ->
    exists w',
      resolve_with_cirpy E fuel s w = (Ret r, w') /\
      calls w' = calls w + k + 3 /\
      slept w' = slept w ++ replicate k 300%Z.
Proof.
  intros k fuel s w e r Hthrow Hsig Hdown Hup Hnext Hfuel.
  destruct fuel as [| [| fuel]]; try lia.
  change (resolve_with_cirpy E (S (S fuel)) s w)
    with (bind (cirpy_round E (S fuel) s)
               (fun r0 => match r0 with
                          | Some smiles => ret smiles
                          | None => resolve_with_cirpy E (S fuel) s
                          end) w).
  unfold bind. rewrite (cirpy_round_outage (S fuel) s w e Hthrow Hsig).
  destruct (wait_returns_after E k (S fuel) 300 (outage_reported s e w) sleepable_300)
    as (w3 & Hwait & Hc & Hs); [exact Hdown | exact Hup | lia |].
  rewrite Hwait. simpl in Hc, Hs.
  change (resolve_with_cirpy E (S fuel) s w3)
    with (bind (cirpy_round E fuel s)
               (fun r0 => match r0 with
                          | Some smiles => ret smiles
                          | None => resolve_with_cirpy E fuel s
                          end) w3).
  unfold bind.
  assert (Hat : cirpy_resolve E (calls w3) s = Returns r).
  { rewrite Hc. replace (S (calls w + S k)) with (calls w + k + 2) by lia. exact Hnext. }
  rewrite (cirpy_round_returns fuel s w3 r Hat). simpl.
  eexists. split; [reflexivity |]. simpl. split; [lia | exact Hs].
Qed.

(** X3.  While every request to the name service fails with the
    signature of an outage the call does not come back, whatever the
    liveness endpoint says and however many rounds it is given: an
    error that keeps coming and merely holds the digits 504 blocks the
    caller for good. *)
Theorem resolve_with_cirpy_blocks_on_a_lasting_signature :
  forall fuel s w,
    (forall n, calls w <= n ->
       exists e, cirpy_resolve E n s = Throws e /\
                 cactus_down_signature (exn_str e) = true) ->
    fst (resolve_with_cirpy E fuel s w) = Diverge.
Proof.
  induction fuel as [| fuel IH]; intros s w Hall; simpl; [reflexivity |].
  unfold bind.
  destruct (Hall (calls w) (le_n _)) as (e & Hthrow & Hsig).
  rewrite (cirpy_round_outage fuel s w e Hthrow Hsig).
  pose proof (wait_calls_mono fuel 300 (outage_reported s e w)) as Hmono.
  pose proof (noraise_wait_for_cactus_service E fuel 300 sleepable_300
                (outage_reported s e w)) as Hnr.
  destruct (wait_for_cactus_service E fuel 300 (outage_reported s e w))
    as [[[] | e1 |] w3]; simpl in *.
  - apply IH. intros n Hn. apply Hall. lia.
  - destruct (Hnr e1 eq_refl).
  - reflexivity.
Qed.

(** X27.  A negative wait is the one way out of the monitor other
    than a success.  [time.sleep] stands outside the [try]: with a
    negative [wait_seconds] a first probe that fails is followed by the
    [ValueError] of the sleep, which leaves the call after one request
    and no sleep, and a first probe that succeeds by a return as for
    any other wait. *)
Theorem wait_for_cactus_service_raises_on_a_negative_wait fuel (ws : Z) w :
  (-9223372036 <= ws < 0)%Z ->
  (probe_up E (calls w) = false ->
   exists w',
     wait_for_cactus_service E (S fuel) ws w
     = (Raise (mkExn "ValueError" "sleep length must be non-negative"), w') /\
     calls w' = S (calls w) /\ slept w' = slept w) /\
  (probe_up E (calls w) = true ->
   exists w',
     wait_for_cactus_service E (S fuel) ws w = (Ret tt, w') /\
     calls w' = S (calls w) /\ slept w' = slept w).
Proof.
  intros Hws. cbn [wait_for_cactus_service]. unfold bind at 1 3. split; intros Hp.
  - destruct (cactus_probe_down E ws w Hp) as (w1 & -> & Hc & Hs).
    cbv beta iota. unfold bind at 1. unfold time_sleep.
    replace (9223372036 <? Z.abs ws)%Z with false by (symmetry; apply Z.ltb_ge; lia).
    replace (ws <? 0)%Z with true by (symmetry; apply Z.ltb_lt; lia).
    exists w1. repeat split; assumption.
  - destruct (cactus_probe_up E ws w Hp) as (w1 & -> & Hc & Hs).
    exists w1. repeat split; assumption.
Qed.

End CirpyLoop.

(** * Further properties of the PubChem lookup *)

Section Offline.

Context {A B : Type}.

Lemma offline_ret (a : A) : Offline (ret a).
Proof. intros w. split; reflexivity. Qed.

Lemma offline_raise (e : Exn) : Offline (@raise A e).
Proof. intros w. split; reflexivity. Qed.

Lemma offline_of_raises (r : Raises A) : Offline (of_raises r).
Proof. destruct r; intros w; split; reflexivity. Qed.

Lemma offline_bind (m : M A) (k : A -> M B) :
  Offline m -> (forall a, Offline (k a)) -> Offline (bind m k).
Proof.
  intros Hm Hk w. unfold bind. destruct (Hm w) as [Hc Hs].
  destruct (m w) as [[a | e |] w1]; simpl in *; auto.
  destruct (Hk a w1) as [Hc' Hs']. split; congruence.
Qed.

Lemma offline_try (m : M A) (h : Exn -> M A) :
  Offline m -> (forall e, Offline (h e)) -> Offline (try_except m h).
Proof.
  intros Hm Hh w. unfold try_except. destruct (Hm w) as [Hc Hs].
  destruct (m w) as [[a | e |] w1]; simpl in *; auto.
  destruct (Hh e w1) as [Hc' Hs']. split; congruence.
Qed.

End Offline.

Lemma offline_logging lv tpl a : Offline (logging lv tpl a).
Proof. intros w. split; reflexivity. Qed.

Lemma offline_py_in k v : Offline (PyJson.py_in k v).
Proof. destruct v; intros w; split; reflexivity. Qed.

Lemma offline_getitem_key v k : Offline (PyJson.getitem_key v k).
Proof.
  destruct v; try (intros w; split; reflexivity).
  simpl. destruct (PyJson.assoc k kv); intros w; split; reflexivity.
Qed.

Lemma offline_py_len v : Offline (PyJson.py_len v).
Proof. destruct v; intros w; split; reflexivity. Qed.

Lemma offline_getitem_0 v : Offline (PyJson.getitem_0 v).
Proof.
  destruct v as [| | | s | l |]; try (intros w; split; reflexivity).
  - destruct s; intros w; split; reflexivity.
  - destruct l; intros w; split; reflexivity.
Qed.

Lemma offline_get v k : Offline (PyJson.get v k).
Proof. destruct v; intros w; split; reflexivity. Qed.

Create HintDb offline.
#[export] Hint Resolve offline_ret offline_raise offline_of_raises offline_logging
  offline_py_in offline_getitem_key offline_py_len offline_getitem_0 offline_get
  : offline.

Ltac offline := walk ltac:(eauto with offline) @offline_bind @offline_try.

Section PubChem.

Context (E : Env).

Lemma offline_has_properties data : Offline (has_properties data).
Proof. unfold has_properties. offline. Qed.

Lemma noraise_fetch_smiles_from_pubchem name :
  NoRaise (fetch_smiles_from_pubchem E name).
Proof.
  unfold fetch_smiles_from_pubchem.
  apply noraise_bind.
  - apply noraise_try. intros e.
    apply noraise_bind; [apply noraise_logging | intros; apply noraise_ret].
  - intros [v |]; apply noraise_ret.
Qed.

(** The request is the only one, and nobody sleeps. *)
Lemma fetch_smiles_from_pubchem_requests name w r w' :
  fetch_smiles_from_pubchem E name w = (r, w') ->
  calls w' = S (calls w) /\ slept w' = slept w.
Proof.
  pose proof offline_has_properties.
  unfold fetch_smiles_from_pubchem, bind at 1, try_except, bind at 1, http_get.
  destruct (requests_get E (calls w) (pubchem_url name)) as [resp | e].
  - match goal with
    | |- context [(let (r, w') := ?body (tick w) in _)] =>
        assert (Hoff : Offline body) by offline;
        destruct (Hoff (tick w)) as [Hc Hs];
        destruct (body (tick w)) as [[[v |] | e |] w1]
    end; simpl in *; intros [= <- <-]; auto.
  - simpl. intros [= <- <-]. auto.
Qed.

Lemma post_fetch_smiles_from_pubchem name :
  Post (fetch_smiles_from_pubchem E name) none_or_truthy.
Proof.
  unfold fetch_smiles_from_pubchem.
  eapply post_bind_strong
    with (Q := fun r => forall v, r = Some v -> PyJson.truthy v = true).
  - apply post_try.
    + apply post_bind; intros response. apply post_bind; intros data.
      apply post_bind; intros c. destruct c.
      * apply post_bind; intros table. apply post_bind; intros props.
        apply post_bind; intros first. apply post_bind; intros smiles.
        destruct (PyJson.truthy smiles) eqn:Ht;
          apply post_bind; intros _; apply post_ret.
        -- intros v [= <-]. exact Ht.
        -- intros v [=].
      * apply post_bind; intros _; apply post_ret. intros v [=].
    + intros e. apply post_bind; intros _; apply post_ret. intros v [=].
  - intros [v |] Hv; apply post_ret; [right; apply Hv; reflexivity | left; reflexivity].
Qed.

(** X4.  [fetch_smiles_from_pubchem] always comes back and never
    raises, whatever the network and the document do: it makes exactly
    one request, does not sleep, writes to no stream, and returns
    either [None] or a truthy value. *)
Theorem fetch_smiles_from_pubchem_is_total name w :
  exists v w',
    fetch_smiles_from_pubchem E name w = (Ret v, w') /\
    none_or_truthy v /\
    calls w' = S (calls w) /\
    slept w' = slept w /\
    same_files w w'.
Proof.
  destruct (returns_of (fetch_smiles_from_pubchem E name) w) as (v & w' & Hrun).
  - intros e. apply noraise_fetch_smiles_from_pubchem.
  - apply nodiverge_fetch_smiles_from_pubchem.
  - destruct (fetch_smiles_from_pubchem_requests name w _ _ Hrun) as [Hc Hs].
    pose proof (quiet_fetch_smiles_from_pubchem E name w) as Hq.
    rewrite Hrun in Hq. simpl in Hq.
    exists v, w'. split; [exact Hrun |].
    split; [exact (post_fetch_smiles_from_pubchem name _ _ _ Hrun) |]. auto.
Qed.

Lemma fetch_found
    name w resp doc table rec more v :
  requests_get E (calls w) (pubchem_url name) = Returns resp ->
  json_body resp = Returns (JObj doc) ->
  PyJson.assoc "PropertyTable" doc = Some (JObj table) ->
  PyJson.assoc "Properties" table = Some (JArr (JObj rec :: more)) ->
  PyJson.assoc "CanonicalSMILES" rec = Some v ->
  PyJson.truthy v = true ->
  fetch_smiles_from_pubchem E name w =
  (Ret v,
   pubchem_logged INFO "Successfully fetched SMILES from PubChem for {name}: {smiles}"
                  [AStr name; AJson v] w).
Proof.
  intros Hget Hbody Htable Hprops Hrec Htruthy.
  unfold fetch_smiles_from_pubchem, try_except, has_properties, http_get, bind.
  rewrite Hget. simpl. rewrite Hbody. simpl.
  repeat (first [rewrite Htable | rewrite Hprops | rewrite Hrec | rewrite Htruthy];
          simpl).
  reflexivity.
Qed.

(** X5.  On a document of the expected shape the lookup returns the
    [CanonicalSMILES] of the first record of
    [PropertyTable.Properties], whatever the other keys, the other
    records and the HTTP status are, and logs the find. *)
Theorem fetch_smiles_from_pubchem_finds_the_first_record
    name w resp doc table rec more v :
  requests_get E (calls w) (pubchem_url name) = Returns resp ->
  json_body resp = Returns (JObj doc) ->
  PyJson.assoc "PropertyTable" doc = Some (JObj table) ->
  PyJson.assoc "Properties" table = Some (JArr (JObj rec :: more)) ->
  PyJson.assoc "CanonicalSMILES" rec = Some v ->
  PyJson.truthy v = true ->
  fetch_smiles_from_pubchem E name w =
  (Ret v,
   pubchem_logged INFO "Successfully fetched SMILES from PubChem for {name}: {smiles}"
                  [AStr name; AJson v] w).
Proof. apply fetch_found. Qed.

Lemma fetch_no_list name w resp doc :
  requests_get E (calls w) (pubchem_url name) = Returns resp ->
  json_body resp = Returns (JObj doc) ->
  no_property_list doc ->
  fetch_smiles_from_pubchem E name w =
  (Ret JNull,
   pubchem_logged WARNING "PubChem returned no valid SMILES for {name}." [AStr name] w).
Proof.
  intros Hget Hbody Hno.
  unfold fetch_smiles_from_pubchem, try_except, has_properties, http_get, bind.
  rewrite Hget. simpl. rewrite Hbody. simpl.
  destruct Hno as [Hnone | (table & Htable & [Hprops | Hprops])].
  - rewrite Hnone. reflexivity.
  - repeat (first [rewrite Htable | rewrite Hprops]; simpl). reflexivity.
  - repeat (first [rewrite Htable | rewrite Hprops]; simpl). reflexivity.
Qed.

Lemma fetch_no_smiles name w resp doc :
  requests_get E (calls w) (pubchem_url name) = Returns resp ->
  json_body resp = Returns (JObj doc) ->
  no_smiles_in_first_record doc ->
  fetch_smiles_from_pubchem E name w =
  (Ret JNull,
   pubchem_logged WARNING "No SMILES found for {name} from PubChem." [AStr name] w).
Proof.
  intros Hget Hbody (table & rec & more & Htable & Hprops & Hrec).
  unfold fetch_smiles_from_pubchem, try_except, has_properties, http_get, bind.
  rewrite Hget. simpl. rewrite Hbody. simpl.
  destruct Hrec as [Hrec | (v & Hrec & Hfalsy)].
  - repeat (first [rewrite Htable | rewrite Hprops | rewrite Hrec]; simpl). reflexivity.
  - repeat (first [rewrite Htable | rewrite Hprops | rewrite Hrec | rewrite Hfalsy];
            simpl).
    reflexivity.
Qed.

(** X6.  A document without data gives [None] and a warning, not an
    error.  When the table or the list of records is missing or the
    list is empty the warning is "PubChem returned no valid SMILES";
    when the first record has no [CanonicalSMILES], or a falsy one,
    it is "No SMILES found".  The later records are not looked at. *)
Theorem fetch_smiles_from_pubchem_on_missing_data name w resp doc :
  requests_get E (calls w) (pubchem_url name) = Returns resp ->
  json_body resp = Returns (JObj doc) ->
  (no_property_list doc ->
   fetch_smiles_from_pubchem E name w =
   (Ret JNull,
    pubchem_logged WARNING "PubChem returned no valid SMILES for {name}." [AStr name] w)) /\
  (no_smiles_in_first_record doc ->
   fetch_smiles_from_pubchem E name w =
   (Ret JNull,
    pubchem_logged WARNING "No SMILES found for {name} from PubChem." [AStr name] w)).
Proof.
  intros Hget Hbody. split.
  - apply (fetch_no_list name w resp doc Hget Hbody).
  - apply (fetch_no_smiles name w resp doc Hget Hbody).
Qed.

Lemma fetch_fault name w e :
  lookup_fault E name w e ->
  fetch_smiles_from_pubchem E name w =
  (Ret JNull,
   pubchem_logged ERROR "Error fetching SMILES from PubChem for {name}: {str(e)}"
                  [AStr name; AStr (exn_str e)] w).
Proof.
  unfold fetch_smiles_from_pubchem, try_except, has_properties, http_get, bind.
  intros [Hget | (resp & Hget & [Hbody | (-> & [Hbody | [(b & Hbody) | (z & Hbody)]])])];
    rewrite Hget; simpl; try rewrite Hbody; reflexivity.
Qed.

(** X7.  A fault during the lookup stays inside it.  When the request
    raises, when the body is not JSON, or when the body is [null], a
    boolean or a number, the lookup returns [None] and logs the text of
    the exception as an error. *)
Theorem fetch_smiles_from_pubchem_swallows_faults name w e :
  lookup_fault E name w e ->
  fetch_smiles_from_pubchem E name w =
  (Ret JNull,
   pubchem_logged ERROR "Error fetching SMILES from PubChem for {name}: {str(e)}"
                  [AStr name; AStr (exn_str e)] w).
Proof. apply fetch_fault. Qed.

End PubChem.

(** * Further properties of [validate_identifier] *)

Section Formats.

Context (E : Env).

Lemma body_guard_false s :
  s <> "null" -> s <> "" ->
  String.eqb s "null" || negb (PyStr.truthy s) = false.
Proof.
  intros Hnull Hempty. apply orb_false_intro.
  - apply String.eqb_neq. exact Hnull.
  - destruct s; [congruence | reflexivity].
Qed.

(** X8.  The short circuits of [validate_identifier].  For the
    identifier ["null"], for the empty identifier, and for a format
    name other than the three known ones, the call returns
    [(False, None)] at once: no parser is called, no request is made,
    nothing is logged. *)
Theorem validate_identifier_short_circuits fuel (identifier identifier_type : string) w :
  identifier = "null" \/ identifier = "" \/
  (identifier_type <> "smiles" /\ identifier_type <> "inchi" /\
   identifier_type <> "iupac") ->
  validate_identifier E fuel identifier identifier_type w
  = (Ret (false, None), noted identifier identifier_type w).
Proof.
  intros Hcase. unfold validate_identifier, bind at 1. simpl.
  unfold validate_identifier_body.
  destruct (String.eqb identifier "null" || negb (PyStr.truthy identifier)) eqn:Hg;
    [reflexivity |].
  destruct Hcase as [-> | [-> | (H1 & H2 & H3)]]; try discriminate.
  apply String.eqb_neq in H1, H2, H3.
  unfold bind, try_except, validate_dispatch. rewrite H1, H2, H3. reflexivity.
Qed.

(** X9.  The SMILES format.  An identifier that does not begin with
    an opening bracket is never parsed: the answer is [(False, None)]
    with a warning, whatever RDKit would make of it.  One that begins
    with a bracket gets RDKit's answer: the molecule with [True], or
    [(False, None)] with an error record when RDKit returns [None], or
    [(False, None)] with the exception in the log when RDKit raises. *)
Theorem validate_identifier_as_smiles fuel (identifier : string) w :
  identifier <> "null" -> identifier <> "" ->
  (PyStr.startswith identifier "[" = false ->
   validate_identifier E fuel identifier "smiles" w
   = (Ret (false, None),
      logged WARNING "Skipping invalid SMILES input: {identifier}" [AStr identifier]
             (noted identifier "smiles" w))) /\
  (PyStr.startswith identifier "[" = true ->
   (forall m, Chem_MolFromSmiles E identifier = Returns (Some m) ->
      validate_identifier E fuel identifier "smiles" w
      = (Ret (true, Some m), noted identifier "smiles" w)) /\
   (Chem_MolFromSmiles E identifier = Returns None ->
      validate_identifier E fuel identifier "smiles" w
      = (Ret (false, None),
         logged ERROR "Invalid SMILES: {identifier}" [AStr identifier]
                (noted identifier "smiles" w))) /\
   (forall e, Chem_MolFromSmiles E identifier = Throws e ->
      validate_identifier E fuel identifier "smiles" w
      = (Ret (false, None),
         logged ERROR "Unexpected error for {identifier_type}: {identifier}. Error: {str(e)}"
                [AStr "smiles"; AStr identifier; AStr (exn_str e)]
                (noted identifier "smiles" w)))).
Proof.
  intros Hnull Hempty.
  pose proof (body_guard_false identifier Hnull Hempty) as Hg.
  unfold validate_identifier, bind at 1. simpl. unfold validate_identifier_body.
  rewrite Hg.
  unfold bind, try_except, validate_dispatch, validate_smiles, MolFromSmiles, bind.
  simpl. split.
  - intros Hb. rewrite Hb. reflexivity.
  - intros Hb. rewrite Hb. repeat split.
    + intros m Hm. rewrite Hm. reflexivity.
    + intros Hm. rewrite Hm. reflexivity.
    + intros e Hm. rewrite Hm. reflexivity.
Qed.

(** X10.  The InChI format has no precondition.  Every identifier
    that is neither ["null"] nor empty is handed to RDKit, and the
    answer is RDKit's: the molecule with [True], or [(False, None)]
    with an error record for [None], or [(False, None)] with the
    exception in the log.  No request is made. *)
Theorem validate_identifier_as_inchi fuel (identifier : string) w :
  identifier <> "null" -> identifier <> "" ->
  (forall m, Chem_MolFromInchi E identifier = Returns (Some m) ->
     validate_identifier E fuel identifier "inchi" w
     = (Ret (true, Some m), noted identifier "inchi" w)) /\
  (Chem_MolFromInchi E identifier = Returns None ->
     validate_identifier E fuel identifier "inchi" w
     = (Ret (false, None),
        logged ERROR "Invalid InChI: {identifier}" [AStr identifier]
               (noted identifier "inchi" w))) /\
  (forall e, Chem_MolFromInchi E identifier = Throws e ->
     validate_identifier E fuel identifier "inchi" w
     = (Ret (false, None),
        logged ERROR "Unexpected error for {identifier_type}: {identifier}. Error: {str(e)}"
               [AStr "inchi"; AStr identifier; AStr (exn_str e)]
               (noted identifier "inchi" w))).
Proof.
  intros Hnull Hempty.
  pose proof (body_guard_false identifier Hnull Hempty) as Hg.
  unfold validate_identifier, bind at 1. simpl. unfold validate_identifier_body.
  rewrite Hg.
  unfold bind, try_except, validate_dispatch, validate_inchi, MolFromInchi, bind.
  simpl. repeat split.
  - intros m Hm. rewrite Hm. reflexivity.
  - intros Hm. rewrite Hm. reflexivity.
  - intros e Hm. rewrite Hm. reflexivity.
Qed.

Lemma resolve_with_cirpy_returns fuel s w r :
  cirpy_resolve E (calls w) s = Returns r ->
  resolve_with_cirpy E (S fuel) s w = (Ret r, tick w).
Proof.
  intros Hr. simpl. unfold bind. rewrite (cirpy_round_returns E fuel s w r Hr).
  reflexivity.
Qed.

Lemma resolve_with_cirpy_foreign fuel s w e :
  cirpy_resolve E (calls w) s = Throws e ->
  cactus_down_signature (exn_str e) = false ->
  resolve_with_cirpy E (S fuel) s w = (Raise e, tick w).
Proof.
  intros Hr Hsig. simpl. unfold bind.
  rewrite (cirpy_round_foreign E fuel s w e Hr Hsig). reflexivity.
Qed.

(** The [iupac] call as the two stages in a row. *)
Lemma validate_identifier_iupac_eq fuel s w :
  s <> "null" -> s <> "" ->
  validate_identifier E fuel s "iupac" w =
  match iupac_cirpy E fuel s (noted s "iupac" w) with
  | (Ret (Some out), w1) => (Ret out, w1)
  | (Ret None, w1) =>
      match iupac_pubchem E s w1 with
      | (Ret (Some out), w2) => (Ret out, w2)
      | (Ret None, w2) => (Ret (false, None), w2)
      | (Raise e, w2) =>
          (Ret (false, None),
           logged ERROR "Unexpected error for {identifier_type}: {identifier}. Error: {str(e)}"
                  [AStr "iupac"; AStr s; AStr (exn_str e)] w2)
      | (Diverge, w2) => (Diverge, w2)
      end
  | (Raise e, w1) =>
      (Ret (false, None),
       logged ERROR "Unexpected error for {identifier_type}: {identifier}. Error: {str(e)}"
              [AStr "iupac"; AStr s; AStr (exn_str e)] w1)
  | (Diverge, w1) => (Diverge, w1)
  end.
Proof.
  intros Hnull Hempty.
  pose proof (body_guard_false s Hnull Hempty) as Hg.
  unfold validate_identifier, bind at 1. simpl. unfold validate_identifier_body.
  rewrite Hg. unfold noted. simpl.
  unfold bind at 1, try_except, validate_dispatch. simpl.
  unfold validate_iupac, bind at 1.
  destruct (iupac_cirpy E fuel s _) as [[[out |] | e |] w1]; try reflexivity.
  destruct (iupac_pubchem E s w1) as [[[out |] | e |] w2]; reflexivity.
Qed.

Lemma iupac_cirpy_hit fuel s w smiles m :
  cirpy_resolve E (calls w) s = Returns (Some smiles) ->
  PyStr.truthy smiles = true ->
  Chem_MolFromSmiles E smiles = Returns (Some m) ->
  iupac_cirpy E (S fuel) s w = (Ret (Some (true, Some m)), tick w).
Proof.
  intros Hr Ht Hm. unfold iupac_cirpy, try_except, bind at 1.
  rewrite (resolve_with_cirpy_returns fuel s w _ Hr). rewrite Ht.
  unfold bind, MolFromSmiles. rewrite Hm. reflexivity.
Qed.

Lemma iupac_cirpy_error fuel s w e :
  cirpy_resolve E (calls w) s = Throws e ->
  cactus_down_signature (exn_str e) = false ->
  iupac_cirpy E (S fuel) s w
  = (Ret None,
     logged ERROR "Cirpy error for IUPAC: {identifier}. Error: {str(e)}"
            [AStr s; AStr (exn_str e)] (tick w)).
Proof.
  intros Hr Hsig. unfold iupac_cirpy, try_except, bind at 1.
  rewrite (resolve_with_cirpy_foreign fuel s w _ Hr Hsig). reflexivity.
Qed.

Lemma iupac_cirpy_none fuel s w :
  cirpy_resolve E (calls w) s = Returns None ->
  iupac_cirpy E (S fuel) s w = (Ret None, tick w).
Proof.
  intros Hr. unfold iupac_cirpy, try_except, bind at 1.
  rewrite (resolve_with_cirpy_returns fuel s w _ Hr). reflexivity.
Qed.

(** X11.  A name that CIRpy resolves is not sent to PubChem.  When
    the name service returns a SMILES that RDKit parses, the call
    returns that molecule after exactly one request, and logs
    nothing. *)
Theorem validate_identifier_iupac_stops_at_cirpy fuel (identifier : string) w smiles m :
  identifier <> "null" -> identifier <> "" ->
  cirpy_resolve E (calls w) identifier = Returns (Some smiles) ->
  PyStr.truthy smiles = true ->
  Chem_MolFromSmiles E smiles = Returns (Some m) ->
  validate_identifier E (S fuel) identifier "iupac" w
  = (Ret (true, Some m), tick (noted identifier "iupac" w)).
Proof.
  intros Hnull Hempty Hr Ht Hm.
  rewrite (validate_identifier_iupac_eq (S fuel) identifier w Hnull Hempty).
  rewrite (iupac_cirpy_hit fuel identifier (noted identifier "iupac" w) smiles m Hr Ht Hm).
  reflexivity.
Qed.

Lemma iupac_pubchem_hit s w resp doc table rec more smiles m :
  requests_get E (calls w) (pubchem_url s) = Returns resp ->
  json_body resp = Returns (JObj doc) ->
  PyJson.assoc "PropertyTable" doc = Some (JObj table) ->
  PyJson.assoc "Properties" table = Some (JArr (JObj rec :: more)) ->
  PyJson.assoc "CanonicalSMILES" rec = Some (JStr smiles) ->
  PyStr.truthy smiles = true ->
  Chem_MolFromSmiles E smiles = Returns (Some m) ->
  iupac_pubchem E s w
  = (Ret (Some (true, Some m)),
     pubchem_logged INFO "Successfully fetched SMILES from PubChem for {name}: {smiles}"
                    [AStr s; AJson (JStr smiles)] w).
Proof.
  intros Hget Hbody Htable Hprops Hrec Ht Hm.
  unfold iupac_pubchem, try_except, bind at 1.
  rewrite (fetch_found E s w resp doc table rec more (JStr smiles)
             Hget Hbody Htable Hprops Hrec Ht).
  simpl. rewrite Ht. unfold bind, MolFromSmiles. rewrite Hm. reflexivity.
Qed.

(** X12.  An error of the name service is no reason to give up.  When
    CIRpy raises an error without the signature of an outage, the
    error is logged and PubChem is asked; when PubChem has a SMILES
    that RDKit parses, the call returns that molecule, after two
    requests, with the two records in the log. *)
Theorem validate_identifier_iupac_falls_back_to_pubchem
    fuel (identifier : string) w e resp doc table rec more smiles m :
  identifier <> "null" -> identifier <> "" ->
  cirpy_resolve E (calls w) identifier = Throws e ->
  cactus_down_signature (exn_str e) = false ->
  requests_get E (S (calls w)) (pubchem_url identifier) = Returns resp ->
  json_body resp = Returns (JObj doc) ->
  PyJson.assoc "PropertyTable" doc = Some (JObj table) ->
  PyJson.assoc "Properties" table = Some (JArr (JObj rec :: more)) ->
  PyJson.assoc "CanonicalSMILES" rec = Some (JStr smiles) ->
  PyStr.truthy smiles = true ->
  Chem_MolFromSmiles E smiles = Returns (Some m) ->
  exists w',
    validate_identifier E (S fuel) identifier "iupac" w = (Ret (true, Some m), w') /\
    calls w' = calls w + 2 /\
    log w' = log w ++
             [mkLog ERROR "Cirpy error for IUPAC: {identifier}. Error: {str(e)}"
                    [AStr identifier; AStr (exn_str e)];
              mkLog INFO "Successfully fetched SMILES from PubChem for {name}: {smiles}"
                    [AStr identifier; AJson (JStr smiles)]].
Proof.
  intros Hnull Hempty Hr Hsig Hget Hbody Htable Hprops Hrec Ht Hm.
  rewrite (validate_identifier_iupac_eq (S fuel) identifier w Hnull Hempty).
  rewrite (iupac_cirpy_error fuel identifier (noted identifier "iupac" w) e Hr Hsig).
  rewrite (iupac_pubchem_hit identifier
             (logged ERROR "Cirpy error for IUPAC: {identifier}. Error: {str(e)}"
                     [AStr identifier; AStr (exn_str e)]
                     (tick (noted identifier "iupac" w)))
             resp doc table rec more smiles m
             Hget Hbody Htable Hprops Hrec Ht Hm).
  eexists. split; [reflexivity |]. simpl. split; [lia |].
  rewrite <- app_assoc. reflexivity.
Qed.

(** X13.  A value that is no string where PubChem should have the
    SMILES does not get through.  When CIRpy has no answer and the
    first record of the document holds a truthy [CanonicalSMILES] that
    is a number, a boolean, a list or an object, RDKit's binding
    rejects it, the error is logged as a PubChem error, and the call
    returns [(False, None)]. *)
Theorem validate_identifier_iupac_rejects_a_non_string
    fuel (identifier : string) w resp doc table rec more v :
  identifier <> "null" -> identifier <> "" ->
  cirpy_resolve E (calls w) identifier = Returns None ->
  requests_get E (S (calls w)) (pubchem_url identifier) = Returns resp ->
  json_body resp = Returns (JObj doc) ->
  PyJson.assoc "PropertyTable" doc = Some (JObj table) ->
  PyJson.assoc "Properties" table = Some (JArr (JObj rec :: more)) ->
  PyJson.assoc "CanonicalSMILES" rec = Some v ->
  PyJson.truthy v = true ->
  (forall s, v <> JStr s) ->
  exists w',
    validate_identifier E (S fuel) identifier "iupac" w = (Ret (false, None), w') /\
    log w' = log w ++
             [mkLog INFO "Successfully fetched SMILES from PubChem for {name}: {smiles}"
                    [AStr identifier; AJson v];
              mkLog ERROR "PubChem error for IUPAC: {identifier}. Error: {str(e)}"
                    [AStr identifier;
                     AStr "Python argument types did not match C++ signature"]].
Proof.
  intros Hnull Hempty Hr Hget Hbody Htable Hprops Hrec Ht Hns.
  rewrite (validate_identifier_iupac_eq (S fuel) identifier w Hnull Hempty).
  rewrite (iupac_cirpy_none fuel identifier (noted identifier "iupac" w) Hr).
  unfold iupac_pubchem, try_except, bind at 1.
  rewrite (fetch_found E identifier (tick (noted identifier "iupac" w))
             resp doc table rec more v Hget Hbody Htable Hprops Hrec Ht).
  rewrite Ht. unfold bind at 1.
  destruct v as [| b | z | s | l | kv]; try (exfalso; apply (Hns s); reflexivity);
    simpl; (eexists; split; [reflexivity |]); simpl;
    rewrite <- app_assoc; reflexivity.
Qed.

(** X14.  The flag and the molecule agree.  Whatever
    [validate_identifier] returns, the flag is [True] exactly when a
    molecule comes with it. *)
Theorem validate_identifier_flag_means_molecule
    fuel (identifier identifier_type : string) w b mol w' :
  validate_identifier E fuel identifier identifier_type w = (Ret (b, mol), w') ->
  (b = true <-> mol <> None).
Proof.
  intros Hrun.
  pose proof (post_validate_identifier E fuel identifier identifier_type _ _ _ Hrun) as Hco.
  unfold coherent in Hco. simpl in Hco. subst b.
  destruct mol; simpl; split; congruence.
Qed.

End Formats.

(** * Further properties of the batch driver *)

Section Rows.

Context (E : Env).

(** X15.  The two smallest input files.  On a file without any line
    [next(reader)] raises [StopIteration] and the run ends with it,
    after the three output files have been emptied; the exception is
    not caught.  On a file with a header line only the run returns,
    each stream holds its header line and nothing else, and no request
    was made. *)
Theorem process_results_on_the_smallest_files fuel (hdr : Row) w :
  (fst (process_results E fuel [] w) = Raise (mkExn "StopIteration" "") /\
   valid_out (snd (process_results E fuel [] w)) = [] /\
   invalid_out (snd (process_results E fuel [] w)) = [] /\
   no_info_out (snd (process_results E fuel [] w)) = []) /\
  (fst (process_results E fuel [hdr] w) = Ret tt /\
   valid_out (snd (process_results E fuel [hdr] w)) = [header_of hdr] /\
   invalid_out (snd (process_results E fuel [hdr] w)) = [header_of hdr] /\
   no_info_out (snd (process_results E fuel [hdr] w)) = [take 10 (header_of hdr)] /\
   calls (snd (process_results E fuel [hdr] w)) = calls w).
Proof. repeat split. Qed.

(** The loop over the columns raises on a row that ends before a
    column with something else than ["null"] was seen. *)
Lemma useful_info_loop_short (row : Row) : forall fuel k,
  k < 7 -> k <= length row \/ k = 2 -> length row < 7 -> 7 - k < fuel ->
  (forall j x, k <= j -> row !! j = Some x -> x = "null") ->
  fst (useful_info_loop fuel k row world0)
  = Raise (mkExn "IndexError" "list index out of range").
Proof.
  induction fuel as [| fuel IH]; intros k Hk7 Hk Hlen Hfuel Hnull; [lia |].
  simpl. assert (Hlt : (k <? 7)%nat = true) by (apply Nat.ltb_lt; exact Hk7).
  rewrite Hlt. unfold bind, getitem.
  destruct (row !! k) as [x |] eqn:Hx; simpl; [| reflexivity].
  rewrite (Hnull k x (le_n k) Hx). simpl.
  rewrite useful_info_loop_pure. simpl.
  apply lookup_lt_Some in Hx.
  apply IH; try lia. intros j y Hj. apply Hnull. lia.
Qed.

(** X16.  A short row without data is a fault, not a row without
    information.  When the first field is no placeholder, the row has
    fewer than seven fields, and the fields from the third on that it
    does have all hold ["null"], the loop over the columns runs off the
    end of the row: the row is written to the invalid stream with three
    ["No"], the [IndexError] is logged, and nothing is attempted. *)
Theorem short_row_without_data_is_invalid fuel (row : Row) s w :
  row !! 0 = Some s -> s <> "null" -> s <> "failed" ->
  length row < 7 ->
  (forall j x, 2 <= j -> row !! j = Some x -> x = "null") ->
  exists w',
    process_row E fuel row w = (Ret tt, w') /\
    emitted Invalid (row ++ ["No"; "No"; "No"]) w w' /\
    attempts w' = attempts w /\
    calls w' = calls w /\
    log w' = log w ++
             [mkLog ERROR "Error processing row: {row}. Error: {str(e)}"
                    [ARow row; AStr "list index out of range"]].
Proof.
  intros H0 H1 H2 Hlen Hnull.
  assert (Hu : useful_info row = Raise (mkExn "IndexError" "list index out of range")).
  { apply useful_info_loop_short; try lia. exact Hnull. }
  apply (process_row_fault E fuel row w _
           (classify_row_short_aux E fuel row s _ w H0 H1 H2 Hu)).
Qed.

(** X17.  What the valid stream holds.  A row in the valid stream
    always comes from a row that reached the resolution step and whose
    identifier resolved to a molecule with a carbon atom: it is the
    canonical SMILES of that molecule, the fields of the input row, and
    three flags of which exactly one is ["Yes"]. *)
Theorem valid_rows_carry_a_carbon_molecule fuel (row : Row) w w3 out :
  process_row E fuel row w = (Ret tt, w3) ->
  emitted Valid out w w3 ->
  exists s r w2 m,
    reaches_resolution row s /\
    resolve_formats E fuel s (at_resolution row w) = (Ret r, w2) /\
    first_mol r = Some m /\
    In 6%Z (atomic_nums E m) /\
    one_hot (resolution_info_of E r) /\
    out = Chem_MolToSmiles E m :: row ++ resolution_info_of E r.
Proof.
  intros Hrun Hem.
  destruct (row_gate_cases row)
    as [H0 | [(s & H0 & Hs) | [(s & H0 & H1 & H2 & Hu)
       | [(s & e & H0 & H1 & H2 & Hu) | (s & Hreach)]]]].
  - exfalso.
    destruct (process_row_fault E fuel row w _ (classify_row_short E fuel row w H0))
      as (w' & Hrun' & Hem' & _).
    rewrite Hrun in Hrun'. injection Hrun' as <-.
    destruct (emitted_inj _ _ _ _ _ _ Hem Hem') as [Hb _]. discriminate.
  - exfalso.
    rewrite (process_row_placeholder E fuel row s w H0 Hs) in Hrun.
    injection Hrun as <-.
    assert (Hem' : emitted NoInfo (take 10 row) w
               (snd (no_info_writerow (take 10 row) (at_row row w))))
      by (apply emitted_no_info; reflexivity).
    destruct (emitted_inj _ _ _ _ _ _ Hem Hem') as [Hb _]. discriminate.
  - exfalso.
    rewrite (process_row_useless E fuel row s w H0 H1 H2 Hu) in Hrun.
    injection Hrun as <-.
    assert (Hem' : emitted NoInfo (take 10 row) w
               (snd ((logging_info "Skipping row due to no useful information: {row}"
                                   [ARow row] ;;;
                      no_info_writerow (take 10 row)) (at_row row w))))
      by (apply emitted_no_info; reflexivity).
    destruct (emitted_inj _ _ _ _ _ _ Hem Hem') as [Hb _]. discriminate.
  - exfalso.
    destruct (process_row_fault E fuel row w _
                (classify_row_short_aux E fuel row s e w H0 H1 H2 Hu))
      as (w' & Hrun' & Hem' & _).
    rewrite Hrun in Hrun'. injection Hrun' as <-.
    destruct (emitted_inj _ _ _ _ _ _ Hem Hem') as [Hb _]. discriminate.
  - pose proof (process_row_resolution_spec E fuel row s w Hreach) as Hspec.
    rewrite Hrun in Hspec.
    destruct Hspec as (r & w2 & Hr & _ & _ & Hout).
    destruct (first_mol r) as [m |] eqn:Hm; destruct Hout as [Hem' Hfl].
    + destruct (emitted_inj _ _ _ _ _ _ Hem Hem') as [Hb ->].
      exists s, r, w2, m.
      split; [exact Hreach |]. split; [exact Hr |]. split; [exact Hm |].
      split; [| split; [exact Hfl | reflexivity]].
      apply any_carbon_iff.
      destruct (any_carbon (atomic_nums E m)); [reflexivity | discriminate].
    + exfalso. destruct (emitted_inj _ _ _ _ _ _ Hem Hem') as [Hb _]. discriminate.
Qed.

(** X18.  Only rows that reach the resolution step cost anything.  A
    row that does not reach it - empty or too short, led by a
    placeholder, or with ["null"] in all of columns 2..6 - is written
    out without a request, without a sleep and without a call of
    [validate_identifier]. *)
Theorem rows_outside_resolution_stay_offline fuel (row : Row) w :
  (forall s, ~ reaches_resolution row s) ->
  exists w',
    process_row E fuel row w = (Ret tt, w') /\
    calls w' = calls w /\
    slept w' = slept w /\
    attempts w' = attempts w.
Proof.
  intros Hout.
  destruct (row_gate_cases row)
    as [H0 | [(s & H0 & Hs) | [(s & H0 & H1 & H2 & Hu)
       | [(s & e & H0 & H1 & H2 & Hu) | (s & Hreach)]]]].
  - rewrite process_row_eq. unfold try_except.
    rewrite (classify_row_short E fuel row w H0). eexists. repeat split.
  - rewrite (process_row_placeholder E fuel row s w H0 Hs). eexists. repeat split.
  - rewrite (process_row_useless E fuel row s w H0 H1 H2 Hu). eexists. repeat split.
  - rewrite process_row_eq. unfold try_except.
    rewrite (classify_row_short_aux E fuel row s e w H0 H1 H2 Hu).
    eexists. repeat split.
  - destruct (Hout s Hreach).
Qed.

End Rows.

(** * A run does not depend on the past *)

Lemma same_visible_refl w : same_visible w w.
Proof. repeat split. Qed.

Section BlindCombinators.

Context {A B : Type}.

Lemma blind_ret (a : A) : Blind (ret a).
Proof. intros w1 w2 Hv. split; [reflexivity | exact Hv]. Qed.

Lemma blind_raise (e : Exn) : Blind (@raise A e).
Proof. intros w1 w2 Hv. split; [reflexivity | exact Hv]. Qed.

Lemma blind_diverge : Blind (@diverge A).
Proof. intros w1 w2 Hv. split; [reflexivity | exact Hv]. Qed.

Lemma blind_of_raises (r : Raises A) : Blind (of_raises r).
Proof. destruct r; intros w1 w2 Hv; (split; [reflexivity | exact Hv]). Qed.

Lemma blind_bind (m : M A) (k : A -> M B) :
  Blind m -> (forall a, Blind (k a)) -> Blind (bind m k).
Proof.
  intros Hm Hk w1 w2 Hv. unfold bind.
  destruct (Hm w1 w2 Hv) as [Hf Hv'].
  destruct (m w1) as [r1 w1'], (m w2) as [r2 w2']. simpl in *. subst r2.
  destruct r1 as [a | e |]; [apply Hk; exact Hv' | |]; (split; [reflexivity | exact Hv']).
Qed.

Lemma blind_try (m : M A) (h : Exn -> M A) :
  Blind m -> (forall e, Blind (h e)) -> Blind (try_except m h).
Proof.
  intros Hm Hh w1 w2 Hv. unfold try_except.
  destruct (Hm w1 w2 Hv) as [Hf Hv'].
  destruct (m w1) as [r1 w1'], (m w2) as [r2 w2']. simpl in *. subst r2.
  destruct r1 as [a | e |]; [| apply Hh; exact Hv' |]; (split; [reflexivity | exact Hv']).
Qed.

End BlindCombinators.

Lemma blind_logging lv tpl a : Blind (logging lv tpl a).
Proof. intros w1 w2 Hv. split; [reflexivity | exact Hv]. Qed.

Lemma blind_time_sleep s : Blind (time_sleep s).
Proof.
  intros w1 w2 Hv. unfold time_sleep.
  destruct (9223372036 <? Z.abs s)%Z; [split; [reflexivity | exact Hv] |].
  destruct (s <? 0)%Z; split; first [reflexivity | exact Hv].
Qed.

Lemma blind_note_attempt s ty : Blind (note_attempt s ty).
Proof. intros w1 w2 Hv. split; [reflexivity | exact Hv]. Qed.

Lemma blind_get_row : Blind get_row.
Proof.
  intros w1 w2 Hv. split; [| exact Hv].
  unfold get_row. simpl. f_equal. apply Hv.
Qed.

Lemma blind_set_row r : Blind (set_row r).
Proof.
  intros w1 w2 ((Hv & Hi & Hn) & Hr). split; [reflexivity |]. repeat split; assumption.
Qed.

Lemma blind_valid_writerow r : Blind (valid_writerow r).
Proof.
  intros w1 w2 ((Hv & Hi & Hn) & Hr). split; [reflexivity |].
  repeat split; simpl; congruence.
Qed.

Lemma blind_invalid_writerow r : Blind (invalid_writerow r).
Proof.
  intros w1 w2 ((Hv & Hi & Hn) & Hr). split; [reflexivity |].
  repeat split; simpl; congruence.
Qed.

Lemma blind_no_info_writerow r : Blind (no_info_writerow r).
Proof.
  intros w1 w2 ((Hv & Hi & Hn) & Hr). split; [reflexivity |].
  repeat split; simpl; congruence.
Qed.

Lemma blind_getitem r i : Blind (getitem r i).
Proof. unfold getitem. destruct (r !! i); [apply blind_ret | apply blind_raise]. Qed.

Lemma blind_py_in k v : Blind (PyJson.py_in k v).
Proof. destruct v; first [apply blind_ret | apply blind_raise]. Qed.

Lemma blind_getitem_key v k : Blind (PyJson.getitem_key v k).
Proof.
  destruct v; try apply blind_raise.
  simpl. destruct (PyJson.assoc k kv); [apply blind_ret | apply blind_raise].
Qed.

Lemma blind_py_len v : Blind (PyJson.py_len v).
Proof. destruct v; first [apply blind_ret | apply blind_raise]. Qed.

Lemma blind_getitem_0 v : Blind (PyJson.getitem_0 v).
Proof.
  destruct v as [| | | s | l |]; try apply blind_raise.
  - destruct s; [apply blind_raise | apply blind_ret].
  - destruct l; [apply blind_raise | apply blind_ret].
Qed.

Lemma blind_get v k : Blind (PyJson.get v k).
Proof. destruct v; first [apply blind_ret | apply blind_raise]. Qed.

Create HintDb blind.
#[export] Hint Resolve blind_ret blind_raise blind_diverge blind_of_raises
  blind_logging blind_time_sleep blind_note_attempt blind_get_row blind_set_row
  blind_valid_writerow blind_invalid_writerow blind_no_info_writerow blind_getitem
  blind_py_in blind_getitem_key blind_py_len blind_getitem_0 blind_get : blind.

Ltac blind := walk ltac:(eauto with blind) @blind_bind @blind_try.

Section Rerun.

Context (E : Env) (Hst : stationary E).

Lemma blind_http_get url : Blind (http_get E url).
Proof.
  intros w1 w2 Hv. unfold http_get.
  rewrite (proj1 Hst (calls w1) (calls w2) url).
  destruct (requests_get E (calls w2) url); (split; [reflexivity | exact Hv]).
Qed.

Lemma blind_cirpy_call s : Blind (cirpy_call E s).
Proof.
  intros w1 w2 Hv. unfold cirpy_call.
  rewrite (proj2 Hst (calls w1) (calls w2) s).
  destruct (cirpy_resolve E (calls w2) s); (split; [reflexivity | exact Hv]).
Qed.

Hint Resolve blind_http_get blind_cirpy_call : blind.

Lemma blind_wait_for_cactus_service fuel ws : Blind (wait_for_cactus_service E fuel ws).
Proof.
  induction fuel as [| fuel IH]; simpl; [apply blind_diverge |].
  apply blind_bind; [unfold cactus_probe; blind |].
  intros [|]; [apply blind_ret |].
  apply blind_bind; [apply blind_time_sleep | intros _; exact IH].
Qed.

Hint Resolve blind_wait_for_cactus_service : blind.

Lemma blind_resolve_with_cirpy fuel s : Blind (resolve_with_cirpy E fuel s).
Proof.
  induction fuel as [| fuel IH]; simpl; [apply blind_diverge |].
  apply blind_bind; [unfold cirpy_round; blind |].
  intros [smiles |]; [apply blind_ret | exact IH].
Qed.

Hint Resolve blind_resolve_with_cirpy : blind.

Lemma blind_fetch_smiles_from_pubchem name : Blind (fetch_smiles_from_pubchem E name).
Proof. unfold fetch_smiles_from_pubchem, has_properties. blind. Qed.

Hint Resolve blind_fetch_smiles_from_pubchem : blind.

Lemma blind_validate_identifier fuel s ty : Blind (validate_identifier E fuel s ty).
Proof.
  unfold validate_identifier, validate_identifier_body, validate_dispatch,
    validate_smiles, validate_inchi, validate_iupac, iupac_cirpy, iupac_pubchem,
    MolFromSmiles_json, MolFromSmiles, MolFromInchi.
  blind.
Qed.

Hint Resolve blind_validate_identifier : blind.

Lemma blind_resolve_formats fuel s : Blind (resolve_formats E fuel s).
Proof. unfold resolve_formats. blind. Qed.

Lemma blind_write_resolved r : Blind (write_resolved E r).
Proof.
  destruct r as [[iu sm] inch]. unfold write_resolved, MolToSmiles. blind.
Qed.

Lemma blind_useful_info_loop (row : Row) : forall fuel i, Blind (useful_info_loop fuel i row).
Proof.
  induction fuel as [| fuel IH]; intros i; simpl; [apply blind_diverge |].
  destruct (i <? 7)%nat; [| apply blind_ret].
  apply blind_bind; [apply blind_getitem |].
  intros x. destruct (negb (String.eqb x "null")); [apply blind_ret | apply IH].
Qed.

Hint Resolve blind_resolve_formats blind_write_resolved blind_useful_info_loop : blind.

Lemma blind_classify_row fuel : Blind (classify_row E fuel).
Proof. unfold classify_row. blind. Qed.

Lemma blind_row_handler e : Blind (row_handler e).
Proof. unfold row_handler. blind. Qed.

(** One row, from two worlds that agree on the streams only. *)
Lemma process_row_forgets fuel row w1 w2 :
  same_streams w1 w2 ->
  fst (process_row E fuel row w1) = fst (process_row E fuel row w2) /\
  same_visible (snd (process_row E fuel row w1)) (snd (process_row E fuel row w2)).
Proof.
  intros Hs. rewrite !process_row_eq.
  apply (blind_try _ _ (blind_classify_row fuel) blind_row_handler).
  split; [exact Hs | reflexivity].
Qed.

Lemma for_rows_forgets fuel : forall rows w1 w2,
  same_streams w1 w2 ->
  fst (for_rows E fuel rows w1) = fst (for_rows E fuel rows w2) /\
  same_streams (snd (for_rows E fuel rows w1)) (snd (for_rows E fuel rows w2)).
Proof.
  induction rows as [| row rest IH]; intros w1 w2 Hs; simpl.
  - split; [reflexivity | exact Hs].
  - unfold bind.
    destruct (process_row_forgets fuel row w1 w2 Hs) as [Hf [Hs' _]].
    destruct (process_row E fuel row w1) as [r1 w1'],
             (process_row E fuel row w2) as [r2 w2']. simpl in *. subst r2.
    destruct r1 as [[] | e |]; [apply IH; exact Hs' | |];
      (split; [reflexivity | exact Hs']).
Qed.

End Rerun.

(** X19.  A run depends on the input file and on the services only.
    With services that answer the same way whenever they are asked,
    two runs of [process_results] on the same file end the same way
    and leave the same three streams, whatever the output files held
    before, whatever is in the log, and however many requests were
    made before. *)
Theorem process_results_forgets_the_past (E : Env) fuel (input : list Row) w1 w2 :
  stationary E ->
  fst (process_results E fuel input w1) = fst (process_results E fuel input w2) /\
  same_streams (snd (process_results E fuel input w1))
               (snd (process_results E fuel input w2)).
Proof.
  intros Hst. destruct input as [| hdr rows].
  - split; [reflexivity | repeat split].
  - rewrite !process_results_eq. apply (for_rows_forgets E Hst). repeat split.
Qed.

(** * The text of the table cells *)

Lemma length_append (a b : string) :
  String.length (String.append a b) = String.length a + String.length b.
Proof. induction a as [| c a IH]; simpl; [reflexivity | rewrite IH; reflexivity]. Qed.

Lemma length_take_chars : forall n s,
  String.length (PySlice.take_chars n s) = Nat.min n (String.length s).
Proof.
  induction n as [| n IH]; intros [| c s]; simpl; try reflexivity.
  rewrite IH. reflexivity.
Qed.

Lemma take_chars_all : forall n s,
  String.length s <= n -> PySlice.take_chars n s = s.
Proof.
  induction n as [| n IH]; intros [| c s] Hlen; simpl in *; try reflexivity; try lia.
  rewrite IH by lia. reflexivity.
Qed.

Lemma length_slice_to s k :
  Z.of_nat (String.length (PySlice.slice_to s k))
  = (if (k <? 0)%Z then Z.max 0 (Z.of_nat (String.length s) + k)
     else Z.min k (Z.of_nat (String.length s)))%Z.
Proof.
  unfold PySlice.slice_to. destruct (k <? 0)%Z eqn:Hk; rewrite length_take_chars.
  - apply Z.ltb_lt in Hk. lia.
  - apply Z.ltb_ge in Hk. lia.
Qed.

(** X20.  [truncate_text] keeps to a limit of three or more.  The
    result is never longer than [max_chars]; a text that fits is
    returned as it is; a longer one becomes its first [max_chars - 3]
    characters followed by three dots, exactly [max_chars] long; and
    truncating the result again changes nothing. *)
Theorem truncate_text_keeps_to_the_limit (text : string) (max_chars : Z) :
  (3 <= max_chars)%Z ->
  Z.of_nat (String.length (Anigen.truncate_text text max_chars))
  = Z.min (Z.of_nat (String.length text)) max_chars /\
  ((Z.of_nat (String.length text) <= max_chars)%Z ->
   Anigen.truncate_text text max_chars = text) /\
  ((max_chars < Z.of_nat (String.length text))%Z ->
   Anigen.truncate_text text max_chars
   = String.append (PySlice.take_chars (Z.to_nat (max_chars - 3)) text) "...") /\
  Anigen.truncate_text (Anigen.truncate_text text max_chars) max_chars
  = Anigen.truncate_text text max_chars.
Proof.
  intros Hmax.
  assert (Hlen : Z.of_nat (String.length (Anigen.truncate_text text max_chars))
                 = Z.min (Z.of_nat (String.length text)) max_chars).
  { unfold Anigen.truncate_text.
    destruct (Z.of_nat (String.length text) <=? max_chars)%Z eqn:Hfit.
    - apply Z.leb_le in Hfit. lia.
    - apply Z.leb_gt in Hfit. rewrite length_append, Nat2Z.inj_add, length_slice_to.
      assert (Hk : (max_chars - 3 <? 0)%Z = false) by (apply Z.ltb_ge; lia).
      rewrite Hk. simpl. lia. }
  split; [exact Hlen |]. split; [| split].
  - intros Hfit. unfold Anigen.truncate_text.
    apply Z.leb_le in Hfit. rewrite Hfit. reflexivity.
  - intros Hlong. unfold Anigen.truncate_text, PySlice.slice_to.
    apply Z.leb_gt in Hlong. rewrite Hlong.
    assert (Hk : (max_chars - 3 <? 0)%Z = false) by (apply Z.ltb_ge; lia).
    rewrite Hk. reflexivity.
  - unfold Anigen.truncate_text at 1.
    assert (Hfit : (Z.of_nat (String.length (Anigen.truncate_text text max_chars))
                    <=? max_chars)%Z = true) by (apply Z.leb_le; lia).
    rewrite Hfit. reflexivity.
Qed.

(** X21.  Below three the limit cannot be kept.  With [max_chars]
    smaller than 3 the stop of the slice is negative and counts from
    the end: a text longer than the limit comes back as all but its
    last [3 - max_chars] characters followed by three dots, which is
    longer than [max_chars], and for a limit of 0, 1 or 2 not shorter
    than the text was. *)
Theorem truncate_text_overshoots_a_small_limit (text : string) (max_chars : Z) :
  (max_chars < 3)%Z ->
  (max_chars < Z.of_nat (String.length text))%Z ->
  Z.of_nat (String.length (Anigen.truncate_text text max_chars))
  = (Z.max 0 (Z.of_nat (String.length text) + max_chars - 3) + 3)%Z /\
  (max_chars < Z.of_nat (String.length (Anigen.truncate_text text max_chars)))%Z /\
  ((0 <= max_chars)%Z ->
   (Z.of_nat (String.length text)
    <= Z.of_nat (String.length (Anigen.truncate_text text max_chars)))%Z).
Proof.
  intros Hsmall Hlong.
  assert (Hlen : Z.of_nat (String.length (Anigen.truncate_text text max_chars))
                 = (Z.max 0 (Z.of_nat (String.length text) + max_chars - 3) + 3)%Z).
  { unfold Anigen.truncate_text.
    assert (Hfit : (Z.of_nat (String.length text) <=? max_chars)%Z = false)
      by (apply Z.leb_gt; lia).
    rewrite Hfit, length_append, Nat2Z.inj_add, length_slice_to.
    assert (Hk : (max_chars - 3 <? 0)%Z = true) by (apply Z.ltb_lt; lia).
    rewrite Hk. simpl. lia. }
  split; [exact Hlen |]. split; [lia | intros Hpos; lia].
Qed.

(** * The sampler *)

Section Selection.

Variable listing : list string.
Variable process_csv : string -> Raises unit.

Lemma processed_app a b :
  Sampler.processed (a ++ b) = Sampler.processed a ++ Sampler.processed b.
Proof.
  induction a as [| [tpl args | text | f] a IH]; simpl; [reflexivity | | |];
    rewrite IH; reflexivity.
Qed.

Lemma processed_print_numbered : forall files i,
  Sampler.processed (Sampler.print_numbered i files) = [].
Proof. induction files as [| f files IH]; intros i; simpl; [reflexivity | apply IH]. Qed.

Lemma prompts_app a b :
  Sampler.prompts (a ++ b) = Sampler.prompts a + Sampler.prompts b.
Proof.
  induction a as [| [tpl args | text | f] a IH]; simpl; [reflexivity | | |];
    rewrite IH; reflexivity.
Qed.

Lemma prompts_print_numbered : forall files i,
  Sampler.prompts (Sampler.print_numbered i files) = 0.
Proof. induction files as [| f files IH]; intros i; simpl; [reflexivity | apply IH]. Qed.

Ltac events :=
  simpl;
  repeat first [ rewrite processed_app | rewrite processed_print_numbered
               | rewrite prompts_app | rewrite prompts_print_numbered ];
  simpl; try reflexivity.

Lemma csv_files_of_spec f :
  In f (Sampler.csv_files_of listing) <-> In f listing /\ Sampler.endswith f ".csv" = true.
Proof.
  unfold Sampler.csv_files_of.
  exact (filter_In (fun g => Sampler.endswith g ".csv") f listing).
Qed.

(** X22.  What [select_and_process_csv] hands to [process_csv].
    Whatever the directory holds and whatever is typed, at most one
    file is processed; it is a file of the listing whose name ends in
    [.csv], and it is the one at the typed number, counting the
    [.csv] files of the listing from 1 in the order of the listing. *)
Theorem select_and_process_csv_processes_the_numbered_file (typed : Raises Z) :
  Sampler.processed (fst (Sampler.select_and_process_csv listing typed process_csv)) = [] \/
  exists number f,
    typed = Returns number /\
    (1 <= number <= offered listing)%Z /\
    Sampler.csv_files_of listing !! Z.to_nat (number - 1) = Some f /\
    In f listing /\ Sampler.endswith f ".csv" = true /\
    Sampler.processed (fst (Sampler.select_and_process_csv listing typed process_csv)) = [f].
Proof.
  unfold Sampler.select_and_process_csv, offered.
  destruct (Sampler.csv_files_of listing) as [| f0 files] eqn:Hfiles; [left; reflexivity |].
  destruct typed as [number | e].
  - destruct ((0 <=? number - 1)%Z && (number - 1 <? Z.of_nat (length (f0 :: files)))%Z)
      eqn:Hrange.
    + apply andb_prop in Hrange. destruct Hrange as [Hlo Hhi].
      apply Z.leb_le in Hlo. apply Z.ltb_lt in Hhi.
      destruct ((f0 :: files) !! Z.to_nat (number - 1)) as [f |] eqn:Hf.
      * right. exists number, f.
        assert (Hin : In f (Sampler.csv_files_of listing)).
        { rewrite Hfiles. apply list_elem_of_In. eapply list_elem_of_lookup_2. exact Hf. }
        apply csv_files_of_spec in Hin. destruct Hin as [Hin Hend].
        split; [reflexivity |]. split; [lia |]. split; [exact Hf |].
        split; [exact Hin |]. split; [exact Hend |].
        destruct (process_csv f); events.
      * left. events.
    + left. events.
  - left. events.
Qed.

(** X23.  What [select_and_process_csv] refuses.  A number outside
    1..n, where n is the number of [.csv] files, processes nothing and
    ends with "Invalid selection."; so does 0, which does not select
    the last file.  With no [.csv] file in the directory the user is
    not asked at all. *)
Theorem select_and_process_csv_refuses (number : Z) (typed : Raises Z) :
  ((number < 1 \/ offered listing < number)%Z ->
   0 < offered listing ->
   Sampler.processed
     (fst (Sampler.select_and_process_csv listing (Returns number) process_csv)) = [] /\
   last (fst (Sampler.select_and_process_csv listing (Returns number) process_csv))
   = Some (Sampler.Print "Invalid selection." []) /\
   snd (Sampler.select_and_process_csv listing (Returns number) process_csv) = Returns tt)%Z /\
  (offered listing = 0%Z ->
   Sampler.select_and_process_csv listing typed process_csv
   = ([Sampler.Print "No CSV files found in the current directory." []], Returns tt) /\
   Sampler.prompts (fst (Sampler.select_and_process_csv listing typed process_csv)) = 0).
Proof.
  unfold Sampler.select_and_process_csv, offered.
  destruct (Sampler.csv_files_of listing) as [| f0 files] eqn:Hfiles.
  - split; [simpl; lia |]. intros _. split; reflexivity.
  - split; [| simpl; lia]. intros Hout _.
    assert (Hrange : (0 <=? number - 1)%Z
                     && (number - 1 <? Z.of_nat (length (f0 :: files)))%Z = false).
    { apply andb_false_iff. destruct Hout as [Hlow | Hhigh].
      - left. apply Z.leb_gt. lia.
      - right. apply Z.ltb_ge. lia. }
    rewrite Hrange. split; [events |]. split; [| reflexivity].
    cbn [fst]. apply last_snoc.
Qed.

End Selection.

Section Classification.

Lemma filter_notnull_length (row : list Sampler.cell) :
  length (List.filter Sampler.notnull row) <= length row.
Proof.
  induction row as [| c row IH]; simpl; [lia |].
  destruct (Sampler.notnull c); simpl; lia.
Qed.

(** The loop body on a row of the width of the frame: the test for
    extra columns is passed, the paper cell is there, and the valid row
    is the whole row. *)
Lemma classify_rect p (row : list Sampler.cell) :
  length row = S p ->
  Sampler.classify p row =
  Returns
    match row !! p with
    | Some (Some paper_reference) =>
        if String.eqb paper_reference "" then Sampler.Skipped
        else if forallb (fun s => String.eqb s "null")
                        (map Sampler.fillna (take p row)) then
          Sampler.NullRow paper_reference
        else if existsb (fun s => String.eqb s "failed")
                        (map Sampler.fillna (take p row)) then
          Sampler.FailedRow paper_reference
        else Sampler.ValidRow row
    | _ => Sampler.Skipped
    end.
Proof.
  intros Hlen. unfold Sampler.classify.
  assert (Hdead : (p + 1 <? length (List.filter Sampler.notnull row))%nat = false).
  { apply Nat.ltb_ge. pose proof (filter_notnull_length row).
    unfold Sampler.cell in *. lia. }
  rewrite Hdead.
  destruct (row !! p) as [[ref |] |] eqn:Hp.
  - replace (take (p + 1) row) with row
      by (symmetry; apply take_ge; unfold Sampler.cell in *; lia).
    destruct (String.eqb ref ""); [reflexivity |].
    destruct (forallb _ _); [reflexivity |].
    destruct (existsb _ _); reflexivity.
  - reflexivity.
  - apply lookup_ge_None in Hp. unfold Sampler.cell in *. lia.
Qed.

(** X24.  What the loop of [process_csv] does with a row of the width
    of the frame.  It never raises.  A row is dropped exactly when its
    last cell, the paper reference, is [NaN] or empty: the test for
    extra columns never drops one.  A row whose data cells all hold
    ["null"] is a null row even if the test for ["failed"] would also
    hold; a valid row is filed whole, its [NaN] cells included. *)
Theorem classify_drops_only_rows_without_reference p (row : list Sampler.cell) :
  length row = S p ->
  exists k,
    Sampler.classify p row = Returns k /\
    (k = Sampler.Skipped <->
     row !! p = Some None \/ row !! p = Some (Some "")) /\
    (forall ref, k = Sampler.NullRow ref <->
       row !! p = Some (Some ref) /\ ref <> "" /\
       forall c, In c (take p row) -> c = Some "null") /\
    (forall ref, k = Sampler.FailedRow ref ->
       row !! p = Some (Some ref) /\ In (Some "failed") (take p row)) /\
    (forall r, k = Sampler.ValidRow r ->
       r = row /\ ~ In (Some "failed") (take p row)).
Proof.
  intros Hlen. rewrite (classify_rect p row Hlen). eexists. split; [reflexivity |].
  assert (Hnull : forallb (fun s => String.eqb s "null")
                          (map Sampler.fillna (take p row)) = true <->
                  forall c, In c (take p row) -> c = Some "null").
  { rewrite forallb_forall. split.
    - intros H c Hc. specialize (H (Sampler.fillna c) (in_map _ _ _ Hc)).
      apply String.eqb_eq in H. destruct c as [s |]; simpl in H; [congruence | discriminate].
    - intros H s Hs. apply in_map_iff in Hs. destruct Hs as (c & <- & Hc).
      rewrite (H c Hc). reflexivity. }
  assert (Hfailed : existsb (fun s => String.eqb s "failed")
                            (map Sampler.fillna (take p row)) = true <->
                    In (Some "failed") (take p row)).
  { rewrite existsb_exists. split.
    - intros (s & Hs & Heq). apply String.eqb_eq in Heq. subst s.
      apply in_map_iff in Hs. destruct Hs as (c & Hc & Hin).
      destruct c as [s |]; simpl in Hc; [subst s; exact Hin | discriminate].
    - intros Hin. exists "failed". split; [| reflexivity].
      apply in_map_iff. exists (Some "failed"). auto. }
  destruct (row !! p) as [[ref |] |] eqn:Hp.
  - destruct (String.eqb ref "") eqn:Hempty.
    + apply String.eqb_eq in Hempty. subst ref.
      split; [split; [intros _; right; reflexivity | reflexivity] |].
      split; [intros ref; split; [discriminate | intros ([= <-] & Hne & _); congruence] |].
      split; [discriminate | discriminate].
    + apply String.eqb_neq in Hempty.
      destruct (forallb _ _) eqn:Hall'.
      * pose proof (proj1 Hnull eq_refl) as Hall.
        split; [split; [discriminate | intros [[=] | [= ->]]; congruence] |].
        split; [| split; discriminate].
        intros ref'. split.
        -- intros [= <-]. auto.
        -- intros ([= <-] & _). reflexivity.
      * assert (Hnot : ~ forall c, In c (take p row) -> c = Some "null").
        { intros H. apply Hnull in H. discriminate. }
        destruct (existsb _ _) eqn:Hany'.
        -- pose proof (proj1 Hfailed eq_refl) as Hany.
           split; [split; [discriminate | intros [[=] | [= ->]]; congruence] |].
           split; [intros ref'; split; [discriminate | intros (_ & _ & H); contradiction] |].
           split; [intros ref' [= <-]; auto | discriminate].
        -- assert (Hno : ~ In (Some "failed") (take p row)).
           { intros H. apply Hfailed in H. discriminate. }
           split; [split; [discriminate | intros [[=] | [= ->]]; congruence] |].
           split; [intros ref'; split; [discriminate | intros (_ & _ & H); contradiction] |].
           split; [discriminate | intros r [= <-]; auto].
  - split; [split; [intros _; left; reflexivity | reflexivity] |].
    split; [intros ref; split; [discriminate | intros ([=] & _)] |].
    split; discriminate.
  - apply lookup_ge_None in Hp. unfold Sampler.cell in *. lia.
Qed.

End Classification.

Section Frames.

Variable shuffle : Sampler.Frame -> Sampler.Frame.
Variable sample : nat -> Sampler.Frame -> Sampler.Frame.

(** What is taken for granted about pandas: shuffling reorders the
    rows, and a sample of [n] rows of a frame with at least [n] rows is
    [n] of its rows, each taken at most as often as it is there. *)
Hypothesis shuffle_perm : forall df, Permutation (shuffle df) df.
Hypothesis sample_sub : forall n df, sample n df ⊆+ df.
Hypothesis sample_len : forall n df, n <= length df -> length (sample n df) = n.

Lemma iterrows_rect p : forall rows b,
  Forall (fun row : list Sampler.cell => length row = S p) rows ->
  Sampler.iterrows p rows b =
  Returns (Sampler.mkBuckets
             (Sampler.valid_rows b ++ valid_of p rows)
             (Sampler.null_rows b ++ null_of p rows)
             (Sampler.failed_rows b ++ failed_of p rows)).
Proof.
  induction rows as [| row rows IH]; intros b Hrect.
  - simpl. rewrite !app_nil_r. destruct b; reflexivity.
  - inversion Hrect as [| ? ? Hrow Hrest]; subst.
    unfold valid_of, null_of, failed_of. simpl.
    rewrite (classify_rect p row Hrow).
    rewrite (IH _ Hrest). unfold valid_of, null_of, failed_of.
    destruct (match row !! p with
              | Some (Some paper_reference) => _
              | _ => Sampler.Skipped
              end) as [| ref | ref | r]; simpl;
      rewrite <- ?app_assoc, ?app_nil_r; reflexivity.
Qed.

Lemma filter_perm {X} (f : X -> bool) (l1 l2 : list X) :
  Permutation l1 l2 -> Permutation (List.filter f l1) (List.filter f l2).
Proof.
  induction 1 as [| x l1 l2 _ IH | x y l | l1 l2 l3 _ IH1 _ IH2]; simpl.
  - constructor.
  - destruct (f x); [constructor; exact IH | exact IH].
  - destruct (f x), (f y); try reflexivity. constructor.
  - etransitivity; eassumption.
Qed.

Lemma candidates_perm p (l1 l2 : Sampler.Frame) :
  Permutation l1 l2 -> Permutation (candidates p l1) (candidates p l2).
Proof.
  intros Hp. unfold candidates, valid_of. apply filter_perm.
  apply Permutation_flat_map. exact Hp.
Qed.

Lemma at_most_100_length (df : Sampler.Frame) :
  length (Sampler.at_most_100 sample df) = Nat.min 100 (length df).
Proof.
  destruct df as [| r df]; [reflexivity |].
  unfold Sampler.at_most_100. apply sample_len. lia.
Qed.

Lemma at_most_100_sub (df : Sampler.Frame) r :
  In r (Sampler.at_most_100 sample df) -> In r df.
Proof.
  destruct df as [| r0 df]; [intros [] |].
  unfold Sampler.at_most_100. intros Hin.
  apply list_elem_of_In. apply list_elem_of_In in Hin.
  eapply elem_of_submseteq; [exact Hin | apply sample_sub].
Qed.

(** With at most 100 rows nothing is left out. *)
Lemma at_most_100_all (df : Sampler.Frame) r :
  length df <= 100 -> In r df -> In r (Sampler.at_most_100 sample df).
Proof.
  destruct df as [| r0 df]; [intros _ [] |].
  intros Hlen Hin. unfold Sampler.at_most_100.
  replace (Nat.min 100 (length (r0 :: df))) with (length (r0 :: df)) by lia.
  assert (Hperm : sample (length (r0 :: df)) (r0 :: df) ≡ₚ r0 :: df).
  { apply submseteq_length_Permutation; [apply sample_sub |].
    rewrite sample_len; lia. }
  apply list_elem_of_In. rewrite Hperm. apply list_elem_of_In. exact Hin.
Qed.

Lemma in_candidates p (rows : Sampler.Frame) r :
  Forall (fun row : list Sampler.cell => length row = S p) rows ->
  In r (candidates p rows) <-> In r rows /\ kept_as_valid p r.
Proof.
  intros Hrect. unfold candidates, kept_as_valid.
  rewrite filter_In. unfold valid_of. rewrite in_flat_map. split.
  - intros ((row & Hrow & Hr) & Hne).
    rewrite Forall_forall in Hrect.
    specialize (Hrect row (proj2 (list_elem_of_In _ _) Hrow)).
    rewrite (classify_rect p row Hrect) in Hr. 
    assert (Heq : r = row /\ Sampler.classify p row = Returns (Sampler.ValidRow row)).
    { rewrite (classify_rect p row Hrect).
      destruct (row !! p) as [[ref |] |]; try (destruct Hr; fail).
      destruct (String.eqb ref ""); [destruct Hr |].
      destruct (forallb _ _); [destruct Hr |].
      destruct (existsb _ _); [destruct Hr |].
      destruct Hr as [<- | []]. split; reflexivity. }
    destruct Heq as [-> Hc]. split; [exact Hrow |]. split; [exact Hc |].
    apply negb_true_iff. exact Hne.
  - intros (Hrow & Hc & Hne). split.
    + exists r. split; [exact Hrow |]. rewrite Hc. left. reflexivity.
    + apply negb_true_iff. exact Hne.
Qed.

Lemma in_null_of p (rows : Sampler.Frame) r :
  In r (null_of p rows) ->
  exists row ref,
    In row rows /\ Sampler.classify p row = Returns (Sampler.NullRow ref) /\
    r = [Some ref].
Proof.
  unfold null_of. rewrite in_flat_map. intros (row & Hrow & Hr).
  destruct (Sampler.classify p row) as [[| ref | ref | v] | e] eqn:Hc;
    try (destruct Hr; fail).
  destruct Hr as [<- | []]. exists row, ref.
  split; [exact Hrow |]. split; [exact Hc | reflexivity].
Qed.

Lemma in_failed_of p (rows : Sampler.Frame) r :
  In r (failed_of p rows) ->
  exists row ref,
    In row rows /\ Sampler.classify p row = Returns (Sampler.FailedRow ref) /\
    r = [Some ref].
Proof.
  unfold failed_of. rewrite in_flat_map. intros (row & Hrow & Hr).
  destruct (Sampler.classify p row) as [[| ref | ref | v] | e] eqn:Hc;
    try (destruct Hr; fail).
  destruct Hr as [<- | []]. exists row, ref.
  split; [exact Hrow |]. split; [exact Hc | reflexivity].
Qed.

Lemma written_if_any_some (df rows : Sampler.Frame) :
  Sampler.written_if_any df = Some rows -> rows = df /\ 0 < length df.
Proof.
  destruct df as [| r df]; [discriminate |].
  intros [= <-]. split; [reflexivity | simpl; lia].
Qed.

(** The run of [process_csv] on a frame of [S p] columns. *)
Lemma process_csv_rect p (hdr : list Sampler.cell) (rest : Sampler.Frame) names :
  length hdr = S p ->
  Forall (fun row : list Sampler.cell => length row = S p) (hdr :: rest) ->
  Sampler.strings_of hdr = Returns names ->
  Sampler.process_csv shuffle sample (hdr :: rest) =
  Returns (Sampler.mkOutput
             (String.concat "," names)
             (Sampler.at_most_100 sample (candidates p (shuffle (hdr :: rest))))
             (Sampler.written_if_any
                (Sampler.at_most_100 sample (null_of p (shuffle (hdr :: rest)))))
             (Sampler.written_if_any
                (Sampler.at_most_100 sample (failed_of p (shuffle (hdr :: rest)))))).
Proof.
  intros Hlen Hrect Hnames. unfold Sampler.process_csv. rewrite Hlen.
  rewrite iterrows_rect.
  - simpl. rewrite Hnames. reflexivity.
  - eapply Permutation_Forall; [symmetry; apply shuffle_perm | exact Hrect].
Qed.

(** X25.  What [process_csv] puts into the three files.  On a frame
    with at least one column and a header row without [NaN] the call
    returns.  Each file gets at most 100 rows.  A row of [valid.csv] is
    a row of the frame that the loop files as valid and whose data
    columns are not all empty; a row of [null.csv] or [failed.csv] is
    the paper reference of a row of the frame that the loop files as
    null or as failed; and these two files are written only when they
    get a row. *)
Theorem process_csv_fills_the_three_files
    (hdr : list Sampler.cell) (rest : Sampler.Frame) names :
  rectangular (hdr :: rest) ->
  hdr <> [] ->
  Sampler.strings_of hdr = Returns names ->
  exists out,
    Sampler.process_csv shuffle sample (hdr :: rest) = Returns out /\
    Sampler.valid_csv_header out = String.concat "," names /\
    length (Sampler.valid_csv_rows out) <= 100 /\
    (forall r, In r (Sampler.valid_csv_rows out) ->
       In r (hdr :: rest) /\ kept_as_valid (length hdr - 1) r) /\
    (forall rows, Sampler.null_csv out = Some rows ->
       0 < length rows <= 100 /\
       forall r, In r rows ->
         exists row ref,
           In row (hdr :: rest) /\
           Sampler.classify (length hdr - 1) row = Returns (Sampler.NullRow ref) /\
           r = [Some ref]) /\
    (forall rows, Sampler.failed_csv out = Some rows ->
       0 < length rows <= 100 /\
       forall r, In r rows ->
         exists row ref,
           In row (hdr :: rest) /\
           Sampler.classify (length hdr - 1) row = Returns (Sampler.FailedRow ref) /\
           r = [Some ref]).
Proof.
  intros Hrect Hne Hnames.
  destruct (length hdr) as [| p] eqn:Hlen; [destruct hdr; [congruence | discriminate] |].
  simpl in Hrect. replace (S p - 1) with p by lia.
  assert (Hrect' : Forall (fun row : list Sampler.cell => length row = S p) (hdr :: rest)).
  { eapply Forall_impl; [exact Hrect |]. intros row Hrow. simpl in Hrow. congruence. }
  assert (Hshuf : Forall (fun row : list Sampler.cell => length row = S p)
                         (shuffle (hdr :: rest))).
  { eapply Permutation_Forall; [symmetry; apply shuffle_perm | exact Hrect']. }
  assert (Hback : forall row, In row (shuffle (hdr :: rest)) -> In row (hdr :: rest)).
  { intros row. apply Permutation_in. apply shuffle_perm. }
  eexists. split; [apply (process_csv_rect p hdr rest names Hlen Hrect' Hnames) |].
  simpl. split; [reflexivity |]. split; [| split; [| split]].
  - rewrite at_most_100_length. lia.
  - intros r Hin. apply at_most_100_sub in Hin.
    apply (in_candidates p _ r Hshuf) in Hin. destruct Hin as [Hin Hkept].
    split; [apply Hback; exact Hin | exact Hkept].
  - intros rows Hsome. apply written_if_any_some in Hsome. destruct Hsome as [-> Hpos].
    split; [split; [exact Hpos | rewrite at_most_100_length; lia] |].
    intros r Hin. apply at_most_100_sub in Hin.
    destruct (in_null_of p _ r Hin) as (row & ref & Hrow & Hc & Hr).
    exists row, ref. split; [apply Hback; exact Hrow | auto].
  - intros rows Hsome. apply written_if_any_some in Hsome. destruct Hsome as [-> Hpos].
    split; [split; [exact Hpos | rewrite at_most_100_length; lia] |].
    intros r Hin. apply at_most_100_sub in Hin.
    destruct (in_failed_of p _ r Hin) as (row & ref & Hrow & Hc & Hr).
    exists row, ref. split; [apply Hback; exact Hrow | auto].
Qed.

(** X26.  The header line is sampled like a data row.  The frame is
    read without a header, so its first row, the header line of the
    file, goes through the loop with the others.  When that row
    qualifies for [valid.csv] and the frame has at most 100 rows that
    do, the header line is among the rows of [valid.csv], below the
    header line that is written first. *)
Theorem process_csv_samples_the_header_line
    (hdr : list Sampler.cell) (rest : Sampler.Frame) names :
  rectangular (hdr :: rest) ->
  hdr <> [] ->
  Sampler.strings_of hdr = Returns names ->
  kept_as_valid (length hdr - 1) hdr ->
  length (candidates (length hdr - 1) (hdr :: rest)) <= 100 ->
  exists out,
    Sampler.process_csv shuffle sample (hdr :: rest) = Returns out /\
    Sampler.valid_csv_header out = String.concat "," names /\
    In hdr (Sampler.valid_csv_rows out).
Proof.
  intros Hrect Hne Hnames Hkept Hfew.
  destruct (length hdr) as [| p] eqn:Hlen; [destruct hdr; [congruence | discriminate] |].
  simpl in Hrect. replace (S p - 1) with p in * by lia.
  assert (Hrect' : Forall (fun row : list Sampler.cell => length row = S p) (hdr :: rest)).
  { eapply Forall_impl; [exact Hrect |]. intros row Hrow. simpl in Hrow. congruence. }
  assert (Hshuf : Forall (fun row : list Sampler.cell => length row = S p)
                         (shuffle (hdr :: rest))).
  { eapply Permutation_Forall; [symmetry; apply shuffle_perm | exact Hrect']. }
  eexists. split; [apply (process_csv_rect p hdr rest names Hlen Hrect' Hnames) |].
  simpl. split; [reflexivity |].
  apply at_most_100_all.
  - rewrite (Permutation_length (candidates_perm p _ _ (shuffle_perm (hdr :: rest)))).
    exact Hfew.
  - apply (in_candidates p _ hdr Hshuf). split; [| exact Hkept].
    eapply Permutation_in; [symmetry; apply shuffle_perm | left; reflexivity].
Qed.

End Frames.

(** * The added properties at work *)

Lemma bench_stationary : stationary Bench.env.
Proof. split; intros; reflexivity. Qed.

(** The name service of the bench fails on ["broken"] with an error
    of its own: the error leaves [resolve_with_cirpy]. *)
Lemma resolve_with_cirpy_raises_on_the_bench :
  cactus_down_signature (exn_str (mkExn "ValueError" "cannot interpret the name")) = false /\
  exists n, calls world0 <= n /\
            cirpy_resolve Bench.env n "broken"
            = Throws (mkExn "ValueError" "cannot interpret the name").
Proof.
  apply (resolve_with_cirpy_raises_only_foreign_errors Bench.env 1 "broken" world0
           (mkExn "ValueError" "cannot interpret the name")
           (snd (resolve_with_cirpy Bench.env 1 "broken" world0))).
  vm_compute. reflexivity.
Defined.

(** In the storm the name service times out once and the liveness
    endpoint is down for two probes: the call returns after five
    requests and two sleeps. *)
Lemma resolve_with_cirpy_in_the_storm :
  exists w',
    resolve_with_cirpy Storm.env 4 "methane" world0 = (Ret (Some "C"), w') /\
    calls w' = calls world0 + 2 + 3 /\
    slept w' = slept world0 ++ replicate 2 300%Z.
Proof.
  apply (resolve_with_cirpy_rides_out_an_outage Storm.env 2 4 "methane" world0
           (mkExn "HTTPError" "HTTP Error 504: Gateway Timeout") (Some "C")).
  - reflexivity.
  - vm_compute. reflexivity.
  - intros [| [| i]] Hi; [reflexivity | reflexivity | lia].
  - reflexivity.
  - reflexivity.
  - simpl. lia.
Defined.

(** The error of the bench for ["stuck"] holds the digits 504 in a
    request number: the call never comes back. *)
Lemma resolve_with_cirpy_is_stuck_on_the_bench :
  fst (resolve_with_cirpy Bench.env 50 "stuck" world0) = Diverge.
Proof.
  apply (resolve_with_cirpy_blocks_on_a_lasting_signature Bench.env 50 "stuck" world0).
  intros n _. exists (mkExn "HTTPError" "request 15042 was rejected").
  split; [reflexivity | vm_compute; reflexivity].
Defined.

Lemma fetch_smiles_from_pubchem_finds_aspirin :
  fetch_smiles_from_pubchem Bench.env "aspirin" world0 =
  (Ret (JStr Bench.aspirin),
   pubchem_logged INFO "Successfully fetched SMILES from PubChem for {name}: {smiles}"
                  [AStr "aspirin"; AJson (JStr Bench.aspirin)] world0).
Proof.
  apply (fetch_smiles_from_pubchem_finds_the_first_record Bench.env "aspirin" world0
           (mkResponse true 200 (Returns (Bench.document (pubchem_url "aspirin"))))
           [("PropertyTable",
             JObj [("Properties",
                    JArr [JObj [("CID", JNum 2244);
                                ("CanonicalSMILES", JStr Bench.aspirin)]])])]
           [("Properties",
             JArr [JObj [("CID", JNum 2244); ("CanonicalSMILES", JStr Bench.aspirin)]])]
           [("CID", JNum 2244); ("CanonicalSMILES", JStr Bench.aspirin)]
           [] (JStr Bench.aspirin));
    vm_compute; reflexivity.
Defined.

(** PubChem of the bench does not know water and answers with a
    fault document. *)
Lemma fetch_smiles_from_pubchem_finds_no_water :
  fetch_smiles_from_pubchem Bench.env "water" world0 =
  (Ret JNull,
   pubchem_logged WARNING "PubChem returned no valid SMILES for {name}." [AStr "water"] world0).
Proof.
  refine (proj1 (fetch_smiles_from_pubchem_on_missing_data Bench.env "water" world0
                   (mkResponse true 200 (Returns (Bench.document (pubchem_url "water"))))
                   [("Fault", JObj [("Code", JStr "PUGREST.NotFound")])]
                   _ _) _).
  - vm_compute. reflexivity.
  - vm_compute. reflexivity.
  - left. vm_compute. reflexivity.
Defined.

(** The first request of the laboratory fails to connect. *)
Lemma fetch_smiles_from_pubchem_in_the_lab :
  fetch_smiles_from_pubchem Lab.env "water" world0 =
  (Ret JNull,
   pubchem_logged ERROR "Error fetching SMILES from PubChem for {name}: {str(e)}"
                  [AStr "water";
                   AStr (exn_str (mkExn "ConnectionError" "Failed to establish a new connection"))]
                  world0).
Proof.
  apply (fetch_smiles_from_pubchem_swallows_faults Lab.env "water" world0
           (mkExn "ConnectionError" "Failed to establish a new connection")).
  left. reflexivity.
Defined.

Lemma validate_identifier_skips_null_on_the_bench :
  validate_identifier Bench.env 1 "null" "iupac" world0
  = (Ret (false, None), noted "null" "iupac" world0).
Proof.
  apply (validate_identifier_short_circuits Bench.env 1 "null" "iupac" world0).
  left. reflexivity.
Defined.

(** The SMILES of methane is not parsed without its brackets. *)
Lemma validate_identifier_as_smiles_on_the_bench :
  validate_identifier Bench.env 1 "C" "smiles" world0
  = (Ret (false, None),
     logged WARNING "Skipping invalid SMILES input: {identifier}" [AStr "C"]
            (noted "C" "smiles" world0)) /\
  validate_identifier Bench.env 1 "[C]" "smiles" world0
  = (Ret (true, Some [6%Z]), noted "[C]" "smiles" world0).
Proof.
  split.
  - apply (proj1 (validate_identifier_as_smiles Bench.env 1 "C" world0
                    ltac:(discriminate) ltac:(discriminate))).
    reflexivity.
  - apply (proj1 (proj2 (validate_identifier_as_smiles Bench.env 1 "[C]" world0
                           ltac:(discriminate) ltac:(discriminate)) eq_refl)).
    reflexivity.
Defined.

Lemma validate_identifier_as_inchi_on_the_bench :
  validate_identifier Bench.env 1 "InChI=1S/CH4/h1H4" "inchi" world0
  = (Ret (true, Some [6%Z]), noted "InChI=1S/CH4/h1H4" "inchi" world0) /\
  validate_identifier Bench.env 1 "InChI=boom" "inchi" world0
  = (Ret (false, None),
     logged ERROR "Unexpected error for {identifier_type}: {identifier}. Error: {str(e)}"
            [AStr "inchi"; AStr "InChI=boom";
             AStr (exn_str (mkExn "RuntimeError" "parser crashed"))]
            (noted "InChI=boom" "inchi" world0)).
Proof.
  split.
  - apply (proj1 (validate_identifier_as_inchi Bench.env 1 "InChI=1S/CH4/h1H4" world0
                    ltac:(discriminate) ltac:(discriminate))).
    reflexivity.
  - apply (proj2 (proj2 (validate_identifier_as_inchi Bench.env 1 "InChI=boom" world0
                           ltac:(discriminate) ltac:(discriminate)))).
    reflexivity.
Defined.

Lemma validate_identifier_resolves_methane_on_the_bench :
  validate_identifier Bench.env 1 "methane" "iupac" world0
  = (Ret (true, Some [6%Z]), tick (noted "methane" "iupac" world0)).
Proof.
  apply (validate_identifier_iupac_stops_at_cirpy Bench.env 0 "methane" world0 "C" [6%Z]);
    first [discriminate | reflexivity].
Defined.

Lemma validate_identifier_falls_back_on_the_bench :
  exists w',
    validate_identifier Bench.env 1 "broken" "iupac" world0 = (Ret (true, Some [6%Z]), w') /\
    calls w' = calls world0 + 2 /\
    log w' = log world0 ++
             [mkLog ERROR "Cirpy error for IUPAC: {identifier}. Error: {str(e)}"
                    [AStr "broken";
                     AStr (exn_str (mkExn "ValueError" "cannot interpret the name"))];
              mkLog INFO "Successfully fetched SMILES from PubChem for {name}: {smiles}"
                    [AStr "broken"; AJson (JStr "C")]].
Proof.
  apply (validate_identifier_iupac_falls_back_to_pubchem Bench.env 0 "broken" world0
           (mkExn "ValueError" "cannot interpret the name")
           (mkResponse true 200 (Returns (Bench.document (pubchem_url "broken"))))
           [("PropertyTable",
             JObj [("Properties",
                    JArr [JObj [("CID", JNum 297); ("CanonicalSMILES", JStr "C")]])])]
           [("Properties",
             JArr [JObj [("CID", JNum 297); ("CanonicalSMILES", JStr "C")]])]
           [("CID", JNum 297); ("CanonicalSMILES", JStr "C")]
           [] "C" [6%Z]);
    first [discriminate | vm_compute; reflexivity].
Defined.

Lemma validate_identifier_rejects_a_number_on_the_bench :
  exists w',
    validate_identifier Bench.env 1 "oddity" "iupac" world0 = (Ret (false, None), w') /\
    log w' = log world0 ++
             [mkLog INFO "Successfully fetched SMILES from PubChem for {name}: {smiles}"
                    [AStr "oddity"; AJson (JNum 5)];
              mkLog ERROR "PubChem error for IUPAC: {identifier}. Error: {str(e)}"
                    [AStr "oddity";
                     AStr "Python argument types did not match C++ signature"]].
Proof.
  apply (validate_identifier_iupac_rejects_a_non_string Bench.env 0 "oddity" world0
           (mkResponse true 200 (Returns (Bench.document (pubchem_url "oddity"))))
           [("PropertyTable",
             JObj [("Properties", JArr [JObj [("CanonicalSMILES", JNum 5)]])])]
           [("Properties", JArr [JObj [("CanonicalSMILES", JNum 5)]])]
           [("CanonicalSMILES", JNum 5)]
           [] (JNum 5));
    first [discriminate | intros s; discriminate | vm_compute; reflexivity].
Defined.

Lemma bench_methane_answer :
  validate_identifier Bench.env 1 "methane" "iupac" world0
  = (Ret (true, Some [6%Z]),
     snd (validate_identifier Bench.env 1 "methane" "iupac" world0)).
Proof. vm_compute. reflexivity. Qed.

Lemma validate_identifier_flag_on_the_bench :
  true = true <-> @Some (Mol Bench.env) [6%Z] <> None.
Proof.
  exact (validate_identifier_flag_means_molecule Bench.env 1 "methane" "iupac" world0
           true (Some [6%Z])
           (snd (validate_identifier Bench.env 1 "methane" "iupac" world0))
           bench_methane_answer).
Defined.

(** A row of three fields with ["null"] in the third. *)
Lemma short_row_on_the_bench :
  exists w',
    process_row Bench.env 1 ["oddity"; ""; "null"] world0 = (Ret tt, w') /\
    emitted Invalid (["oddity"; ""; "null"] ++ ["No"; "No"; "No"]) world0 w' /\
    attempts w' = attempts world0 /\
    calls w' = calls world0 /\
    log w' = log world0 ++
             [mkLog ERROR "Error processing row: {row}. Error: {str(e)}"
                    [ARow ["oddity"; ""; "null"]; AStr "list index out of range"]].
Proof.
  apply (short_row_without_data_is_invalid Bench.env 1 ["oddity"; ""; "null"] "oddity" world0).
  - reflexivity.
  - discriminate.
  - discriminate.
  - simpl. lia.
  - intros [| [| [| j]]] x Hj Hx; try lia.
    + injection Hx as <-. reflexivity.
    + discriminate Hx.
Defined.

Lemma bench_methane_run :
  process_row Bench.env 1 bench_row_methane world0
  = (Ret tt, snd (process_row Bench.env 1 bench_row_methane world0)).
Proof. vm_compute. reflexivity. Qed.

Lemma bench_methane_emitted :
  emitted Valid ("C" :: bench_row_methane ++ ["Yes"; "No"; "No"]) world0
          (snd (process_row Bench.env 1 bench_row_methane world0)).
Proof. repeat split; vm_compute; reflexivity. Qed.

Lemma valid_row_on_the_bench :
  exists s r w2 m,
    reaches_resolution bench_row_methane s /\
    resolve_formats Bench.env 1 s (at_resolution bench_row_methane world0) = (Ret r, w2) /\
    first_mol r = Some m /\
    In 6%Z (atomic_nums Bench.env m) /\
    one_hot (resolution_info_of Bench.env r) /\
    "C" :: bench_row_methane ++ ["Yes"; "No"; "No"]
    = Chem_MolToSmiles Bench.env m :: bench_row_methane ++ resolution_info_of Bench.env r.
Proof.
  exact (valid_rows_carry_a_carbon_molecule Bench.env 1 bench_row_methane world0
           (snd (process_row Bench.env 1 bench_row_methane world0))
           ("C" :: bench_row_methane ++ ["Yes"; "No"; "No"])
           bench_methane_run bench_methane_emitted).
Defined.

(** A row led by ["failed"] does not reach the resolution step. *)
Lemma placeholder_row_stays_offline_on_the_bench :
  exists w',
    process_row Bench.env 1 ["failed"; "a"; "b"] world0 = (Ret tt, w') /\
    calls w' = calls world0 /\
    slept w' = slept world0 /\
    attempts w' = attempts world0.
Proof.
  apply (rows_outside_resolution_stay_offline Bench.env 1 ["failed"; "a"; "b"] world0).
  intros s (Hs & _ & Hfailed & _). injection Hs as <-. apply Hfailed. reflexivity.
Defined.

(** Two runs on the file of the bench, one of them after a request
    elsewhere. *)
Lemma process_results_twice_on_the_bench :
  fst (process_results Bench.env 1 bench_file world0)
  = fst (process_results Bench.env 1 bench_file (tick world0)) /\
  same_streams (snd (process_results Bench.env 1 bench_file world0))
               (snd (process_results Bench.env 1 bench_file (tick world0))).
Proof.
  exact (process_results_forgets_the_past Bench.env 1 bench_file world0 (tick world0)
           bench_stationary).
Defined.

Lemma truncate_text_of_eight_to_five :
  Z.of_nat (String.length (Anigen.truncate_text "abcdefgh" 5))
  = Z.min (Z.of_nat (String.length "abcdefgh")) 5 /\
  ((Z.of_nat (String.length "abcdefgh") <= 5)%Z ->
   Anigen.truncate_text "abcdefgh" 5 = "abcdefgh") /\
  ((5 < Z.of_nat (String.length "abcdefgh"))%Z ->
   Anigen.truncate_text "abcdefgh" 5
   = String.append (PySlice.take_chars (Z.to_nat (5 - 3)) "abcdefgh") "...") /\
  Anigen.truncate_text (Anigen.truncate_text "abcdefgh" 5) 5
  = Anigen.truncate_text "abcdefgh" 5.
Proof.
  apply (truncate_text_keeps_to_the_limit "abcdefgh" 5). lia.
Defined.

(** With a limit of 2 a text of six characters comes back eight
    characters long. *)
Lemma truncate_text_of_six_to_two :
  Z.of_nat (String.length (Anigen.truncate_text "abcdef" 2))
  = (Z.max 0 (Z.of_nat (String.length "abcdef") + 2 - 3) + 3)%Z /\
  (2 < Z.of_nat (String.length (Anigen.truncate_text "abcdef" 2)))%Z /\
  ((0 <= 2)%Z ->
   (Z.of_nat (String.length "abcdef")
    <= Z.of_nat (String.length (Anigen.truncate_text "abcdef" 2)))%Z).
Proof.
  apply (truncate_text_overshoots_a_small_limit "abcdef" 2); simpl; lia.
Defined.

(** A row with ["null"] and ["failed"] side by side is failed, not
    null. *)
Lemma classify_on_the_shelf :
  exists k,
    Sampler.classify 2 [Some "null"; Some "failed"; Some "ref"] = Returns k /\
    (k = Sampler.Skipped <->
     [Some "null"; Some "failed"; Some "ref"] !! 2 = Some None \/
     [Some "null"; Some "failed"; Some "ref"] !! 2 = Some (Some "")) /\
    (forall ref, k = Sampler.NullRow ref <->
       [Some "null"; Some "failed"; Some "ref"] !! 2 = Some (Some ref) /\ ref <> "" /\
       forall c, In c (take 2 [Some "null"; Some "failed"; Some "ref"]) -> c = Some "null") /\
    (forall ref, k = Sampler.FailedRow ref ->
       [Some "null"; Some "failed"; Some "ref"] !! 2 = Some (Some ref) /\
       In (Some "failed") (take 2 [Some "null"; Some "failed"; Some "ref"])) /\
    (forall r, k = Sampler.ValidRow r ->
       r = [Some "null"; Some "failed"; Some "ref"] /\
       ~ In (Some "failed") (take 2 [Some "null"; Some "failed"; Some "ref"])).
Proof.
  apply (classify_drops_only_rows_without_reference 2
           [Some "null"; Some "failed"; Some "ref"]).
  reflexivity.
Defined.

(** Reversal as the shuffle and the first rows as the sample. *)
Lemma rev_shuffles (df : Sampler.Frame) : Permutation (rev df) df.
Proof. symmetry. apply Permutation_rev. Qed.

Lemma take_samples n (df : Sampler.Frame) : take n df ⊆+ df.
Proof. apply sublist_submseteq. apply sublist_take. Qed.

Lemma take_sample_length n (df : Sampler.Frame) : n <= length df -> length (take n df) = n.
Proof. intros Hn. rewrite length_take. lia. Qed.

Lemma shelf_rectangular : rectangular (shelf_header :: shelf_rows).
Proof. repeat constructor. Qed.

Lemma process_csv_on_the_shelf :
  exists out,
    Sampler.process_csv (@rev _) (@take _) (shelf_header :: shelf_rows) = Returns out /\
    Sampler.valid_csv_header out = String.concat "," ["name"; "smiles"; "paper"] /\
    length (Sampler.valid_csv_rows out) <= 100 /\
    (forall r, In r (Sampler.valid_csv_rows out) ->
       In r (shelf_header :: shelf_rows) /\ kept_as_valid (length shelf_header - 1) r) /\
    (forall rows, Sampler.null_csv out = Some rows ->
       0 < length rows <= 100 /\
       forall r, In r rows ->
         exists row ref,
           In row (shelf_header :: shelf_rows) /\
           Sampler.classify (length shelf_header - 1) row = Returns (Sampler.NullRow ref) /\
           r = [Some ref]) /\
    (forall rows, Sampler.failed_csv out = Some rows ->
       0 < length rows <= 100 /\
       forall r, In r rows ->
         exists row ref,
           In row (shelf_header :: shelf_rows) /\
           Sampler.classify (length shelf_header - 1) row = Returns (Sampler.FailedRow ref) /\
           r = [Some ref]).
Proof.
  apply (process_csv_fills_the_three_files (@rev _) (@take _)
           rev_shuffles take_samples take_sample_length
           shelf_header shelf_rows ["name"; "smiles"; "paper"]).
  - exact shelf_rectangular.
  - discriminate.
  - reflexivity.
Defined.

(** The header line of the shelf is a row of its [valid.csv]. *)
Lemma header_line_on_the_shelf :
  exists out,
    Sampler.process_csv (@rev _) (@take _) (shelf_header :: shelf_rows) = Returns out /\
    Sampler.valid_csv_header out = String.concat "," ["name"; "smiles"; "paper"] /\
    In shelf_header (Sampler.valid_csv_rows out).
Proof.
  apply (process_csv_samples_the_header_line (@rev _) (@take _)
           rev_shuffles take_samples take_sample_length
           shelf_header shelf_rows ["name"; "smiles"; "paper"]).
  - exact shelf_rectangular.
  - discriminate.
  - reflexivity.
  - split; reflexivity.
  - vm_compute. lia.
Defined.

(** The first probe of the laboratory fails to connect: with a wait
    of -5 seconds the monitor ends in the error of the sleep. *)
Lemma wait_for_cactus_service_backwards_in_the_lab :
  exists w',
    wait_for_cactus_service Lab.env 3 (-5) world0
    = (Raise (mkExn "ValueError" "sleep length must be non-negative"), w') /\
    calls w' = S (calls world0) /\ slept w' = slept world0.
Proof.
  apply (proj1 (wait_for_cactus_service_raises_on_a_negative_wait Lab.env 2 (-5) world0
                  ltac:(lia))).
  reflexivity.
Defined.
